(** * An SNTP client ([ntp.go]): shallow embedding and verified properties

    The Go source works on fixed-width machine integers.  They are modelled
    as [Z] with the wrap-around written out: [u64] is the reduction modulo
    2^64 every [uint64] operation performs, [s64] the reinterpretation of
    the same 64 bits as an [int64].

    - [ntpTime]       (Go [uint64], Q32.32 seconds)    : [Z] in [0, 2^64)
    - [ntpTimeShort]  (Go [uint32], Q16.16 seconds)    : [Z] in [0, 2^32)
    - [time.Duration] (Go [int64], nanoseconds)        : [Z] in [-2^63, 2^63)
    - [time.Time]     (an instant, nanosecond grain)   : [Z], nanoseconds
                                                         since 1970-01-01 UTC *)

From Stdlib Require Import ZArith Lia List Bool String Ascii.
From Stdlib Require Import Strings.Byte.
From Stdlib Require Import DecimalString.
Import ListNotations.

Local Open Scope Z_scope.

(* ================================================================== *)
(** ** Machine integers *)
(* ================================================================== *)

Module Int.

(** Reduction to [w] bits, unsigned. *)
Definition wrap (w : Z) (z : Z) : Z := z mod 2 ^ w.

(** Reduction to [w] bits, read as two's complement. *)
Definition swrap (w : Z) (z : Z) : Z :=
  (z + 2 ^ (w - 1)) mod 2 ^ w - 2 ^ (w - 1).

Definition u8  : Z -> Z := wrap 8.
Definition u16 : Z -> Z := wrap 16.
Definition u32 : Z -> Z := wrap 32.
Definition u64 : Z -> Z := wrap 64.
Definition s8  : Z -> Z := swrap 8.
Definition s64 : Z -> Z := swrap 64.

Definition is_u8  (z : Z) : Prop := 0 <= z < 2 ^ 8.
Definition is_u32 (z : Z) : Prop := 0 <= z < 2 ^ 32.
Definition is_u64 (z : Z) : Prop := 0 <= z < 2 ^ 64.
Definition is_s8  (z : Z) : Prop := - 2 ^ 7 <= z < 2 ^ 7.
Definition is_s64 (z : Z) : Prop := - 2 ^ 63 <= z < 2 ^ 63.

(** Go's [x << n] and [x >> n] on a [uint64] with an unsigned shift count
    [n]: every bit is shifted out once [n] reaches the width. *)
Definition shl64 (x n : Z) : Z := if n <? 64 then u64 (Z.shiftl x n) else 0.
Definition shr64 (x n : Z) : Z := if n <? 64 then Z.shiftr x n else 0.

End Int.
Import Int.

(* ================================================================== *)
(** ** Constants *)
(* ================================================================== *)

Definition nanoPerSec : Z := 1000000000.
Definition maxStratum : Z := 16.
Definition defaultNtpVersion : Z := 4.
Definition defaultNtpPort : Z := 123.
Definition Second : Z := 1000000000.
Definition defaultTimeout : Z := 5 * Second.
Definition maxPollInterval : Z := Z.shiftl 1 17 * Second.
Definition maxDispersion : Z := 16 * Second.

Definition minDuration : Z := - 2 ^ 63.
Definition maxDuration : Z := 2 ^ 63 - 1.

(* ================================================================== *)
(** ** [time.Time] *)
(* ================================================================== *)

Module time.

(** Days between 1970-01-01 and the civil date [y]-[m]-[d] of the
    proleptic Gregorian calendar, for a month in 1..12. *)
Definition daysFromCivil (y m d : Z) : Z :=
  let y'  := if m <=? 2 then y - 1 else y in
  let era := y' / 400 in
  let yoe := y' - era * 400 in
  let mp  := if m <=? 2 then m + 9 else m - 3 in
  let doy := (153 * mp + 2) / 5 + d - 1 in
  let doe := yoe * 365 + yoe / 4 - yoe / 100 + doy in
  era * 146097 + doe - 719468.

(** [time.Date(y, m, d, hh, mm, ss, nsec, time.UTC)] for in-range
    arguments. *)
Definition Date (y m d hh mm ss nsec : Z) : Z :=
  (((daysFromCivil y m d * 24 + hh) * 60 + mm) * 60 + ss) * nanoPerSec + nsec.

(** [t.Add(d)].  The instants of this development stay far inside the
    range of Go's [time.Time], so no saturation is involved. *)
Definition Add (t d : Z) : Z := t + d.

(** [t.Sub(u)]: the difference as a [Duration], saturated at the ends
    of the [int64] range. *)
Definition Sub (t u : Z) : Z :=
  let d := t - u in
  if d <? minDuration then minDuration
  else if maxDuration <? d then maxDuration
  else d.

Definition Before (t u : Z) : bool := t <? u.

End time.

Definition ntpEra0 : Z := time.Date 1900 1 1 0 0 0 0.
Definition ntpEra1 : Z := time.Date 2036 2 7 6 28 16 0.

(* ================================================================== *)
(** ** Fixed-point timestamps *)
(* ================================================================== *)

Module ntpTime.

(** [func (t ntpTime) Duration() time.Duration] *)
Definition Duration (t : Z) : Z :=
  let sec  := u64 (Z.shiftr t 32 * nanoPerSec) in
  let frac := u64 (Z.land t 0xffffffff * nanoPerSec) in
  let nsec := Z.shiftr frac 32 in
  let nsec := if 0x80000000 <=? u32 frac then u64 (nsec + 1) else nsec in
  s64 (u64 (sec + nsec)).

Definition t1970 : Z := 0x83aa7e8000000000.

(** [func (t ntpTime) Time() time.Time] *)
Definition Time (t : Z) : Z :=
  if t <? t1970 then time.Add ntpEra1 (Duration t)
  else time.Add ntpEra0 (Duration t).

End ntpTime.

(** [func toNtpTime(t time.Time) ntpTime] *)
Definition toNtpTime (t : Z) : Z :=
  let nsec := u64 (time.Sub t ntpEra0) in
  let sec  := nsec / nanoPerSec in
  let nsec := u64 (Z.shiftl (u64 (nsec - u64 (sec * nanoPerSec))) 32) in
  let frac := nsec / nanoPerSec in
  let frac := if nanoPerSec / 2 <=? nsec mod nanoPerSec
              then u64 (frac + 1) else frac in
  Z.lor (u64 (Z.shiftl sec 32)) frac.

Module ntpTimeShort.

(** [func (t ntpTimeShort) Duration() time.Duration] *)
Definition Duration (t : Z) : Z :=
  let sec  := u64 (Z.shiftr t 16 * nanoPerSec) in
  let frac := u64 (Z.land t 0xffff * nanoPerSec) in
  let nsec := Z.shiftr frac 16 in
  let nsec := if 0x8000 <=? u16 frac then u64 (nsec + 1) else nsec in
  s64 (u64 (sec + nsec)).

End ntpTimeShort.

(* ================================================================== *)
(** ** Timestamp arithmetic *)
(* ================================================================== *)

(** [func rtt(org, rec, xmt, dst ntpTime) time.Duration] *)
Definition rtt (org rec xmt dst : Z) : Z :=
  let a := s64 (u64 (dst - org)) in
  let b := s64 (u64 (xmt - rec)) in
  let rtt := s64 (a - b) in
  let rtt := if rtt <? 0 then 0 else rtt in
  ntpTime.Duration (u64 rtt).

(** [func offset(org, rec, xmt, dst ntpTime) time.Duration] *)
Definition offset (org rec xmt dst : Z) : Z :=
  let a := s64 (u64 (rec - org)) in
  let b := s64 (u64 (xmt - dst)) in
  let offset := s64 (a + Z.quot (s64 (b - a)) 2) in
  if offset <? 0
  then s64 (- ntpTime.Duration (u64 (s64 (- offset))))
  else ntpTime.Duration (u64 offset).

(** [func minError(org, rec, xmt, dst ntpTime) time.Duration] *)
Definition minError (org rec xmt dst : Z) : Z :=
  let error0 := if rec <=? org then u64 (org - rec) else 0 in
  let error1 := if dst <=? xmt then u64 (xmt - dst) else 0 in
  if error1 <? error0 then ntpTime.Duration error0
  else ntpTime.Duration error1.

(** [func rootDistance(rtt, rootDelay, rootDisp time.Duration) time.Duration] *)
Definition rootDistance (rtt rootDelay rootDisp : Z) : Z :=
  let totalDelay := s64 (rtt + rootDelay) in
  s64 (Z.quot totalDelay 2 + rootDisp).

(** [func toInterval(t int8) time.Duration] *)
Definition toInterval (t : Z) : Z :=
  if 0 <? t then s64 (shl64 (u64 Second) (u64 t))
  else if t <? 0 then s64 (shr64 (u64 Second) (u64 (s8 (- t))))
  else Second.

(** [func kissCode(id uint32) string] *)
Definition isPrintable (ch : Z) : bool := (32 <=? ch) && (ch <=? 126).

Definition kissCode (id : Z) : string :=
  let b := [ u8 (Z.shiftr id 24); u8 (Z.shiftr id 16);
             u8 (Z.shiftr id 8);  u8 id ] in
  if forallb isPrintable b
  then string_of_list_ascii (map (fun ch => ascii_of_N (Z.to_N ch)) b)
  else EmptyString.

(* ================================================================== *)
(** ** Errors *)
(* ================================================================== *)

(** The package's sentinel errors, the two errors [binary.Read] reports on
    a short input, the errors [fixHostPort] builds with [errors.New], and
    the errors of the collaborators (dialer, connection, extensions, random
    source), which the package passes through unread. *)
Inductive error : Type :=
| ErrAuthFailed
| ErrInvalidAuthKey
| ErrInvalidDispersion
| ErrInvalidLeapSecond
| ErrInvalidMode
| ErrInvalidProtocolVersion
| ErrInvalidStratum
| ErrInvalidTime
| ErrInvalidTransmitTime
| ErrKissOfDeath
| ErrServerClockFreshness
| ErrServerResponseMismatch
| ErrServerTickedBackwards
| io_EOF
| io_ErrUnexpectedEOF
| errors_New (msg : string)
| ExternalError (msg : string).

Definition error_eqb (a b : error) : bool :=
  match a, b with
  | ErrAuthFailed, ErrAuthFailed
  | ErrInvalidAuthKey, ErrInvalidAuthKey
  | ErrInvalidDispersion, ErrInvalidDispersion
  | ErrInvalidLeapSecond, ErrInvalidLeapSecond
  | ErrInvalidMode, ErrInvalidMode
  | ErrInvalidProtocolVersion, ErrInvalidProtocolVersion
  | ErrInvalidStratum, ErrInvalidStratum
  | ErrInvalidTime, ErrInvalidTime
  | ErrInvalidTransmitTime, ErrInvalidTransmitTime
  | ErrKissOfDeath, ErrKissOfDeath
  | ErrServerClockFreshness, ErrServerClockFreshness
  | ErrServerResponseMismatch, ErrServerResponseMismatch
  | ErrServerTickedBackwards, ErrServerTickedBackwards
  | io_EOF, io_EOF
  | io_ErrUnexpectedEOF, io_ErrUnexpectedEOF => true
  | errors_New m, errors_New n => String.eqb m n
  | ExternalError m, ExternalError n => String.eqb m n
  | _, _ => false
  end.

(** The error kind the header decoder reports when the reply is shorter
    than a header: what [binary.Read] returns on an exhausted reader. *)
Definition MalformedHeader (e : error) : bool :=
  match e with
  | io_EOF | io_ErrUnexpectedEOF => true
  | _ => false
  end.

(** A fallible step: [inl err] is Go's [return ..., err], [inr v] the
    step's value. *)
Definition result (A : Type) : Type := (error + A)%type.

Definition bind {A B : Type} (m : result A) (k : A -> result B) : result B :=
  match m with
  | inl e => inl e
  | inr a => k a
  end.

(** A step that returns only an error value. *)
Definition check (m : option error) : result unit :=
  match m with
  | Some e => inl e
  | None => inr tt
  end.

Declare Scope go_scope.
Delimit Scope go_scope with go.
Notation "x <- m ;; k" := (bind m (fun x => k))
  (at level 61, m at next level, right associativity) : go_scope.
Notation "m ;;; k" := (bind m (fun _ => k))
  (at level 61, right associativity) : go_scope.

(* ================================================================== *)
(** ** Leap indicator and mode *)
(* ================================================================== *)

Definition LeapNoWarning : Z := 0.
Definition LeapAddSecond : Z := 1.
Definition LeapDelSecond : Z := 2.
Definition LeapNotInSync : Z := 3.

Definition reserved         : Z := 0.
Definition symmetricActive  : Z := 1.
Definition symmetricPassive : Z := 2.
Definition client           : Z := 3.
Definition server           : Z := 4.
Definition broadcast        : Z := 5.
Definition controlMessage   : Z := 6.
Definition reservedPrivate  : Z := 7.

(* ================================================================== *)
(** ** The packet header *)
(* ================================================================== *)

Module Header.

Record header : Type := mk {
  LiVnMode       : Z;  (* uint8 *)
  Stratum        : Z;  (* uint8 *)
  Poll           : Z;  (* int8 *)
  Precision      : Z;  (* int8 *)
  RootDelay      : Z;  (* ntpTimeShort *)
  RootDispersion : Z;  (* ntpTimeShort *)
  ReferenceID    : Z;  (* uint32 *)
  ReferenceTime  : Z;  (* ntpTime *)
  OriginTime     : Z;  (* ntpTime *)
  ReceiveTime    : Z;  (* ntpTime *)
  TransmitTime   : Z   (* ntpTime *)
}.

(** [new(header)]: every field zero. *)
Definition new : header := mk 0 0 0 0 0 0 0 0 0 0 0.

Definition with_LiVnMode (h : header) (v : Z) : header :=
  mk v (Stratum h) (Poll h) (Precision h) (RootDelay h) (RootDispersion h)
     (ReferenceID h) (ReferenceTime h) (OriginTime h) (ReceiveTime h)
     (TransmitTime h).

Definition with_Precision (h : header) (v : Z) : header :=
  mk (LiVnMode h) (Stratum h) (Poll h) v (RootDelay h) (RootDispersion h)
     (ReferenceID h) (ReferenceTime h) (OriginTime h) (ReceiveTime h)
     (TransmitTime h).

Definition with_OriginTime (h : header) (v : Z) : header :=
  mk (LiVnMode h) (Stratum h) (Poll h) (Precision h) (RootDelay h)
     (RootDispersion h) (ReferenceID h) (ReferenceTime h) v (ReceiveTime h)
     (TransmitTime h).

Definition with_TransmitTime (h : header) (v : Z) : header :=
  mk (LiVnMode h) (Stratum h) (Poll h) (Precision h) (RootDelay h)
     (RootDispersion h) (ReferenceID h) (ReferenceTime h) (OriginTime h)
     (ReceiveTime h) v.

(** Every field inside the range of its Go type. *)
Definition wf (h : header) : Prop :=
  is_u8 (LiVnMode h) /\ is_u8 (Stratum h) /\
  is_s8 (Poll h) /\ is_s8 (Precision h) /\
  is_u32 (RootDelay h) /\ is_u32 (RootDispersion h) /\
  is_u32 (ReferenceID h) /\
  is_u64 (ReferenceTime h) /\ is_u64 (OriginTime h) /\
  is_u64 (ReceiveTime h) /\ is_u64 (TransmitTime h).

(** [func (h *header) setVersion(v int)] *)
Definition setVersion (h : header) (v : Z) : header :=
  with_LiVnMode h (Z.lor (Z.land (LiVnMode h) 0xc7) (u8 (Z.shiftl (u8 v) 3))).

(** [func (h *header) setMode(md mode)] *)
Definition setMode (h : header) (md : Z) : header :=
  with_LiVnMode h (Z.lor (Z.land (LiVnMode h) 0xf8) (u8 md)).

(** [func (h *header) setLeap(li LeapIndicator)] *)
Definition setLeap (h : header) (li : Z) : header :=
  with_LiVnMode h (Z.lor (Z.land (LiVnMode h) 0x3f) (u8 (Z.shiftl (u8 li) 6))).

(** [func (h *header) getVersion() int] *)
Definition getVersion (h : header) : Z :=
  Z.land (Z.shiftr (LiVnMode h) 3) 0x7.

(** [func (h *header) getMode() mode] *)
Definition getMode (h : header) : Z :=
  Z.land (LiVnMode h) 0x07.

(** [func (h *header) getLeap() LeapIndicator] *)
Definition getLeap (h : header) : Z :=
  Z.land (Z.shiftr (LiVnMode h) 6) 0x03.

End Header.
Abbreviation header := Header.header.

(* ================================================================== *)
(** ** Big-endian wire format ([encoding/binary]) *)
(* ================================================================== *)

Module binary.

Definition Z_of_byte (b : byte) : Z := Z.of_N (Byte.to_N b).

Definition byte_of_Z (z : Z) : byte :=
  match Byte.of_N (Z.to_N (u8 z)) with
  | Some b => b
  | None => x00
  end.

(** The [n] low-order bytes of [z], most significant first. *)
Fixpoint be_bytes (n : nat) (z : Z) : list byte :=
  match n with
  | O => []
  | S n' => be_bytes n' (Z.shiftr z 8) ++ [byte_of_Z z]
  end.

(** The unsigned number a byte string spells, most significant first. *)
Definition be_uint (bs : list byte) : Z :=
  fold_left (fun acc b => acc * 256 + Z_of_byte b) bs 0.

(** [binary.BigEndian.Uint64(b)], reading [b[0..7]]. *)
Definition BigEndian_Uint64 (b : list byte) : Z := be_uint (firstn 8 b).

(** Size of the encoded header: 4 one-byte fields, 3 four-byte fields,
    4 eight-byte fields. *)
Definition headerSize : nat := 48.

(** [binary.Write(&buf, binary.BigEndian, h)] on an empty buffer. *)
Definition Write (h : header) : list byte :=
  be_bytes 1 (Header.LiVnMode h) ++
  be_bytes 1 (Header.Stratum h) ++
  be_bytes 1 (Header.Poll h) ++
  be_bytes 1 (Header.Precision h) ++
  be_bytes 4 (Header.RootDelay h) ++
  be_bytes 4 (Header.RootDispersion h) ++
  be_bytes 4 (Header.ReferenceID h) ++
  be_bytes 8 (Header.ReferenceTime h) ++
  be_bytes 8 (Header.OriginTime h) ++
  be_bytes 8 (Header.ReceiveTime h) ++
  be_bytes 8 (Header.TransmitTime h).

(** The bytes [off .. off+len-1] of [bs]. *)
Definition slice (bs : list byte) (off len : nat) : list byte :=
  firstn len (skipn off bs).

(** The header a full 48-byte block spells. *)
Definition decode (bs : list byte) : header :=
  Header.mk
    (be_uint (slice bs 0 1))
    (be_uint (slice bs 1 1))
    (s8 (be_uint (slice bs 2 1)))
    (s8 (be_uint (slice bs 3 1)))
    (be_uint (slice bs 4 4))
    (be_uint (slice bs 8 4))
    (be_uint (slice bs 12 4))
    (be_uint (slice bs 16 8))
    (be_uint (slice bs 24 8))
    (be_uint (slice bs 32 8))
    (be_uint (slice bs 40 8)).

(** [binary.Read(bytes.NewReader(buf), binary.BigEndian, hdr)]: the
    reader must supply [headerSize] bytes; [io.ReadFull] reports [io.EOF]
    when it has none at all and [io.ErrUnexpectedEOF] when it runs out
    part-way. *)
Definition Read (buf : list byte) : result header :=
  if (List.length buf =? 0)%nat then inl io_EOF
  else if (List.length buf <? headerSize)%nat then inl io_ErrUnexpectedEOF
  else inr (decode (firstn headerSize buf)).

End binary.

(* ================================================================== *)
(** ** Address strings *)
(* ================================================================== *)

Module strings.

Fixpoint IndexByte_from (s : string) (c : ascii) (i : Z) : Z :=
  match s with
  | EmptyString => -1
  | String a s' => if Ascii.eqb a c then i else IndexByte_from s' c (i + 1)
  end.

(** [strings.IndexByte(s, c)]: first index of [c] in [s], or -1. *)
Definition IndexByte (s : string) (c : ascii) : Z := IndexByte_from s c 0.

Fixpoint LastIndexByte_from (s : string) (c : ascii) (i last : Z) : Z :=
  match s with
  | EmptyString => last
  | String a s' =>
      LastIndexByte_from s' c (i + 1) (if Ascii.eqb a c then i else last)
  end.

(** [strings.LastIndexByte(s, c)]: last index of [c] in [s], or -1. *)
Definition LastIndexByte (s : string) (c : ascii) : Z :=
  LastIndexByte_from s c 0 (-1).

(** [len(s)] *)
Definition len (s : string) : Z := Z.of_nat (String.length s).

(** [s[i]] for an index inside the string. *)
Definition at_ (s : string) (i : Z) : option ascii :=
  if i <? 0 then None else String.get (Z.to_nat i) s.

(** [s[:n]] *)
Definition prefix (s : string) (n : Z) : string :=
  String.substring 0 (Z.to_nat n) s.

(** The [%d] verb of [fmt.Sprintf]. *)
Definition itoa (z : Z) : string := NilZero.string_of_int (Z.to_int z).

End strings.

(** [func fixHostPort(address string, defaultPort int) (fixed string, err error)] *)
Definition fixHostPort (address : string) (defaultPort : Z) : result string :=
  if strings.len address =? 0 then inl (errors_New "address string is empty"%string)
  else
    match strings.at_ address 0 with
    | Some "["%char =>
        let end_ := strings.IndexByte address "]"%char in
        if end_ <? 0 then inl (errors_New "missing ']' in address"%string)
        else if end_ + 1 =? strings.len address
        then inr (address ++ ":" ++ strings.itoa defaultPort)%string
        else
          match strings.at_ address (end_ + 1) with
          | Some ":"%char => inr address
          | _ =>
              inl (errors_New
                     "unexpected character following ']' in address"%string)
          end
    | _ =>
        let last := strings.LastIndexByte address ":"%char in
        if last <? 0 then inr (address ++ ":" ++ strings.itoa defaultPort)%string
        else
          let prev :=
            strings.LastIndexByte (strings.prefix address last) ":"%char in
          if prev <? 0 then inr address
          else inr ("[" ++ address ++ "]:" ++ strings.itoa defaultPort)%string
    end.

(* ================================================================== *)
(** ** Collaborators of one exchange *)
(* ================================================================== *)

(** A [net.Conn] as one exchange uses it: the TTL setter laid over it, one
    write, one read.  [Read] is the datagram the read call delivers (or its
    error, a timeout among them). *)
Record Conn : Type := {
  SetTTL : Z -> option error;
  Write  : list byte -> option error;
  Read   : result (list byte)
}.

(** The [Extension] interface.  [ProcessQuery] receives the transmit buffer
    and appends to it; the model returns the buffer it leaves. *)
Record Extension : Type := {
  ProcessQuery    : list byte -> result (list byte);
  ProcessResponse : list byte -> option error
}.

(** What lies outside the package during one call: the resolver and the
    UDP stack, [net.SplitHostPort] and [strconv.Atoi] as used by
    [dialWrapper], the random source, and the two clock readings. *)
Record World : Type := {
  net_ResolveUDPAddr : string -> result string;
  net_DialUDP        : option string -> string -> result Conn;
  net_SplitHostPort  : string -> result (string * string);
  strconv_Atoi       : string -> result Z;
  rand_Read          : nat -> result (list byte);
  time_Now           : Z;   (* [xmitTime := time.Now()] *)
  time_Since         : Z    (* [time.Since(xmitTime)] once the reply is in *)
}.

(** The symmetric-key authentication subsystem.  Its three functions and
    the [AuthOptions] type are declared outside [ntp.go]; the exchange is
    parametric in them. *)
Class AuthSubsystem : Type := {
  AuthOptions   : Type;
  AuthKey       : Type;
  decodeAuthKey : AuthOptions -> result AuthKey;
  appendMAC     : list byte -> AuthOptions -> AuthKey -> list byte;
  verifyMAC     : list byte -> AuthOptions -> AuthKey -> option error
}.

(** [net.JoinHostPort(host, port)] *)
Definition net_JoinHostPort (host port : string) : string :=
  if 0 <=? strings.IndexByte host ":"%char
  then ("[" ++ host ++ "]:" ++ port)%string
  else (host ++ ":" ++ port)%string.

(** [func defaultDialer(localAddress, remoteAddress string) (net.Conn, error)] *)
Definition defaultDialer (w : World) (localAddress remoteAddress : string)
  : result Conn :=
  (laddr <- (if String.eqb localAddress ""%string then inr None
             else a <- net_ResolveUDPAddr w (net_JoinHostPort localAddress "0"%string) ;;
                  inr (Some a)) ;;
   raddr <- net_ResolveUDPAddr w remoteAddress ;;
   net_DialUDP w laddr raddr)%go.

(** [func dialWrapper(la, ra string, dial func(...)) (net.Conn, error)] *)
Definition dialWrapper (w : World) (la ra : string)
    (dial : string -> Z -> string -> Z -> result Conn) : result Conn :=
  (hp <- net_SplitHostPort w ra ;;
   rportValue <- strconv_Atoi w (snd hp) ;;
   dial la 0 (fst hp) rportValue)%go.

(* ================================================================== *)
(** ** The response record and its validation *)
(* ================================================================== *)

Module Resp.

Record Response : Type := mk {
  ClockOffset    : Z;       (* time.Duration *)
  Time           : Z;       (* time.Time *)
  RTT            : Z;       (* time.Duration *)
  Precision      : Z;       (* time.Duration *)
  Version        : Z;       (* int *)
  Stratum        : Z;       (* uint8 *)
  ReferenceID    : Z;       (* uint32 *)
  ReferenceTime  : Z;       (* time.Time *)
  RootDelay      : Z;       (* time.Duration *)
  RootDispersion : Z;       (* time.Duration *)
  RootDistance   : Z;       (* time.Duration *)
  Leap           : Z;       (* LeapIndicator *)
  MinError       : Z;       (* time.Duration *)
  KissCode       : string;
  Poll           : Z;       (* time.Duration *)
  authErr        : option error
}.

(** [func (r *Response) IsKissOfDeath() bool] *)
Definition IsKissOfDeath (r : Response) : bool := Stratum r =? 0.

(** [func (r *Response) Validate() error] *)
Definition Validate (r : Response) : option error :=
  match authErr r with
  | Some e => Some e
  | None =>
      if Stratum r =? 0 then Some ErrKissOfDeath
      else if maxStratum <=? Stratum r then Some ErrInvalidStratum
      else
        let freshness := time.Sub (Time r) (ReferenceTime r) in
        if maxPollInterval <? freshness then Some ErrServerClockFreshness
        else
          let lambda := s64 (Z.quot (RootDelay r) 2 + RootDispersion r) in
          if maxDispersion <? lambda then Some ErrInvalidDispersion
          else if time.Before (Time r) (ReferenceTime r)
          then Some ErrInvalidTime
          else if Leap r =? LeapNotInSync then Some ErrInvalidLeapSecond
          else None
  end.

End Resp.
Abbreviation Response := Resp.Response.

(** [func generateResponse(h, recvTime, authErr)], for a non-nil header
    pointer [h]. *)
Definition generateResponse (h : header) (recvTime : Z)
    (authErr : option error) : Response :=
  let RTT := rtt (Header.OriginTime h) (Header.ReceiveTime h)
                 (Header.TransmitTime h) recvTime in
  let RootDelay := ntpTimeShort.Duration (Header.RootDelay h) in
  let RootDispersion := ntpTimeShort.Duration (Header.RootDispersion h) in
  Resp.mk
    (offset (Header.OriginTime h) (Header.ReceiveTime h)
            (Header.TransmitTime h) recvTime)
    (ntpTime.Time (Header.TransmitTime h))
    RTT
    (toInterval (Header.Precision h))
    (Header.getVersion h)
    (Header.Stratum h)
    (Header.ReferenceID h)
    (ntpTime.Time (Header.ReferenceTime h))
    RootDelay
    RootDispersion
    (rootDistance RTT RootDelay RootDispersion)
    (Header.getLeap h)
    (minError (Header.OriginTime h) (Header.ReceiveTime h)
              (Header.TransmitTime h) recvTime)
    (if Header.Stratum h =? 0 then kissCode (Header.ReferenceID h)
     else EmptyString)
    (toInterval (Header.Poll h))
    authErr.

(* ================================================================== *)
(** ** The exchange *)
(* ================================================================== *)

(** What a call hands back: Go's pair of a possibly-nil pointer and a
    possibly-nil error, or a run-time panic. *)
Inductive outcome (A : Type) : Type :=
| Returned (v : option A) (err : option error)
| Panicked.
Arguments Returned {A} v err.
Arguments Panicked {A}.

Section Exchange.

Context `{Auth_ : AuthSubsystem}.

(** [type QueryOptions struct] *)
Record QueryOptions : Type := {
  Timeout      : Z;
  Version      : Z;
  LocalAddress : string;
  TTL          : Z;
  Auth         : AuthOptions;
  Extensions   : list Extension;
  Dialer       : option (string -> string -> result Conn);
  Dial         : option (string -> Z -> string -> Z -> result Conn);
  Port         : Z
}.

(** [for _, e := range opt.Extensions { err = e.ProcessQuery(&xmitBuf) ... }] *)
Fixpoint processQueries (es : list Extension) (xmitBuf : list byte)
  : result (list byte) :=
  match es with
  | [] => inr xmitBuf
  | e :: es' =>
      (xmitBuf' <- ProcessQuery e xmitBuf ;; processQueries es' xmitBuf')%go
  end.

(** [for i := len(opt.Extensions) - 1; i >= 0; i-- { ... ProcessResponse(recvBuf) ... }],
    given the extensions last-first. *)
Fixpoint processResponses (es : list Extension) (recvBuf : list byte)
  : result unit :=
  match es with
  | [] => inr tt
  | e :: es' =>
      (check (ProcessResponse e recvBuf) ;;; processResponses es' recvBuf)%go
  end.

(** [func getTime(address, opt)], returning Go's triple of header pointer,
    receive timestamp and error.
    The deadline set on the connection shows only through what [Read]
    delivers, so the timeout default is not tracked. *)
Definition getTime (w : World) (address : string) (opt : QueryOptions)
  : option header * Z * option error :=
  let Version_ := if Version opt =? 0 then defaultNtpVersion else Version opt in
  let run : result (header * Z * option error) :=
    (if (Version_ <? 2) || (4 <? Version_) then inl ErrInvalidProtocolVersion
     else
       let Port_ := if Port opt =? 0 then defaultNtpPort else Port opt in
       let Dialer_ :=
         match Dial opt with
         | Some dial => fun la ra => dialWrapper w la ra dial
         | None =>
             match Dialer opt with
             | Some d => d
             | None => defaultDialer w
             end
         end in
       remoteAddress <- fixHostPort address Port_ ;;
       con <- Dialer_ (LocalAddress opt) remoteAddress ;;
       (if TTL opt =? 0 then inr tt else check (SetTTL con (TTL opt))) ;;;
       let xmitHdr := Header.new in
       let xmitHdr := Header.setMode xmitHdr client in
       let xmitHdr := Header.setVersion xmitHdr Version_ in
       let xmitHdr := Header.setLeap xmitHdr LeapNoWarning in
       let xmitHdr := Header.with_Precision xmitHdr 0x20 in
       bits <- rand_Read w 8 ;;
       let xmitHdr :=
         Header.with_TransmitTime xmitHdr (binary.BigEndian_Uint64 bits) in
       let xmitBuf := binary.Write xmitHdr in
       xmitBuf <- processQueries (Extensions opt) xmitBuf ;;
       authKey <- decodeAuthKey (Auth opt) ;;
       let xmitBuf := appendMAC xmitBuf (Auth opt) authKey in
       let xmitTime := time_Now w in
       check (Write con xmitBuf) ;;;
       recvBuf <- Read con ;;
       let recvBuf := firstn (Z.to_nat 8192) recvBuf in
       let delta := time_Since w in
       let delta := if delta <? 0 then 0 else delta in
       let recvTime := time.Add xmitTime delta in
       recvHdr <- binary.Read recvBuf ;;
       processResponses (rev (Extensions opt)) recvBuf ;;;
       if negb (Header.getMode recvHdr =? server) then inl ErrInvalidMode
       else if Header.TransmitTime recvHdr =? 0
       then inl ErrInvalidTransmitTime
       else if negb (Header.OriginTime recvHdr =? Header.TransmitTime xmitHdr)
       then inl ErrServerResponseMismatch
       else if Header.TransmitTime recvHdr <? Header.ReceiveTime recvHdr
       then inl ErrServerTickedBackwards
       else
         let recvHdr := Header.with_OriginTime recvHdr (toNtpTime xmitTime) in
         let authErr := verifyMAC recvBuf (Auth opt) authKey in
         inr (recvHdr, toNtpTime recvTime, authErr))%go in
  match run with
  | inl err => (None, 0, Some err)
  | inr (h, now, authErr) => (Some h, now, authErr)
  end.

(** [func QueryWithOptions(address, opt)].
    [generateResponse] dereferences the header it is given. *)
Definition QueryWithOptions (w : World) (address : string)
    (opt : QueryOptions) : outcome Response :=
  match getTime w address opt with
  | (h, now, err) =>
      let passed :=
        match err with
        | Some e => error_eqb e ErrAuthFailed
        | None => true
        end in
      if negb passed then Returned None err
      else
        match h with
        | Some h => Returned (Some (generateResponse h now err)) None
        | None => Panicked
        end
  end.

End Exchange.

(* ================================================================== *)
(** ** Vocabulary of the specification *)
(* ================================================================== *)

(** The difference of two timestamps, taken modulo 2^64 and read as a
    signed 64-bit number. *)
Definition sdiff64 (x y : Z) : Z := s64 (u64 (x - y)).

(** A non-negative Q32.32 number of seconds in nanoseconds, rounded to the
    nearest nanosecond, a tie going up. *)
Definition round_ns (m : Z) : Z := (m * nanoPerSec + 2 ^ 31) / 2 ^ 32.

(** A number of nanoseconds below one second as a 32-bit binary fraction,
    rounded to nearest, a tie going up. *)
Definition round_frac (ns : Z) : Z :=
  (2 * ns * 2 ^ 32 + nanoPerSec) / (2 * nanoPerSec).

(** [x] lies within [tol] of [y]. *)
Definition within (tol x y : Z) : Prop := Z.abs (x - y) <= tol.

(** The first rule of an ordered rule list whose condition holds. *)
Fixpoint first_error (rules : list (bool * error)) : option error :=
  match rules with
  | [] => None
  | (c, e) :: rest => if c then Some e else first_error rest
  end.

(** The validator's rules after the authentication check, in the order the
    specification lists them, each condition read on the response's fields:
    the exact difference of the two instants, the duration sum as Go's
    [int64] arithmetic yields it. *)
Definition validate_rules (r : Response) : list (bool * error) :=
  [ (Resp.Stratum r =? 0, ErrKissOfDeath);
    (16 <=? Resp.Stratum r, ErrInvalidStratum);
    (2 ^ 17 * Second <? Resp.Time r - Resp.ReferenceTime r,
      ErrServerClockFreshness);
    (16 * Second <? s64 (Z.quot (Resp.RootDelay r) 2 + Resp.RootDispersion r),
      ErrInvalidDispersion);
    (Resp.Time r <? Resp.ReferenceTime r, ErrInvalidTime);
    (Resp.Leap r =? 3, ErrInvalidLeapSecond) ].

(** The structural rules applied to a decoded reply, in the order the
    specification lists them; [sent] is the transmit timestamp of the
    query. *)
Definition structural_rules (sent : Z) (reply : header) : list (bool * error) :=
  [ (negb (Header.getMode reply =? 4), ErrInvalidMode);
    (Header.TransmitTime reply =? 0, ErrInvalidTransmitTime);
    (negb (Header.OriginTime reply =? sent), ErrServerResponseMismatch);
    (Header.TransmitTime reply <? Header.ReceiveTime reply,
      ErrServerTickedBackwards) ].

Section ExchangeVocabulary.

Context `{Auth_ : AuthSubsystem}.

(** The protocol version, port and dialer an exchange works with once
    the defaults are filled in. *)
Definition version_of (opt : QueryOptions) : Z :=
  if Version opt =? 0 then defaultNtpVersion else Version opt.

Definition port_of (opt : QueryOptions) : Z :=
  if Port opt =? 0 then defaultNtpPort else Port opt.

Definition dialer_of (w : World) (opt : QueryOptions)
  : string -> string -> result Conn :=
  match Dial opt with
  | Some dial => fun la ra => dialWrapper w la ra dial
  | None =>
      match Dialer opt with
      | Some d => d
      | None => defaultDialer w
      end
  end.

(** The header of a query: client mode, the version asked for, no leap
    warning, the fixed precision value, and the random transmit
    timestamp [sent]. *)
Definition query_header (version sent : Z) : header :=
  Header.with_TransmitTime
    (Header.with_Precision
       (Header.setLeap
          (Header.setVersion (Header.setMode Header.new client) version)
          LeapNoWarning)
       0x20)
    sent.

(** The instant the reply is taken to have arrived. *)
Definition recvTime_of (w : World) : Z :=
  time.Add (time_Now w) (if time_Since w <? 0 then 0 else time_Since w).

(** Every step of the exchange up to and including the read succeeded:
    the query carried the random transmit timestamp [sent], the key
    decoded to [key], and the datagram [recvBuf] came back. *)
Definition reply_received (w : World) (address : string)
    (opt : QueryOptions) (sent : Z) (key : AuthKey)
    (recvBuf : list byte) : Prop :=
  2 <= version_of opt <= 4 /\
  exists remoteAddress con bits xmitBuf raw,
    fixHostPort address (port_of opt) = inr remoteAddress /\
    dialer_of w opt (LocalAddress opt) remoteAddress = inr con /\
    (TTL opt = 0 \/ SetTTL con (TTL opt) = None) /\
    rand_Read w 8 = inr bits /\
    sent = binary.BigEndian_Uint64 bits /\
    processQueries (Extensions opt)
      (binary.Write (query_header (version_of opt) sent)) = inr xmitBuf /\
    decodeAuthKey (Auth opt) = inr key /\
    Write con (appendMAC xmitBuf (Auth opt) key) = None /\
    Read con = inr raw /\
    recvBuf = firstn (Z.to_nat 8192) raw.

(** Moreover the reply decoded to the header [reply] and every
    extension accepted it. *)
Definition reply_decoded (w : World) (address : string)
    (opt : QueryOptions) (sent : Z) (key : AuthKey)
    (recvBuf : list byte) (reply : header) : Prop :=
  reply_received w address opt sent key recvBuf /\
  binary.Read recvBuf = inr reply /\
  processResponses (rev (Extensions opt)) recvBuf = inr tt.

(** What [getTime] comes to once the datagram [recvBuf] is in: decoding,
    the extensions' response hooks, the structural rules, the origin
    rewrite and the MAC verification. *)
Definition after_read (w : World) (opt : QueryOptions) (sent : Z)
    (key : AuthKey) (recvBuf : list byte)
  : result (header * Z * option error) :=
  (recvHdr <- binary.Read recvBuf ;;
   processResponses (rev (Extensions opt)) recvBuf ;;;
   match first_error (structural_rules sent recvHdr) with
   | Some e => inl e
   | None =>
       inr (Header.with_OriginTime recvHdr (toNtpTime (time_Now w)),
            toNtpTime (recvTime_of w),
            verifyMAC recvBuf (Auth opt) key)
   end)%go.

End ExchangeVocabulary.

(* ================================================================== *)
(** ** Exhaustive checks over the packed byte *)
(* ================================================================== *)

(** [f] holds of 0, 1, ..., [n-1]. *)
Definition all_below (n : nat) (f : Z -> bool) : bool :=
  forallb f (map Z.of_nat (seq 0 n)).

(** The byte [x] is its three fields laid side by side: two bits of leap
    indicator, three of version, three of mode. *)
Definition layout_ok (x : Z) : bool :=
  let h := Header.with_LiVnMode Header.new x in
  (x =? Header.getLeap h * 64 + Header.getVersion h * 8 + Header.getMode h)
  && (Header.getLeap h <? 4) && (Header.getVersion h <? 8)
  && (Header.getMode h <? 8).

(** On the byte [x], the setter [set] stores [v] in its own field, keeps
    the two other fields, and leaves a byte. *)
Definition setter_ok (set : header -> Z -> header)
    (own other1 other2 : header -> Z) (x v : Z) : bool :=
  let h := Header.with_LiVnMode Header.new x in
  (own (set h v) =? v)
  && (other1 (set h v) =? other1 h)
  && (other2 (set h v) =? other2 h)
  && (0 <=? Header.LiVnMode (set h v)) && (Header.LiVnMode (set h v) <? 256).

(* ================================================================== *)
(** ** A sample exchange *)
(* ================================================================== *)

Module Sample.

(** An authentication subsystem whose verification rejects every
    reply. *)
Definition rejecting : AuthSubsystem := {|
  AuthOptions   := unit;
  AuthKey       := unit;
  decodeAuthKey := fun _ => inr tt;
  appendMAC     := fun buf _ _ => buf;
  verifyMAC     := fun _ _ _ => Some ErrAuthFailed
|}.

Definition bits : list byte := [x01; x23; x45; x67; x89; xab; xcd; xef].

Definition sent : Z := 0x0123456789abcdef.

(** A stratum-2 server reply to the query stamped [sent]. *)
Definition reply_header : header :=
  Header.mk 0x24 2 6 (-20) 0x00008000 0x00004000 0xc0a80001
    0xe93a10a000000000 sent 0xe93a10b080000000 0xe93a10b080001000.

(** The same reply with an origin timestamp that is not the one sent. *)
Definition mismatched_header : header :=
  Header.with_OriginTime reply_header (sent + 1).

Definition conn (datagram : list byte) : Conn := {|
  SetTTL := fun _ => None;
  Write  := fun _ => None;
  Read   := inr datagram
|}.

Definition world (datagram : list byte) : World := {|
  net_ResolveUDPAddr := fun a => inr a;
  net_DialUDP        := fun _ _ => inr (conn datagram);
  net_SplitHostPort  := fun a => inr (a, "123"%string);
  strconv_Atoi       := fun _ => inr 123;
  rand_Read          := fun _ => inr bits;
  time_Now           := time.Date 2024 1 1 0 0 0 0;
  time_Since         := 20000000
|}.

Definition options : @QueryOptions rejecting := {|
  Timeout      := 0;
  Version      := 0;
  LocalAddress := ""%string;
  TTL          := 0;
  Auth         := (tt : @AuthOptions rejecting);
  Extensions   := [];
  Dialer       := None;
  Dial         := None;
  Port         := 0
|}.

(** An extension whose query hook fails with the package's own
    authentication error. *)
Definition failing_extension : Extension := {|
  ProcessQuery    := fun _ => inl ErrAuthFailed;
  ProcessResponse := fun _ => None
|}.

Definition options_failing : @QueryOptions rejecting := {|
  Timeout      := 0;
  Version      := 0;
  LocalAddress := ""%string;
  TTL          := 0;
  Auth         := (tt : @AuthOptions rejecting);
  Extensions   := [failing_extension];
  Dialer       := None;
  Dial         := None;
  Port         := 0
|}.

Definition address : string := "time.example.org"%string.

(** A response that passes every check with its dispersion bound exactly
    at the 16-second limit. *)
Definition boundary_response : Response :=
  Resp.mk 0 1000 0 0 4 2 0 0 (8 * Second) (12 * Second) 0 0 0
          EmptyString 0 None.

End Sample.


(* ================================================================== *)
(** ** The rest of the public surface *)
(* ================================================================== *)

Module Reference.

(** [string([]rune{0x22c5})]: the UTF-8 bytes of the dot operator. *)
Definition dot : string :=
  String (ascii_of_N 0xE2) (String (ascii_of_N 0x8B)
    (String (ascii_of_N 0x85) EmptyString)).

(** [binary.BigEndian.PutUint32(b[:], id)] *)
Definition PutUint32 (id : Z) : list Z :=
  [ u8 (Z.shiftr id 24); u8 (Z.shiftr id 16); u8 (Z.shiftr id 8); u8 id ].

(** The loop of [ReferenceString] for a stratum-1 server: the bytes up to
    the first zero, a printable one as itself, any other as the dot. *)
Fixpoint clockName (b : list Z) : string :=
  match b with
  | [] => EmptyString
  | ch :: rest =>
      if ch =? 0 then EmptyString
      else String.append
             (if (32 <=? ch) && (ch <=? 126)
              then String (ascii_of_N (Z.to_N ch)) EmptyString
              else dot)
             (clockName rest)
  end.

(** [func (r *Response) ReferenceString() string] *)
Definition ReferenceString (r : Response) : string :=
  if Resp.Stratum r =? 0 then kissCode (Resp.ReferenceID r)
  else
    let b := PutUint32 (Resp.ReferenceID r) in
    if Resp.Stratum r =? 1
    then ("." ++ clockName b ++ ".")%string
    else (strings.itoa (nth 0 b 0) ++ "." ++ strings.itoa (nth 1 b 0) ++ "."
          ++ strings.itoa (nth 2 b 0) ++ "." ++ strings.itoa (nth 3 b 0))%string.

End Reference.

Section TopLevel.

Context `{Auth_ : AuthSubsystem}.

(** The zero value of [AuthOptions], which [QueryOptions{}] carries. *)
Variable noAuth : AuthOptions.

(** [QueryOptions{}] *)
Definition zeroOptions : QueryOptions := {|
  Timeout      := 0;
  Version      := 0;
  LocalAddress := EmptyString;
  TTL          := 0;
  Auth         := noAuth;
  Extensions   := [];
  Dialer       := None;
  Dial         := None;
  Port         := 0
|}.

(** [func Query(address string)] *)
Definition Query (w : World) (address : string) : outcome Response :=
  QueryWithOptions w address zeroOptions.

(** [func Time(address string) (time.Time, error)]; [now] is what
    [time.Now()] reads when the function returns. *)
Definition Time (w : World) (now : Z) (address : string) : outcome Z :=
  match Query w address with
  | Panicked => Panicked
  | Returned _ (Some err) => Returned (Some now) (Some err)
  | Returned None None => Panicked
  | Returned (Some r) None =>
      match Resp.Validate r with
      | Some err => Returned (Some now) (Some err)
      | None => Returned (Some (time.Add now (Resp.ClockOffset r))) None
      end
  end.

End TopLevel.

(* ================================================================== *)
(** ** Further vocabulary *)
(* ================================================================== *)

(** How many times the character [c] occurs in [s]. *)
Fixpoint count_byte (c : ascii) (s : string) : nat :=
  match s with
  | EmptyString => O
  | String a s' => (if Ascii.eqb a c then 1 else 0) + count_byte c s'
  end.

(** What [toInterval] yields on the signed byte [t]: [2^t] seconds while
    that fits a duration, the truncated fraction of a second for a
    negative exponent, the wrapped 64-bit product between, nothing once
    every bit is shifted out. *)
Definition interval_value (t : Z) : Z :=
  if t <? 0 then Second / 2 ^ (- t)
  else if t <=? 33 then Second * 2 ^ t
  else if t <=? 63 then s64 (Second * 2 ^ t)
  else 0.

(** [toInterval] agrees with [interval_value] at the signed byte
    [x - 128]. *)
Definition interval_ok (x : Z) : bool :=
  toInterval (x - 128) =? interval_value (x - 128).

(** On the byte [x], storing mode, version and leap indicator one after
    the other leaves exactly these three values in the byte. *)
Definition packing_ok (md v li x : Z) : bool :=
  let h := Header.with_LiVnMode Header.new x in
  let h' := Header.setLeap (Header.setVersion (Header.setMode h md) v) li in
  (Header.LiVnMode h' =? li * 64 + v * 8 + md)
  && (Header.getMode h' =? md) && (Header.getVersion h' =? v)
  && (Header.getLeap h' =? li).

Module SampleHooks.

(** An extension that appends one byte to the query and accepts every
    response. *)
Definition tagging : Extension := {|
  ProcessQuery    := fun buf => inr (buf ++ [xff]);
  ProcessResponse := fun _ => None
|}.

(** An extension that leaves the query alone and refuses every response. *)
Definition refusing : Extension := {|
  ProcessQuery    := fun buf => inr buf;
  ProcessResponse := fun _ => Some (ExternalError "refused"%string)
|}.

Definition options : @QueryOptions Sample.rejecting := {|
  Timeout      := 0;
  Version      := 3;
  LocalAddress := EmptyString;
  TTL          := 0;
  Auth         := (tt : @AuthOptions Sample.rejecting);
  Extensions   := [refusing; tagging];
  Dialer       := None;
  Dial         := None;
  Port         := 0
|}.

End SampleHooks.

(** The sample options asking for protocol version [v]. *)
Definition sample_options_version (v : Z) : @QueryOptions Sample.rejecting := {|
  Timeout      := 0;
  Version      := v;
  LocalAddress := EmptyString;
  TTL          := 0;
  Auth         := (tt : @AuthOptions Sample.rejecting);
  Extensions   := [];
  Dialer       := None;
  Dial         := None;
  Port         := 0
|}.

(** A stratum-1 response naming its reference clock, and a stratum-2
    response naming its upstream server. *)
Definition sample_reference (stratum id : Z) : Response :=
  Resp.mk 0 0 0 0 4 stratum id 0 0 0 0 0 0 EmptyString 0 None.

(* ================================================================== *)
(** * Verified properties *)
(* ================================================================== *)

(** ** Machine integers *)

Module IntFacts.

Lemma u64_range z : 0 <= u64 z < 2 ^ 64.
Proof. unfold u64, wrap. apply Z.mod_pos_bound. lia. Qed.

Lemma s64_range z : - 2 ^ 63 <= s64 z < 2 ^ 63.
Proof.
  unfold s64, swrap. change (64 - 1) with 63.
  pose proof (Z.mod_pos_bound (z + 2 ^ 63) (2 ^ 64)). lia.
Qed.

Lemma u64_small z : 0 <= z < 2 ^ 64 -> u64 z = z.
Proof. intros. unfold u64, wrap. now apply Z.mod_small. Qed.

Lemma s64_small z : - 2 ^ 63 <= z < 2 ^ 63 -> s64 z = z.
Proof.
  intros. unfold s64, swrap. change (64 - 1) with 63.
  rewrite Z.mod_small; lia.
Qed.

(** Reading 64 bits as signed does not care how they were reduced. *)
Lemma s64_u64 z : s64 (u64 z) = s64 z.
Proof.
  unfold s64, u64, swrap, wrap. change (64 - 1) with 63.
  rewrite Zplus_mod_idemp_l. reflexivity.
Qed.

Lemma u64_s64 z : u64 (s64 z) = u64 z.
Proof.
  unfold s64, u64, swrap, wrap. change (64 - 1) with 63.
  rewrite Zminus_mod_idemp_l. f_equal. lia.
Qed.

(** Negating inside [int64] and reading the bits as unsigned gives the
    magnitude of a negative number, the most negative one included. *)
Lemma u64_neg_s64 z : - 2 ^ 63 <= z < 0 -> u64 (s64 (- z)) = - z.
Proof.
  intros. rewrite u64_s64. unfold u64, wrap.
  rewrite Z.mod_small; lia.
Qed.

(** Placing a 32-bit value under a multiple of 2^32 with [|] adds them. *)
Lemma lor_high_low hi lo :
  0 <= lo < 2 ^ 32 -> Z.lor (hi * 2 ^ 32) lo = hi * 2 ^ 32 + lo.
Proof.
  intros Hlo.
  assert (Hdisj : Z.land (Z.shiftl hi 32) (Z.land lo (Z.ones 32)) = 0).
  { apply Z.bits_inj'. intros n Hn.
    rewrite !Z.land_spec, Z.bits_0.
    destruct (Z.ltb_spec n 32).
    - rewrite Z.shiftl_spec_low by lia. reflexivity.
    - rewrite Z.ones_spec_high by lia. now rewrite !andb_false_r. }
  rewrite <- Z.shiftl_mul_pow2 by lia.
  rewrite <- (Z.mod_small lo (2 ^ 32)) by lia.
  rewrite <- Z.land_ones by lia.
  symmetry. rewrite <- Z.lxor_lor by exact Hdisj.
  apply Z.add_nocarry_lxor. exact Hdisj.
Qed.

End IntFacts.
Import IntFacts.

(** ** The fixed-point codec *)

Lemma round_ns_bounds m :
  0 <= m < 2 ^ 64 -> 0 <= round_ns m <= 2 ^ 32 * nanoPerSec.
Proof.
  intros. unfold round_ns, nanoPerSec. split.
  - apply Z.div_pos; lia.
  - enough ((m * 1000000000 + 2 ^ 31) / 2 ^ 32 < 2 ^ 32 * 1000000000 + 1)
      by lia.
    apply Z.div_lt_upper_bound; lia.
Qed.

(** [Duration] never overflows: it is the timestamp scaled to nanoseconds
    and rounded to nearest, a tie going up. *)
Lemma Duration_round t : 0 <= t < 2 ^ 64 -> ntpTime.Duration t = round_ns t.
Proof.
  intros Ht. unfold ntpTime.Duration, round_ns.
  change 0xffffffff with (Z.ones 32).
  rewrite Z.land_ones, Z.shiftr_div_pow2 by lia.
  set (hi := t / 2 ^ 32). set (lo := t mod 2 ^ 32).
  assert (Hhi : 0 <= hi < 2 ^ 32)
    by (subst hi; split; [apply Z.div_pos|apply Z.div_lt_upper_bound]; lia).
  assert (Hlo : 0 <= lo < 2 ^ 32) by (subst lo; apply Z.mod_pos_bound; lia).
  assert (Et : t = 2 ^ 32 * hi + lo) by (subst hi lo; apply Z.div_mod; lia).
  unfold nanoPerSec in *.
  rewrite (u64_small (hi * _)) by lia.
  rewrite (u64_small (lo * _)) by lia.
  rewrite Z.shiftr_div_pow2 by lia.
  unfold u32, wrap.
  set (f := lo * 1000000000).
  assert (Hf : 0 <= f < 2 ^ 32 * 1000000000) by (subst f; lia).
  assert (Hq : 0 <= f / 2 ^ 32 < 1000000000)
    by (split; [apply Z.div_pos|apply Z.div_lt_upper_bound]; lia).
  assert (Egoal : (t * 1000000000 + 2 ^ 31) / 2 ^ 32
                  = hi * 1000000000
                    + (f / 2 ^ 32
                       + (if 0x80000000 <=? f mod 2 ^ 32 then 1 else 0))).
  { rewrite Et. fold f.
    destruct (Z.leb_spec 0x80000000 (f mod 2 ^ 32));
      Z.to_euclidean_division_equations; lia. }
  rewrite Egoal.
  destruct (0x80000000 <=? f mod 2 ^ 32).
  - rewrite (u64_small (f / 2 ^ 32 + 1)) by lia.
    rewrite u64_small by lia. rewrite s64_small by lia. lia.
  - rewrite u64_small by lia. rewrite s64_small by lia. lia.
Qed.

(** The 32-bit format rounds the same way on its 16-bit fraction. *)
Lemma ShortDuration_round t :
  is_u32 t -> ntpTimeShort.Duration t = (t * nanoPerSec + 2 ^ 15) / 2 ^ 16.
Proof.
  unfold is_u32. intros Ht. unfold ntpTimeShort.Duration.
  change 0xffff with (Z.ones 16).
  rewrite Z.land_ones, Z.shiftr_div_pow2 by lia.
  set (hi := t / 2 ^ 16). set (lo := t mod 2 ^ 16).
  assert (Hhi : 0 <= hi < 2 ^ 16)
    by (subst hi; split; [apply Z.div_pos|apply Z.div_lt_upper_bound]; lia).
  assert (Hlo : 0 <= lo < 2 ^ 16) by (subst lo; apply Z.mod_pos_bound; lia).
  assert (Et : t = 2 ^ 16 * hi + lo) by (subst hi lo; apply Z.div_mod; lia).
  unfold nanoPerSec in *.
  rewrite (u64_small (hi * _)) by lia.
  rewrite (u64_small (lo * _)) by lia.
  rewrite Z.shiftr_div_pow2 by lia.
  unfold u16, wrap.
  set (f := lo * 1000000000).
  assert (Hf : 0 <= f < 2 ^ 16 * 1000000000) by (subst f; lia).
  assert (Hq : 0 <= f / 2 ^ 16 < 1000000000)
    by (split; [apply Z.div_pos|apply Z.div_lt_upper_bound]; lia).
  assert (Egoal : (t * 1000000000 + 2 ^ 15) / 2 ^ 16
                  = hi * 1000000000
                    + (f / 2 ^ 16 + (if 0x8000 <=? f mod 2 ^ 16 then 1 else 0))).
  { rewrite Et. fold f.
    destruct (Z.leb_spec 0x8000 (f mod 2 ^ 16));
      Z.to_euclidean_division_equations; lia. }
  rewrite Egoal.
  destruct (0x8000 <=? f mod 2 ^ 16).
  - rewrite (u64_small (f / 2 ^ 16 + 1)) by lia.
    rewrite u64_small by lia. rewrite s64_small by lia. lia.
  - rewrite u64_small by lia. rewrite s64_small by lia. lia.
Qed.

Lemma ShortDuration_bounds t :
  is_u32 t -> 0 <= ntpTimeShort.Duration t <= 2 ^ 16 * nanoPerSec.
Proof.
  intros Ht. rewrite ShortDuration_round by exact Ht.
  unfold is_u32, nanoPerSec in *. split.
  - apply Z.div_pos; lia.
  - enough ((t * 1000000000 + 2 ^ 15) / 2 ^ 16 < 2 ^ 16 * 1000000000 + 1)
      by lia.
    apply Z.div_lt_upper_bound; lia.
Qed.

Lemma ntpEra0_value : ntpEra0 = - 2208988800 * nanoPerSec.
Proof. reflexivity. Qed.

Lemma ntpEra1_value : ntpEra1 = ntpEra0 + 2 ^ 32 * nanoPerSec.
Proof. reflexivity. Qed.

Lemma round_frac_bounds ns :
  0 <= ns < nanoPerSec -> 0 <= round_frac ns < 2 ^ 32.
Proof.
  unfold round_frac, nanoPerSec. intros. split.
  - apply Z.div_pos; lia.
  - apply Z.div_lt_upper_bound; lia.
Qed.

(** A binary fraction obtained by rounding a nanosecond count rounds back
    to that count: the fraction's grain (2^-32 s) is finer than a
    nanosecond. *)
Lemma round_ns_round_frac s ns :
  0 <= s -> 0 <= ns < nanoPerSec ->
  round_ns (s * 2 ^ 32 + round_frac ns) = s * nanoPerSec + ns.
Proof.
  unfold round_ns, round_frac, nanoPerSec. intros Hs Hns.
  Z.to_euclidean_division_equations. lia.
Qed.

(** [toNtpTime] on an instant at most 2^63 ns after 1900: whole seconds
    modulo 2^32 in the upper half, the rounded fraction in the lower. *)
Lemma toNtpTime_closed t :
  0 <= t - ntpEra0 < 2 ^ 63 ->
  toNtpTime t = ((t - ntpEra0) / nanoPerSec) mod 2 ^ 32 * 2 ^ 32
                + round_frac ((t - ntpEra0) mod nanoPerSec).
Proof.
  intros Hd. unfold toNtpTime.
  assert (Esub : time.Sub t ntpEra0 = t - ntpEra0).
  { unfold time.Sub, minDuration, maxDuration.
    destruct (Z.ltb_spec (t - ntpEra0) (- 2 ^ 63)); [lia|].
    destruct (Z.ltb_spec (2 ^ 63 - 1) (t - ntpEra0)); [lia|].
    reflexivity. }
  rewrite Esub. set (d := t - ntpEra0) in *.
  rewrite (u64_small d) by lia.
  unfold nanoPerSec in *.
  set (sec := d / 1000000000).
  assert (Hsec : 0 <= sec < 2 ^ 63)
    by (subst sec; split; [apply Z.div_pos|apply Z.div_lt_upper_bound]; lia).
  assert (Hrem : d - sec * 1000000000 = d mod 1000000000).
  { subst sec. rewrite Z.mod_eq by lia. lia. }
  pose proof (Z.mod_pos_bound d 1000000000 ltac:(lia)) as Hm.
  assert (Hmul : 0 <= sec * 1000000000 <= d) by lia.
  rewrite (u64_small (sec * 1000000000)) by lia.
  rewrite Hrem. set (ns := d mod 1000000000) in *.
  rewrite (u64_small ns) by lia.
  rewrite !Z.shiftl_mul_pow2 by lia.
  rewrite (u64_small (ns * 2 ^ 32)) by lia.
  assert (Efrac : (if 1000000000 / 2 <=? (ns * 2 ^ 32) mod 1000000000
                   then u64 (ns * 2 ^ 32 / 1000000000 + 1)
                   else ns * 2 ^ 32 / 1000000000) = round_frac ns).
  { pose proof (round_frac_bounds ns Hm) as Hb.
    unfold round_frac, nanoPerSec in *.
    change (1000000000 / 2) with 500000000.
    destruct (Z.leb_spec 500000000 ((ns * 2 ^ 32) mod 1000000000)).
    - assert (Eq : ns * 2 ^ 32 / 1000000000 + 1
                   = (2 * ns * 2 ^ 32 + 1000000000) / (2 * 1000000000))
        by (Z.to_euclidean_division_equations; lia).
      rewrite Eq. apply u64_small. lia.
    - Z.to_euclidean_division_equations; lia. }
  rewrite Efrac.
  assert (Ehi : u64 (sec * 2 ^ 32) = sec mod 2 ^ 32 * 2 ^ 32).
  { unfold u64, wrap. change (2 ^ 64) with (2 ^ 32 * 2 ^ 32).
    rewrite Z.mul_mod_distr_r by lia. reflexivity. }
  rewrite Ehi. apply lor_high_low. apply round_frac_bounds.
  unfold nanoPerSec. lia.
Qed.

(** ** Timestamp arithmetic *)

Lemma sdiff64_range x y : is_s64 (sdiff64 x y).
Proof. unfold is_s64, sdiff64. apply s64_range. Qed.

(** Two instants less than 2^63 apart subtract correctly from their wire
values, whatever eras they lie in. *)
Lemma sdiff64_across_eras X Y :
  is_s64 (X - Y) -> sdiff64 (u64 X) (u64 Y) = X - Y.
Proof.
  intros H. unfold sdiff64. rewrite s64_u64.
  rewrite <- (s64_small (X - Y)) by exact H.
  rewrite <- (s64_u64 (u64 X - u64 Y)), <- (s64_u64 (X - Y)).
  f_equal. unfold u64, wrap. symmetry. apply Zminus_mod.
Qed.

(** Halving a difference by truncation lands between the two ends. *)
Lemma quot2_between a b :
  (a <= b -> a <= a + Z.quot (b - a) 2 <= b) /\
  (b <= a -> b <= a + Z.quot (b - a) 2 <= a).
Proof. Z.to_euclidean_division_equations. lia. Qed.

(** C1.  For all four timestamps, [offset] is the midpoint formula
    (rec-org) + ((xmt-dst) - (rec-org)) / 2 evaluated in signed 64-bit
    arithmetic: the two timestamp differences [a] and [b] are taken modulo
    2^64 and read as signed, their difference and the final sum are
    [int64] operations, the division truncates.  The signed fixed-point
    result [o] is turned into a duration by rounding its magnitude to the
    nearest nanosecond and giving it the sign of [o]; the conversion never
    overflows.  Whenever [b - a] fits in 64 bits nothing wraps and [o] is
    the exact integer value of the formula.  The differences are right
    across an era boundary: instants [X] and [Y] less than 2^63 apart,
    counted from any era, subtract exactly from their 64-bit wire
    values. *)
Theorem offset_midpoint (org rec xmt dst : Z) :
  let a := sdiff64 rec org in
  let b := sdiff64 xmt dst in
  let o := s64 (a + Z.quot (s64 (b - a)) 2) in
  offset org rec xmt dst = Z.sgn o * round_ns (Z.abs o)
  /\ (is_s64 (b - a) -> o = a + Z.quot (b - a) 2)
  /\ (0 <= o -> 0 <= offset org rec xmt dst)
  /\ (o <= 0 -> offset org rec xmt dst <= 0)
  /\ is_s64 (offset org rec xmt dst)
  /\ (forall X Y, is_s64 (X - Y) -> sdiff64 (u64 X) (u64 Y) = X - Y).
Proof.
  intros a b o.
  assert (Ho : - 2 ^ 63 <= o < 2 ^ 63) by apply s64_range.
  assert (Hr : 0 <= round_ns (Z.abs o) <= 2 ^ 32 * nanoPerSec)
    by (apply round_ns_bounds; lia).
  assert (E : offset org rec xmt dst = Z.sgn o * round_ns (Z.abs o)).
  { unfold offset. fold (sdiff64 rec org) (sdiff64 xmt dst). fold a b o.
    destruct (Z.ltb_spec o 0) as [Eo|Eo].
    - rewrite u64_neg_s64 by lia.
      rewrite Duration_round by lia.
      rewrite (Z.abs_neq o) in * by lia.
      rewrite Z.sgn_neg by lia.
      unfold nanoPerSec in Hr. rewrite s64_small by lia. lia.
    - rewrite u64_small by lia.
      rewrite Duration_round by lia.
      rewrite (Z.abs_eq o) by lia.
      destruct (Z.eq_dec o 0) as [->|Hne]; [reflexivity|].
      rewrite Z.sgn_pos by lia. lia. }
  unfold nanoPerSec in Hr.
  split; [exact E|]. split; [|split; [|split; [|split]]].
  - intros Hba. subst o. rewrite (s64_small (b - a)) by exact Hba.
    apply s64_small.
    pose proof (sdiff64_range rec org) as Ha.
    pose proof (sdiff64_range xmt dst) as Hb.
    fold a in Ha. fold b in Hb. unfold is_s64 in *.
    pose proof (quot2_between a b). lia.
  - intros. rewrite E. apply Z.mul_nonneg_nonneg; [|lia].
    apply Z.sgn_nonneg; lia.
  - intros. rewrite E. apply Z.mul_nonpos_nonneg; [|lia].
    apply Z.sgn_nonpos; lia.
  - unfold is_s64. rewrite E. pose proof (Z.sgn_spec o). nia.
  - exact sdiff64_across_eras.
Qed.

Lemma offset_midpoint_witness :
  is_s64 (sdiff64 (100 * 2 ^ 32 + 2 ^ 31) (101 * 2 ^ 32)
          - sdiff64 (100 * 2 ^ 32 + 2 ^ 31) (100 * 2 ^ 32))
  /\ s64 (sdiff64 (100 * 2 ^ 32 + 2 ^ 31) (100 * 2 ^ 32)
          + Z.quot (s64 (sdiff64 (100 * 2 ^ 32 + 2 ^ 31) (101 * 2 ^ 32)
                         - sdiff64 (100 * 2 ^ 32 + 2 ^ 31) (100 * 2 ^ 32))) 2)
     = sdiff64 (100 * 2 ^ 32 + 2 ^ 31) (100 * 2 ^ 32)
       + Z.quot (sdiff64 (100 * 2 ^ 32 + 2 ^ 31) (101 * 2 ^ 32)
                 - sdiff64 (100 * 2 ^ 32 + 2 ^ 31) (100 * 2 ^ 32)) 2.
Proof.
  assert (H : is_s64 (sdiff64 (100 * 2 ^ 32 + 2 ^ 31) (101 * 2 ^ 32)
                      - sdiff64 (100 * 2 ^ 32 + 2 ^ 31) (100 * 2 ^ 32)))
    by (vm_compute; split; [discriminate|reflexivity]).
  split; [exact H|].
  exact (proj1 (proj2 (offset_midpoint (100 * 2 ^ 32) (100 * 2 ^ 32 + 2 ^ 31)
                         (100 * 2 ^ 32 + 2 ^ 31) (101 * 2 ^ 32))) H).
Defined.

(** C4, as the code has it.  For all four timestamps, [rtt] is
    max(0, d) turned into a duration, where d is (dst-org) - (xmt-rec)
    computed in signed 64-bit arithmetic (both timestamp differences and
    their difference reduced modulo 2^64 and read as signed).  The result
    is never negative and is exactly zero whenever d is negative.  When
    the exact difference fits in 64 bits, d is that difference, and then
    the result is exactly zero whenever (dst-org) < (xmt-rec). *)
Theorem rtt_clamped (org rec xmt dst : Z) :
  let a := sdiff64 dst org in
  let b := sdiff64 xmt rec in
  let d := s64 (a - b) in
  rtt org rec xmt dst = round_ns (Z.max 0 d)
  /\ 0 <= rtt org rec xmt dst
  /\ (d < 0 -> rtt org rec xmt dst = 0)
  /\ (is_s64 (a - b) -> d = a - b)
  /\ (is_s64 (a - b) -> a < b -> rtt org rec xmt dst = 0).
Proof.
  intros a b d.
  assert (Hd : - 2 ^ 63 <= d < 2 ^ 63) by apply s64_range.
  assert (E : rtt org rec xmt dst = round_ns (Z.max 0 d)).
  { unfold rtt. fold (sdiff64 dst org) (sdiff64 xmt rec). fold a b d.
    destruct (Z.ltb_spec d 0) as [Ed|Ed].
    - rewrite Z.max_l by lia. reflexivity.
    - rewrite Z.max_r by lia.
      rewrite u64_small by lia. apply Duration_round. lia. }
  assert (Z0 : forall x, x < 0 -> round_ns (Z.max 0 x) = 0).
  { intros x Hx. rewrite Z.max_l by lia. reflexivity. }
  split; [exact E|]. split; [|split; [|split]].
  - rewrite E. apply round_ns_bounds. lia.
  - intros. rewrite E. now apply Z0.
  - intros. subst d. now apply s64_small.
  - intros Hs Hab. rewrite E. apply Z0. subst d.
    rewrite s64_small by exact Hs. lia.
Qed.

Lemma rtt_clamped_witness :
  is_s64 (sdiff64 (2 ^ 32) 0 - sdiff64 (2 ^ 33) 0)
  /\ sdiff64 (2 ^ 32) 0 < sdiff64 (2 ^ 33) 0
  /\ rtt 0 0 (2 ^ 33) (2 ^ 32) = 0.
Proof.
  assert (H1 : is_s64 (sdiff64 (2 ^ 32) 0 - sdiff64 (2 ^ 33) 0))
    by (vm_compute; split; [discriminate|reflexivity]).
  assert (H2 : sdiff64 (2 ^ 32) 0 < sdiff64 (2 ^ 33) 0)
    by (vm_compute; reflexivity).
  split; [exact H1|]. split; [exact H2|].
  exact (proj2 (proj2 (proj2 (proj2 (rtt_clamped 0 0 (2 ^ 33) (2 ^ 32)))))
           H1 H2).
Defined.

(** C4 as stated fails: with org = 0, rec = 0, xmt = 2^62, dst = 2^63 the
    client-side difference reads as -2^63, below the server-side 2^62, yet
    their [int64] difference wraps to 2^62 and [rtt] returns 2^30
    seconds instead of zero. *)
Lemma rtt_not_zero_on_overflow :
  is_u64 0 /\ is_u64 (2 ^ 62) /\ is_u64 (2 ^ 63)
  /\ sdiff64 (2 ^ 63) 0 < sdiff64 (2 ^ 62) 0
  /\ rtt 0 0 (2 ^ 62) (2 ^ 63) = 2 ^ 30 * Second
  /\ ~ (sdiff64 (2 ^ 63) 0 < sdiff64 (2 ^ 62) 0 ->
        rtt 0 0 (2 ^ 62) (2 ^ 63) = 0).
Proof.
  assert (Hlt : sdiff64 (2 ^ 63) 0 < sdiff64 (2 ^ 62) 0)
    by (vm_compute; reflexivity).
  assert (Hv : rtt 0 0 (2 ^ 62) (2 ^ 63) = 2 ^ 30 * Second)
    by (vm_compute; reflexivity).
  repeat split; try (vm_compute; congruence); try exact Hlt; try exact Hv.
  intros H. specialize (H Hlt). rewrite Hv in H. vm_compute in H.
  discriminate H.
Qed.

(** C5, as the code has it.  With org = 100.0 s, rec = 100.5 s,
    xmt = 100.6 s and dst = 101.0 s in the Q32.32 scale, [offset] is
    0.05 s and [rtt] is 0.9 s (one second observed by the client less a
    tenth of a second spent in the server), both to the nanosecond. *)
Theorem offset_rtt_example :
  offset (100 * 2 ^ 32) (100 * 2 ^ 32 + round_frac 500000000)
         (100 * 2 ^ 32 + round_frac 600000000) (101 * 2 ^ 32) = 50000000
  /\ rtt (100 * 2 ^ 32) (100 * 2 ^ 32 + round_frac 500000000)
         (100 * 2 ^ 32 + round_frac 600000000) (101 * 2 ^ 32) = 900000000
  /\ within 1
       (offset (100 * 2 ^ 32) (100 * 2 ^ 32 + round_frac 500000000)
               (100 * 2 ^ 32 + round_frac 600000000) (101 * 2 ^ 32))
       (Second / 20)
  /\ within 1
       (rtt (100 * 2 ^ 32) (100 * 2 ^ 32 + round_frac 500000000)
            (100 * 2 ^ 32 + round_frac 600000000) (101 * 2 ^ 32))
       (9 * Second / 10).
Proof.
  repeat split; vm_compute; try reflexivity; discriminate.
Qed.

(** C5 as stated fails: on those inputs [rtt] is half a second away from
    0.4 s, so not within a millisecond of it. *)
Lemma offset_rtt_example_refuted :
  ~ (within 1000000
       (offset (100 * 2 ^ 32) (100 * 2 ^ 32 + round_frac 500000000)
               (100 * 2 ^ 32 + round_frac 600000000) (101 * 2 ^ 32))
       (Second / 20)
     /\ within 1000000
          (rtt (100 * 2 ^ 32) (100 * 2 ^ 32 + round_frac 500000000)
               (100 * 2 ^ 32 + round_frac 600000000) (101 * 2 ^ 32))
          (4 * Second / 10)).
Proof.
  intros [_ H]. revert H. unfold within. vm_compute.
  intros H. apply H. reflexivity.
Qed.

(** ** The era heuristic and the round trip *)

(** C2.  [Time] reads every raw value below the wire value of 1970-01-01,
    0x83aa7e8000000000, relative to the era that starts on
    2036-02-07 06:28:16 UTC, and every value at or above it relative to
    the era that starts on 1900-01-01 UTC; the boundary value decodes to
    1970-01-01 and the value just below it into the years after 2036. *)
Theorem Time_era_heuristic (t : Z) :
  is_u64 t ->
  (t < 0x83aa7e8000000000 ->
     ntpTime.Time t = ntpEra1 + round_ns t /\ ntpEra1 <= ntpTime.Time t)
  /\ (0x83aa7e8000000000 <= t ->
     ntpTime.Time t = ntpEra0 + round_ns t
     /\ time.Date 1970 1 1 0 0 0 0 <= ntpTime.Time t <= ntpEra1)
  /\ ntpEra0 = time.Date 1900 1 1 0 0 0 0
  /\ ntpEra1 = time.Date 2036 2 7 6 28 16 0
  /\ ntpTime.Time 0x83aa7e8000000000 = time.Date 1970 1 1 0 0 0 0
  /\ ntpTime.Time 0x83aa7e7fffffffff = time.Date 2106 2 7 6 28 16 0
  /\ ntpEra1 <= ntpTime.Time 0x83aa7e7fffffffff.
Proof.
  intros Ht. unfold is_u64 in Ht.
  pose proof (round_ns_bounds t Ht) as Hr.
  assert (E : ntpTime.Time t
              = (if t <? 0x83aa7e8000000000 then ntpEra1 else ntpEra0)
                + round_ns t).
  { unfold ntpTime.Time, time.Add.
    change ntpTime.t1970 with 0x83aa7e8000000000.
    rewrite Duration_round by exact Ht.
    now destruct (t <? 0x83aa7e8000000000). }
  split; [|split].
  - intros Hlt. rewrite E.
    destruct (Z.ltb_spec t 0x83aa7e8000000000); [|lia].
    split; [reflexivity|lia].
  - intros Hge. rewrite E.
    destruct (Z.ltb_spec t 0x83aa7e8000000000); [lia|].
    split; [reflexivity|].
    change (time.Date 1970 1 1 0 0 0 0) with 0.
    rewrite ntpEra1_value, ntpEra0_value in *.
    unfold round_ns, nanoPerSec in *.
    enough (2208988800 * 1000000000 <= (t * 1000000000 + 2 ^ 31) / 2 ^ 32)
      by lia.
    apply Z.div_le_lower_bound; lia.
  - repeat split; try reflexivity. vm_compute. discriminate.
Qed.

Lemma Time_era_heuristic_witness :
  is_u64 0x83aa7e8000000000
  /\ ntpTime.Time 0x83aa7e8000000000 = ntpEra0 + round_ns 0x83aa7e8000000000.
Proof.
  assert (H : is_u64 0x83aa7e8000000000)
    by (vm_compute; split; [discriminate|reflexivity]).
  split; [exact H|].
  refine (proj1 (proj1 (proj2 (Time_era_heuristic 0x83aa7e8000000000 H)) _)).
  vm_compute. discriminate.
Defined.

(** C3.  For every instant from 1970-01-01 up to 2106-02-07 06:28:16 UTC
    (seventy years into the era that starts in 2036), [toNtpTime] keeps
    the whole seconds since 1900 modulo 2^32 and rounds the nanoseconds to
    the nearest 2^-32 s, a tie going up; [Time] picks the right era and
    rounds the fraction back to the nearest nanosecond, a tie going up;
    and the round trip returns the instant itself, hence an instant
    within one nanosecond of it. *)
Theorem time_round_trip (t : Z) :
  time.Date 1970 1 1 0 0 0 0 <= t < time.Date 2106 2 7 6 28 16 0 ->
  let d := t - ntpEra0 in
  toNtpTime t
    = (d / nanoPerSec) mod 2 ^ 32 * 2 ^ 32 + round_frac (d mod nanoPerSec)
  /\ ntpTime.Time (toNtpTime t)
     = (if toNtpTime t <? 0x83aa7e8000000000 then ntpEra1 else ntpEra0)
       + round_ns (toNtpTime t)
  /\ ntpTime.Time (toNtpTime t) = t
  /\ within 1 (ntpTime.Time (toNtpTime t)) t.
Proof.
  change (time.Date 1970 1 1 0 0 0 0) with 0.
  change (time.Date 2106 2 7 6 28 16 0) with 4294967296000000000.
  intros Ht d.
  assert (Hd : 2208988800 * 1000000000 <= d
               < (2 ^ 32 + 2208988800) * 1000000000)
    by (subst d; rewrite ntpEra0_value; unfold nanoPerSec; lia).
  assert (Ets := toNtpTime_closed t ltac:(fold d; lia)). fold d in Ets.
  unfold nanoPerSec in *.
  set (sec := d / 1000000000) in *. set (ns := d mod 1000000000) in *.
  assert (Hns : 0 <= ns < 1000000000)
    by (subst ns; apply Z.mod_pos_bound; lia).
  assert (Ed : d = 1000000000 * sec + ns)
    by (subst sec ns; apply Z.div_mod; lia).
  assert (Hsec : 2208988800 <= sec < 2 ^ 32 + 2208988800) by lia.
  pose proof (round_frac_bounds ns Hns) as Hf.
  pose proof (Z.mod_pos_bound sec (2 ^ 32) ltac:(lia)) as Hs'.
  assert (Hu : is_u64 (toNtpTime t)) by (unfold is_u64; rewrite Ets; nia).
  assert (Era : ntpTime.Time (toNtpTime t)
     = (if toNtpTime t <? 0x83aa7e8000000000 then ntpEra1 else ntpEra0)
       + round_ns (toNtpTime t)).
  { unfold ntpTime.Time, time.Add.
    change ntpTime.t1970 with 0x83aa7e8000000000.
    rewrite Duration_round by exact Hu.
    now destruct (toNtpTime t <? 0x83aa7e8000000000). }
  assert (Eq : ntpTime.Time (toNtpTime t) = t).
  { rewrite Era. rewrite Ets at 2.
    pose proof (round_ns_round_frac (sec mod 2 ^ 32) ns) as R.
    unfold nanoPerSec in R. rewrite R by lia.
    rewrite ntpEra1_value. unfold nanoPerSec.
    destruct (Z.ltb_spec sec (2 ^ 32)) as [Hlt|Hge].
    - rewrite (Z.mod_small sec) in * by lia.
      destruct (Z.ltb_spec (toNtpTime t) 0x83aa7e8000000000) as [C|C];
        [nia|].
      subst d. lia.
    - assert (Em : sec mod 2 ^ 32 = sec - 2 ^ 32).
      { symmetry. apply Z.mod_unique with (q := 1); lia. }
      rewrite Em in *.
      destruct (Z.ltb_spec (toNtpTime t) 0x83aa7e8000000000) as [C|C];
        [|nia].
      subst d. lia. }
  split; [exact Ets|]. split; [exact Era|]. split; [exact Eq|].
  unfold within. rewrite Eq. replace (t - t) with 0 by lia. cbn. lia.
Qed.

Lemma time_round_trip_witness :
  time.Date 1970 1 1 0 0 0 0 <= time.Date 2040 6 15 12 0 0 123456789
    < time.Date 2106 2 7 6 28 16 0
  /\ ntpTime.Time (toNtpTime (time.Date 2040 6 15 12 0 0 123456789))
     = time.Date 2040 6 15 12 0 0 123456789.
Proof.
  assert (H : time.Date 1970 1 1 0 0 0 0
              <= time.Date 2040 6 15 12 0 0 123456789
              < time.Date 2106 2 7 6 28 16 0)
    by (vm_compute; split; [discriminate|reflexivity]).
  split; [exact H|].
  exact (proj1 (proj2 (proj2
           (time_round_trip (time.Date 2040 6 15 12 0 0 123456789) H)))).
Defined.

(** ** The validator *)

(** Comparing a saturated difference with a bound inside the [int64] range
    is comparing the exact difference with it. *)
Lemma Sub_gt (t u bound : Z) :
  is_s64 bound -> bound < maxDuration ->
  (bound <? time.Sub t u) = (bound <? t - u).
Proof.
  unfold is_s64, time.Sub, minDuration, maxDuration. intros Hb Hm.
  destruct (Z.ltb_spec (t - u) (- 2 ^ 63)).
  - destruct (Z.ltb_spec bound (- 2 ^ 63)), (Z.ltb_spec bound (t - u)); lia.
  - destruct (Z.ltb_spec (2 ^ 63 - 1) (t - u)).
    + destruct (Z.ltb_spec bound (2 ^ 63 - 1)), (Z.ltb_spec bound (t - u));
        lia.
    + reflexivity.
Qed.

Lemma Validate_rules (r : Response) :
  Resp.Validate r =
  match Resp.authErr r with
  | Some e => Some e
  | None => first_error (validate_rules r)
  end.
Proof.
  unfold Resp.Validate, validate_rules, first_error.
  destruct (Resp.authErr r); [reflexivity|].
  change maxStratum with 16. change LeapNotInSync with 3.
  change maxPollInterval with (2 ^ 17 * Second).
  change maxDispersion with (16 * Second).
  rewrite Sub_gt by (unfold is_s64, maxDuration, Second; lia).
  unfold time.Before. reflexivity.
Qed.

(** The durations [generateResponse] stores cannot overflow the
    validator's dispersion sum. *)
Lemma generateResponse_lambda_exact (h : header) (now : Z)
    (e : option error) :
  is_u32 (Header.RootDelay h) -> is_u32 (Header.RootDispersion h) ->
  is_s64 (Z.quot (Resp.RootDelay (generateResponse h now e)) 2
          + Resp.RootDispersion (generateResponse h now e)).
Proof.
  intros H1 H2.
  cbn [generateResponse Resp.RootDelay Resp.RootDispersion].
  pose proof (ShortDuration_bounds _ H1).
  pose proof (ShortDuration_bounds _ H2).
  unfold is_s64, nanoPerSec in *.
  Z.to_euclidean_division_equations. lia.
Qed.

(** C6.  [Validate] returns a stored authentication failure first and
    unconditionally; otherwise it returns the error of the first rule that
    applies, in this order: stratum 0 (kiss of death), stratum at least 16,
    reported time more than 2^17 s past the reference time, root delay / 2
    + root dispersion above 16 s, reported time before the reference time,
    leap indicator 3 (not in sync); and no error when none applies.  The
    dispersion rule is strict: once the earlier rules have passed, the
    answer is the dispersion error exactly when the sum exceeds 16 s, so a
    sum of exactly 16 s passes this rule. *)
Theorem Validate_order (r : Response) :
  Resp.Validate r =
    match Resp.authErr r with
    | Some e => Some e
    | None => first_error (validate_rules r)
    end
  /\ (Resp.authErr r = None ->
      0 < Resp.Stratum r < 16 ->
      Resp.Time r - Resp.ReferenceTime r <= 2 ^ 17 * Second ->
      is_s64 (Z.quot (Resp.RootDelay r) 2 + Resp.RootDispersion r) ->
      (Resp.Validate r = Some ErrInvalidDispersion <->
       16 * Second < Z.quot (Resp.RootDelay r) 2 + Resp.RootDispersion r)).
Proof.
  split; [apply Validate_rules|].
  intros Ha Hs Hf Hl. rewrite Validate_rules, Ha.
  unfold validate_rules, first_error.
  rewrite (s64_small _ Hl).
  destruct (Z.eqb_spec (Resp.Stratum r) 0); [lia|].
  destruct (Z.leb_spec 16 (Resp.Stratum r)); [lia|].
  destruct (Z.ltb_spec (2 ^ 17 * Second)
              (Resp.Time r - Resp.ReferenceTime r)); [lia|].
  destruct (Z.ltb_spec (16 * Second)
              (Z.quot (Resp.RootDelay r) 2 + Resp.RootDispersion r)).
  - split; [intros _; assumption|reflexivity].
  - split; [|lia].
    destruct (Resp.Time r <? Resp.ReferenceTime r); [discriminate|].
    destruct (Resp.Leap r =? 3); discriminate.
Qed.

Lemma Validate_order_witness :
  Resp.Validate Sample.boundary_response = None
  /\ Z.quot (Resp.RootDelay Sample.boundary_response) 2
     + Resp.RootDispersion Sample.boundary_response = 16 * Second
  /\ (Resp.Validate Sample.boundary_response = Some ErrInvalidDispersion <->
      16 * Second < Z.quot (Resp.RootDelay Sample.boundary_response) 2
                    + Resp.RootDispersion Sample.boundary_response).
Proof.
  split; [reflexivity|]. split; [reflexivity|].
  apply (proj2 (Validate_order Sample.boundary_response)).
  - reflexivity.
  - vm_compute. split; reflexivity.
  - vm_compute. discriminate.
  - vm_compute. split; [discriminate|reflexivity].
Defined.

(** ** The packed leap / version / mode byte *)

Lemma all_below_spec n f :
  all_below n f = true -> forall x, 0 <= x < Z.of_nat n -> f x = true.
Proof.
  unfold all_below. rewrite forallb_forall. intros H x Hx.
  apply H. apply in_map_iff. exists (Z.to_nat x). split; [lia|].
  apply in_seq. lia.
Qed.

Lemma setter_ok_all set own o1 o2 (n : nat) :
  all_below 256 (fun x => all_below n (setter_ok set own o1 o2 x)) = true ->
  forall x v, is_u8 x -> 0 <= v < Z.of_nat n ->
    setter_ok set own o1 o2 x v = true.
Proof.
  intros H x v Hx Hv.
  apply (all_below_spec n (setter_ok set own o1 o2 x)); [|exact Hv].
  apply (all_below_spec 256
           (fun x => all_below n (setter_ok set own o1 o2 x)) H).
  exact Hx.
Qed.

Lemma setter_ok_elim set own o1 o2 x v :
  setter_ok set own o1 o2 x v = true ->
  let h := Header.with_LiVnMode Header.new x in
  own (set h v) = v /\ o1 (set h v) = o1 h /\ o2 (set h v) = o2 h
  /\ is_u8 (Header.LiVnMode (set h v)).
Proof.
  unfold setter_ok, is_u8. cbv zeta.
  rewrite !andb_true_iff, !Z.eqb_eq, Z.leb_le, Z.ltb_lt.
  change (2 ^ 8) with 256. tauto.
Qed.

(** C10.  The shared byte holds the leap indicator in its two top bits,
    the version in the next three and the mode in the low three.  For
    every header and every in-range value (version and mode 0..7, leap
    0..3), the getter returns what the setter stored, and the setter
    leaves the two other fields of the byte as they were. *)
Theorem LiVnMode_accessors (h : header) (v : Z) :
  is_u8 (Header.LiVnMode h) ->
  (Header.LiVnMode h
     = Header.getLeap h * 64 + Header.getVersion h * 8 + Header.getMode h
   /\ 0 <= Header.getLeap h <= 3
   /\ 0 <= Header.getVersion h <= 7
   /\ 0 <= Header.getMode h <= 7)
  /\ (0 <= v <= 7 ->
      Header.getVersion (Header.setVersion h v) = v
      /\ Header.getMode (Header.setVersion h v) = Header.getMode h
      /\ Header.getLeap (Header.setVersion h v) = Header.getLeap h
      /\ is_u8 (Header.LiVnMode (Header.setVersion h v)))
  /\ (0 <= v <= 7 ->
      Header.getMode (Header.setMode h v) = v
      /\ Header.getVersion (Header.setMode h v) = Header.getVersion h
      /\ Header.getLeap (Header.setMode h v) = Header.getLeap h
      /\ is_u8 (Header.LiVnMode (Header.setMode h v)))
  /\ (0 <= v <= 3 ->
      Header.getLeap (Header.setLeap h v) = v
      /\ Header.getVersion (Header.setLeap h v) = Header.getVersion h
      /\ Header.getMode (Header.setLeap h v) = Header.getMode h
      /\ is_u8 (Header.LiVnMode (Header.setLeap h v))).
Proof.
  intros Hx. destruct h as [x st po pr rd rdi ri rt ot rct tt].
  cbn [Header.LiVnMode] in Hx.
  split; [|split; [|split]].
  - assert (L : layout_ok x = true).
    { apply (all_below_spec 256 layout_ok); [vm_compute; reflexivity|].
      exact Hx. }
    unfold layout_ok in L. cbv zeta in L.
    rewrite !andb_true_iff, Z.eqb_eq, !Z.ltb_lt in L.
    destruct L as [[[L1 L2] L3] L4].
    unfold Header.getLeap, Header.getVersion, Header.getMode in *.
    cbn [Header.LiVnMode Header.with_LiVnMode Header.new] in *.
    pose proof (Z.land_nonneg (Z.shiftr x 6) 3).
    pose proof (Z.land_nonneg (Z.shiftr x 3) 7).
    pose proof (Z.land_nonneg x 7).
    repeat split; try assumption; lia.
  - intros Hv.
    apply (setter_ok_elim Header.setVersion Header.getVersion
             Header.getMode Header.getLeap x v).
    apply (setter_ok_all _ _ _ _ 8); [vm_compute; reflexivity|exact Hx|lia].
  - intros Hv.
    apply (setter_ok_elim Header.setMode Header.getMode
             Header.getVersion Header.getLeap x v).
    apply (setter_ok_all _ _ _ _ 8); [vm_compute; reflexivity|exact Hx|lia].
  - intros Hv.
    apply (setter_ok_elim Header.setLeap Header.getLeap
             Header.getVersion Header.getMode x v).
    apply (setter_ok_all _ _ _ _ 4); [vm_compute; reflexivity|exact Hx|lia].
Qed.

Lemma LiVnMode_accessors_witness :
  is_u8 (Header.LiVnMode Sample.reply_header)
  /\ Header.getVersion (Header.setVersion Sample.reply_header 3) = 3
  /\ Header.getMode (Header.setVersion Sample.reply_header 3)
     = Header.getMode Sample.reply_header
  /\ Header.getLeap (Header.setVersion Sample.reply_header 3)
     = Header.getLeap Sample.reply_header.
Proof.
  assert (H : is_u8 (Header.LiVnMode Sample.reply_header))
    by (vm_compute; split; [discriminate|reflexivity]).
  assert (Hv : 0 <= 3 <= 7) by (split; discriminate).
  split; [exact H|].
  pose proof (proj1 (proj2 (LiVnMode_accessors Sample.reply_header 3 H)) Hv)
    as (E1 & E2 & E3 & _).
  split; [exact E1|]. split; [exact E2|exact E3].
Defined.

(** ** The header codec *)

Lemma Z_of_byte_of_Z z : binary.Z_of_byte (binary.byte_of_Z z) = z mod 256.
Proof.
  unfold binary.Z_of_byte, binary.byte_of_Z, u8, wrap.
  change (2 ^ 8) with 256.
  pose proof (Z.mod_pos_bound z 256 ltac:(lia)) as Hb.
  destruct (Byte.of_N (Z.to_N (z mod 256))) as [b|] eqn:E.
  - apply Byte.to_of_N in E. rewrite E. lia.
  - apply Byte.of_N_None_iff in E. lia.
Qed.

Lemma be_uint_snoc bs b :
  binary.be_uint (bs ++ [b]) = binary.be_uint bs * 256 + binary.Z_of_byte b.
Proof. unfold binary.be_uint. rewrite fold_left_app. reflexivity. Qed.

(** Reading back the [n] bytes written for [z] gives [z] modulo 256^n. *)
Lemma be_uint_be_bytes n z :
  binary.be_uint (binary.be_bytes n z) = z mod 256 ^ Z.of_nat n.
Proof.
  revert z. induction n as [|n IH]; intros z.
  - cbn. symmetry. apply Z.mod_1_r.
  - cbn [binary.be_bytes]. rewrite be_uint_snoc, IH, Z_of_byte_of_Z.
    rewrite Z.shiftr_div_pow2 by lia. change (2 ^ 8) with 256.
    rewrite Nat2Z.inj_succ, Z.pow_succ_r by lia.
    rewrite (Z.rem_mul_r z 256 (256 ^ Z.of_nat n)) by lia. lia.
Qed.

Lemma s8_byte z : is_s8 z -> s8 (z mod 2 ^ 8) = z.
Proof.
  unfold is_s8, s8, swrap. change (8 - 1) with 7.
  intros H. rewrite Zplus_mod_idemp_l. rewrite Z.mod_small; lia.
Qed.

(** A header whose fields fit their Go types survives the wire. *)
Lemma Read_Write (h : header) :
  Header.wf h -> binary.Read (binary.Write h) = inr h.
Proof.
  intros (H1 & H2 & H3 & H4 & H5 & H6 & H7 & H8 & H9 & H10 & H11).
  destruct h as [a b c d e f g i j k l].
  cbn [Header.LiVnMode Header.Stratum Header.Poll Header.Precision
       Header.RootDelay Header.RootDispersion Header.ReferenceID
       Header.ReferenceTime Header.OriginTime Header.ReceiveTime
       Header.TransmitTime] in *.
  unfold is_u8, is_u32, is_u64 in *.
  change (binary.Read (binary.Write (Header.mk a b c d e f g i j k l)))
    with (@inr error header
            (Header.mk
               (binary.be_uint (binary.be_bytes 1 a))
               (binary.be_uint (binary.be_bytes 1 b))
               (s8 (binary.be_uint (binary.be_bytes 1 c)))
               (s8 (binary.be_uint (binary.be_bytes 1 d)))
               (binary.be_uint (binary.be_bytes 4 e))
               (binary.be_uint (binary.be_bytes 4 f))
               (binary.be_uint (binary.be_bytes 4 g))
               (binary.be_uint (binary.be_bytes 8 i))
               (binary.be_uint (binary.be_bytes 8 j))
               (binary.be_uint (binary.be_bytes 8 k))
               (binary.be_uint (binary.be_bytes 8 l)))).
  rewrite !be_uint_be_bytes.
  change (256 ^ Z.of_nat 1) with (2 ^ 8).
  change (256 ^ Z.of_nat 4) with (2 ^ 32).
  change (256 ^ Z.of_nat 8) with (2 ^ 64).
  rewrite (s8_byte c H3), (s8_byte d H4).
  rewrite !Z.mod_small by assumption. reflexivity.
Qed.

(** ** The exchange *)

Lemma error_eqb_eq (a b : error) : error_eqb a b = true <-> a = b.
Proof.
  split.
  - destruct a, b; cbn; try discriminate; try reflexivity;
      intros H; apply String.eqb_eq in H; now subst.
  - intros <-. destruct a; cbn; try reflexivity; apply String.eqb_refl.
Qed.

Lemma error_eqb_neq (a b : error) : a <> b -> error_eqb a b = false.
Proof.
  intros H. destruct (error_eqb a b) eqn:E; [|reflexivity].
  apply error_eqb_eq in E. contradiction.
Qed.

Lemma Read_short (buf : list byte) :
  (List.length buf < 48)%nat ->
  exists e, binary.Read buf = inl e /\ MalformedHeader e = true.
Proof.
  intros H. unfold binary.Read, binary.headerSize.
  destruct (Nat.eqb_spec (List.length buf) 0).
  - exists io_EOF. split; reflexivity.
  - destruct (Nat.ltb_spec (List.length buf) 48); [|lia].
    exists io_ErrUnexpectedEOF. split; reflexivity.
Qed.

Lemma Read_full (buf : list byte) :
  (48 <= List.length buf)%nat ->
  binary.Read buf = inr (binary.decode (firstn 48 buf)).
Proof.
  intros H. unfold binary.Read, binary.headerSize.
  destruct (Nat.eqb_spec (List.length buf) 0); [lia|].
  destruct (Nat.ltb_spec (List.length buf) 48); [lia|]. reflexivity.
Qed.

Lemma structural_error_not_auth sent reply e :
  first_error (structural_rules sent reply) = Some e -> e <> ErrAuthFailed.
Proof.
  unfold structural_rules, first_error.
  repeat match goal with
         | |- context [if ?c then _ else _] => destruct c
         end; intros [= <-]; discriminate.
Qed.

Section ExchangeFacts.

Context `{Auth_ : AuthSubsystem}.

Variables (w : World) (address : string) (opt : QueryOptions).

(** Once every step up to the read has succeeded, [getTime] is its
    tail. *)
Lemma getTime_after_read sent key recvBuf :
  reply_received w address opt sent key recvBuf ->
  getTime w address opt =
    match after_read w opt sent key recvBuf with
    | inl err => (None, 0, Some err)
    | inr (h, now, authErr) => (Some h, now, authErr)
    end.
Proof.
  intros [Hv (remoteAddress & con & bits & xmitBuf & raw &
              Hfix & Hdial & Httl & Hrand & Hsent & Hq & Hkey & Hw & Hr
              & Hbuf)].
  unfold version_of, port_of, dialer_of, query_header in *.
  unfold getTime. cbv zeta.
  set (v := if Version opt =? 0 then defaultNtpVersion else Version opt)
    in *.
  destruct (Z.ltb_spec v 2); [lia|]. destruct (Z.ltb_spec 4 v); [lia|].
  cbn [orb].
  rewrite Hfix. cbn [bind]. rewrite Hdial. cbn [bind].
  assert (Ettl : (TTL opt =? 0) = true \/ SetTTL con (TTL opt) = None).
  { destruct Httl as [-> | E]; [left; reflexivity|right; exact E]. }
  assert (Etail :
    forall k : unit -> result (header * Z * option error),
      bind (if TTL opt =? 0 then inr tt else check (SetTTL con (TTL opt))) k
      = k tt).
  { intros k. destruct (TTL opt =? 0); [reflexivity|].
    destruct Ettl as [Ettl|Ettl]; [discriminate|now rewrite Ettl]. }
  rewrite Etail.
  rewrite Hrand. cbn [bind]. rewrite <- Hsent.
  rewrite Hq. cbn [bind]. rewrite Hkey. cbn [bind].
  rewrite Hw. cbn [bind check].
  rewrite Hr. cbn [bind]. rewrite <- Hbuf.
  unfold after_read, recvTime_of.
  destruct (binary.Read recvBuf) as [e|recvHdr]; [reflexivity|].
  cbn [bind].
  destruct (processResponses (rev (Extensions opt)) recvBuf) as [e|[]];
    [reflexivity|]. cbn [bind].
  unfold structural_rules, first_error. change server with 4.
  cbn [Header.TransmitTime Header.with_TransmitTime].
  destruct (negb (Header.getMode recvHdr =? 4)); [reflexivity|].
  destruct (Header.TransmitTime recvHdr =? 0); [reflexivity|].
  destruct (negb (Header.OriginTime recvHdr =? sent)); [reflexivity|].
  destruct (Header.TransmitTime recvHdr <? Header.ReceiveTime recvHdr);
    reflexivity.
Qed.

(** An error other than the authentication failure leaves
    [QueryWithOptions] without a response. *)
Lemma QueryWithOptions_error h now e :
  getTime w address opt = (h, now, Some e) -> e <> ErrAuthFailed ->
  QueryWithOptions w address opt = Returned None (Some e).
Proof.
  intros E Hne. unfold QueryWithOptions. rewrite E.
  rewrite (error_eqb_neq _ _ Hne). reflexivity.
Qed.

Lemma getTime_structural sent key recvBuf reply :
  reply_decoded w address opt sent key recvBuf reply ->
  getTime w address opt =
    match first_error (structural_rules sent reply) with
    | Some e => (None, 0, Some e)
    | None =>
        (Some (Header.with_OriginTime reply (toNtpTime (time_Now w))),
         toNtpTime (recvTime_of w),
         verifyMAC recvBuf (Auth opt) key)
    end.
Proof.
  intros (Hrecv & Hdec & Hext).
  rewrite (getTime_after_read _ _ _ Hrecv).
  unfold after_read. rewrite Hdec, Hext. cbn [bind].
  now destruct (first_error (structural_rules sent reply)).
Qed.

(** C7.  Once the reply header is decoded (and the extensions have
    accepted the reply), the exchange applies four checks in order and
    stops at the first that fails, returning its error and no result:
    mode other than server, zero transmit timestamp, origin timestamp
    other than the random transmit timestamp [sent] of the query,
    receive timestamp after transmit timestamp.  A reply that passes
    all four goes on with its origin timestamp rewritten. *)
Theorem structural_checks sent key recvBuf reply :
  reply_decoded w address opt sent key recvBuf reply ->
  match first_error (structural_rules sent reply) with
  | Some e =>
      getTime w address opt = (None, 0, Some e)
      /\ QueryWithOptions w address opt = Returned None (Some e)
  | None =>
      getTime w address opt =
        (Some (Header.with_OriginTime reply (toNtpTime (time_Now w))),
         toNtpTime (recvTime_of w),
         verifyMAC recvBuf (Auth opt) key)
  end
  /\ (Header.getMode reply <> server ->
      getTime w address opt = (None, 0, Some ErrInvalidMode))
  /\ (Header.getMode reply = server ->
      Header.TransmitTime reply = 0 ->
      getTime w address opt = (None, 0, Some ErrInvalidTransmitTime))
  /\ (Header.getMode reply = server ->
      Header.TransmitTime reply <> 0 ->
      Header.OriginTime reply <> sent ->
      getTime w address opt = (None, 0, Some ErrServerResponseMismatch))
  /\ (Header.getMode reply = server ->
      Header.TransmitTime reply <> 0 ->
      Header.OriginTime reply = sent ->
      Header.TransmitTime reply < Header.ReceiveTime reply ->
      getTime w address opt = (None, 0, Some ErrServerTickedBackwards)).
Proof.
  intros Hdec.
  pose proof (getTime_structural _ _ _ _ Hdec) as E.
  split; [|repeat split].
  - destruct (first_error (structural_rules sent reply)) as [e|] eqn:Hrules.
    + split; [exact E|].
      eapply QueryWithOptions_error; [exact E|].
      eapply structural_error_not_auth; eassumption.
    + exact E.
  - intros Hm. rewrite E. unfold structural_rules, first_error.
    change server with 4 in Hm.
    destruct (Z.eqb_spec (Header.getMode reply) 4); [contradiction|].
    reflexivity.
  - intros Hm Ht. rewrite E. unfold structural_rules, first_error.
    change server with 4 in Hm. rewrite Hm, Ht. reflexivity.
  - intros Hm Ht Ho. rewrite E. unfold structural_rules, first_error.
    change server with 4 in Hm. rewrite Hm. cbn [Z.eqb negb].
    destruct (Z.eqb_spec (Header.TransmitTime reply) 0); [contradiction|].
    destruct (Z.eqb_spec (Header.OriginTime reply) sent); [contradiction|].
    reflexivity.
  - intros Hm Ht Ho Hb. rewrite E. unfold structural_rules, first_error.
    change server with 4 in Hm. rewrite Hm, Ho. cbn [Z.eqb negb].
    destruct (Z.eqb_spec (Header.TransmitTime reply) 0); [contradiction|].
    rewrite Z.eqb_refl. cbn [negb].
    destruct (Z.ltb_spec (Header.TransmitTime reply)
                (Header.ReceiveTime reply)); [reflexivity|lia].
Qed.

(** C8.  When the reply passes the structural checks and its MAC fails
    to verify, [QueryWithOptions] still returns the response built from
    the reply, with a nil error and the failure stored inside, and
    [Validate] on that response returns the stored failure.  [Validate]
    returns a stored failure whatever the other fields hold.  Every
    error of [getTime] other than the authentication failure makes
    [QueryWithOptions] return no response and that error. *)
Theorem deferred_authentication_failure :
  (forall sent key recvBuf reply,
      reply_decoded w address opt sent key recvBuf reply ->
      first_error (structural_rules sent reply) = None ->
      verifyMAC recvBuf (Auth opt) key = Some ErrAuthFailed ->
      QueryWithOptions w address opt =
        Returned
          (Some (generateResponse
                   (Header.with_OriginTime reply (toNtpTime (time_Now w)))
                   (toNtpTime (recvTime_of w)) (Some ErrAuthFailed)))
          None
      /\ Resp.Validate
           (generateResponse
              (Header.with_OriginTime reply (toNtpTime (time_Now w)))
              (toNtpTime (recvTime_of w)) (Some ErrAuthFailed))
         = Some ErrAuthFailed)
  /\ (forall (r : Response) e,
      Resp.authErr r = Some e -> Resp.Validate r = Some e)
  /\ (forall h now e,
      getTime w address opt = (h, now, Some e) -> e <> ErrAuthFailed ->
      QueryWithOptions w address opt = Returned None (Some e)).
Proof.
  split; [|split].
  - intros sent key recvBuf reply Hdec Hrules Hmac.
    pose proof (getTime_structural _ _ _ _ Hdec) as E.
    rewrite Hrules, Hmac in E.
    split; [|reflexivity].
    unfold QueryWithOptions. rewrite E. reflexivity.
  - intros r e Ha. unfold Resp.Validate. now rewrite Ha.
  - apply QueryWithOptions_error.
Qed.

(** C9.  Decoding the header fails, with the error kind of a malformed
    header, on every buffer of fewer than 48 bytes, and succeeds on
    every buffer of at least 48 bytes, reading the first 48.  In the
    exchange, a reply of fewer than 48 bytes ends [getTime] with that
    error and no result. *)
Theorem header_decoding :
  (forall buf, (List.length buf < 48)%nat ->
     exists e, binary.Read buf = inl e /\ MalformedHeader e = true)
  /\ (forall buf, (48 <= List.length buf)%nat ->
     binary.Read buf = inr (binary.decode (firstn 48 buf)))
  /\ (forall sent key recvBuf,
     reply_received w address opt sent key recvBuf ->
     (List.length recvBuf < 48)%nat ->
     exists e, MalformedHeader e = true
               /\ getTime w address opt = (None, 0, Some e)
               /\ QueryWithOptions w address opt = Returned None (Some e)).
Proof.
  split; [exact Read_short|]. split; [exact Read_full|].
  intros sent key recvBuf Hrecv Hlen.
  destruct (Read_short recvBuf Hlen) as (e & He & Hk).
  exists e. split; [exact Hk|].
  pose proof (getTime_after_read _ _ _ Hrecv) as E.
  unfold after_read in E. rewrite He in E. cbn [bind] in E.
  split; [exact E|].
  eapply QueryWithOptions_error; [exact E|].
  intros ->. discriminate.
Qed.

End ExchangeFacts.

(** ** The sample exchange *)

Lemma sample_reply_received (datagram : list byte) :
  (List.length datagram <= 48)%nat ->
  @reply_received Sample.rejecting (Sample.world datagram) Sample.address
    Sample.options Sample.sent tt datagram.
Proof.
  intros Hlen. split; [vm_compute; split; discriminate|].
  exists "time.example.org:123"%string, (Sample.conn datagram), Sample.bits,
    (binary.Write (query_header 4 Sample.sent)), datagram.
  repeat split; try reflexivity.
  - left. reflexivity.
  - cbn [Read Sample.conn]. symmetry. apply firstn_all2.
    lia.
Defined.

Lemma sample_reply_decoded (h : header) :
  binary.Read (binary.Write h) = inr h ->
  @reply_decoded Sample.rejecting (Sample.world (binary.Write h))
    Sample.address Sample.options Sample.sent tt (binary.Write h) h.
Proof.
  intros Hdec. split; [|split].
  - apply sample_reply_received. reflexivity.
  - exact Hdec.
  - reflexivity.
Defined.

Lemma structural_checks_witness :
  @reply_decoded Sample.rejecting
    (Sample.world (binary.Write Sample.mismatched_header))
    Sample.address Sample.options Sample.sent tt
    (binary.Write Sample.mismatched_header) Sample.mismatched_header
  /\ @getTime Sample.rejecting
       (Sample.world (binary.Write Sample.mismatched_header))
       Sample.address Sample.options
     = (None, 0, Some ErrServerResponseMismatch)
  /\ @QueryWithOptions Sample.rejecting
       (Sample.world (binary.Write Sample.mismatched_header))
       Sample.address Sample.options
     = Returned None (Some ErrServerResponseMismatch).
Proof.
  assert (H : @reply_decoded Sample.rejecting
                (Sample.world (binary.Write Sample.mismatched_header))
                Sample.address Sample.options Sample.sent tt
                (binary.Write Sample.mismatched_header)
                Sample.mismatched_header)
    by (apply sample_reply_decoded; reflexivity).
  split; [exact H|].
  exact (proj1 (@structural_checks Sample.rejecting _ _ _ _ _ _ _ H)).
Defined.

Lemma deferred_authentication_failure_witness :
  @reply_decoded Sample.rejecting
    (Sample.world (binary.Write Sample.reply_header))
    Sample.address Sample.options Sample.sent tt
    (binary.Write Sample.reply_header) Sample.reply_header
  /\ first_error (structural_rules Sample.sent Sample.reply_header) = None
  /\ exists r,
       @QueryWithOptions Sample.rejecting
         (Sample.world (binary.Write Sample.reply_header))
         Sample.address Sample.options
       = Returned (Some r) None
       /\ Resp.authErr r = Some ErrAuthFailed
       /\ Resp.Stratum r = 2
       /\ Resp.Validate r = Some ErrAuthFailed.
Proof.
  assert (H : @reply_decoded Sample.rejecting
                (Sample.world (binary.Write Sample.reply_header))
                Sample.address Sample.options Sample.sent tt
                (binary.Write Sample.reply_header) Sample.reply_header)
    by (apply sample_reply_decoded; reflexivity).
  split; [exact H|]. split; [reflexivity|].
  destruct (proj1 (@deferred_authentication_failure Sample.rejecting
                     (Sample.world (binary.Write Sample.reply_header))
                     Sample.address Sample.options)
              Sample.sent tt (binary.Write Sample.reply_header)
              Sample.reply_header H eq_refl eq_refl) as [Hq Hv].
  eexists. split; [exact Hq|]. split; [reflexivity|].
  split; [reflexivity|exact Hv].
Defined.

Lemma header_decoding_witness :
  (List.length (firstn 47 (binary.Write Sample.reply_header)) < 48)%nat
  /\ exists e,
       MalformedHeader e = true
       /\ @getTime Sample.rejecting
            (Sample.world (firstn 47 (binary.Write Sample.reply_header)))
            Sample.address Sample.options
          = (None, 0, Some e).
Proof.
  assert (Hlen : (List.length (firstn 47 (binary.Write Sample.reply_header))
                  < 48)%nat) by (vm_compute; lia).
  split; [exact Hlen|].
  destruct (proj2 (proj2 (@header_decoding Sample.rejecting
                            (Sample.world
                               (firstn 47 (binary.Write Sample.reply_header)))
                            Sample.address Sample.options))
              Sample.sent tt _
              (sample_reply_received _ (Nat.lt_le_incl _ _ Hlen)) Hlen)
    as (e & Hk & Hg & _).
  exists e. split; [exact Hk|exact Hg].
Defined.

(** An error equal to the authentication sentinel that arises before any
    header exists (here from an extension's query hook) sends
    [QueryWithOptions] into [generateResponse] with a nil header. *)
Remark QueryWithOptions_nil_header :
  @getTime Sample.rejecting (Sample.world []) Sample.address
    Sample.options_failing = (None, 0, Some ErrAuthFailed)
  /\ @QueryWithOptions Sample.rejecting (Sample.world []) Sample.address
       Sample.options_failing = Panicked.
Proof. split; reflexivity. Qed.

(* ================================================================== *)
(** * Further properties of the code *)
(* ================================================================== *)

(** ** Durations *)

Lemma round_ns_monotone m n : m <= n -> round_ns m <= round_ns n.
Proof.
  intros H. unfold round_ns, nanoPerSec.
  apply Z.div_le_mono; lia.
Qed.

(** X1.  [ntpTime.Duration] is monotone and never negative, stays within
    2^32 seconds, is exact on whole seconds, and is off the exact value by
    at most half a nanosecond (the error below is in units of 2^-32 ns). *)
Theorem Duration_monotone (t1 t2 s : Z) :
  0 <= t1 <= t2 -> t2 < 2 ^ 64 -> 0 <= s < 2 ^ 32 ->
  0 <= ntpTime.Duration t1 <= ntpTime.Duration t2
  /\ ntpTime.Duration t2 <= 2 ^ 32 * Second
  /\ - 2 ^ 31 < ntpTime.Duration t1 * 2 ^ 32 - t1 * Second <= 2 ^ 31
  /\ ntpTime.Duration (s * 2 ^ 32) = s * Second.
Proof.
  intros H1 H2 Hs.
  rewrite !Duration_round by lia.
  pose proof (round_ns_bounds t1 ltac:(lia)) as B1.
  pose proof (round_ns_bounds t2 ltac:(lia)) as B2.
  pose proof (round_ns_monotone t1 t2 ltac:(lia)) as M.
  unfold Second, nanoPerSec in *.
  split; [lia|]. split; [lia|]. split.
  - unfold round_ns, nanoPerSec. Z.to_euclidean_division_equations. lia.
  - unfold round_ns, nanoPerSec.
    Z.to_euclidean_division_equations. lia.
Qed.

Lemma Duration_monotone_witness :
  0 <= 3 * 2 ^ 31 <= 5 * 2 ^ 31
  /\ ntpTime.Duration (3 * 2 ^ 31) <= ntpTime.Duration (5 * 2 ^ 31)
  /\ ntpTime.Duration (7 * 2 ^ 32) = 7 * Second.
Proof.
  assert (H1 : 0 <= 3 * 2 ^ 31 <= 5 * 2 ^ 31) by (vm_compute; split; discriminate).
  assert (H2 : 5 * 2 ^ 31 < 2 ^ 64) by (vm_compute; reflexivity).
  assert (H3 : 0 <= 7 < 2 ^ 32) by (vm_compute; split; [discriminate|reflexivity]).
  split; [exact H1|].
  pose proof (Duration_monotone (3 * 2 ^ 31) (5 * 2 ^ 31) 7 H1 H2 H3)
    as ([_ M] & _ & _ & W).
  split; [exact M|exact W].
Defined.

(** X2.  [ntpTimeShort.Duration] on a 32-bit value is the Q16.16 number
    of seconds in nanoseconds rounded to nearest, a tie going up: never
    negative, at most 2^16 seconds, monotone, exact on whole seconds. *)
Theorem ShortDuration_rounds (t1 t2 s : Z) :
  0 <= t1 <= t2 -> t2 < 2 ^ 32 -> 0 <= s < 2 ^ 16 ->
  ntpTimeShort.Duration t1 = (t1 * Second + 2 ^ 15) / 2 ^ 16
  /\ 0 <= ntpTimeShort.Duration t1 <= ntpTimeShort.Duration t2
  /\ ntpTimeShort.Duration t2 <= 2 ^ 16 * Second
  /\ ntpTimeShort.Duration (s * 2 ^ 16) = s * Second.
Proof.
  intros H1 H2 Hs.
  assert (U1 : is_u32 t1) by (unfold is_u32; lia).
  assert (U2 : is_u32 t2) by (unfold is_u32; lia).
  assert (U3 : is_u32 (s * 2 ^ 16)) by (unfold is_u32; lia).
  pose proof (ShortDuration_bounds t1 U1) as B1.
  pose proof (ShortDuration_bounds t2 U2) as B2.
  rewrite !ShortDuration_round in * by assumption.
  unfold Second, nanoPerSec in *.
  split; [reflexivity|]. split; [|split].
  - split; [lia|]. apply Z.div_le_mono; lia.
  - lia.
  - Z.to_euclidean_division_equations. lia.
Qed.

Lemma ShortDuration_rounds_witness :
  0 <= 0x8000 <= 0x18000
  /\ ntpTimeShort.Duration 0x8000 = Second / 2
  /\ ntpTimeShort.Duration (16 * 2 ^ 16) = 16 * Second.
Proof.
  assert (H1 : 0 <= 0x8000 <= 0x18000) by (vm_compute; split; discriminate).
  assert (H2 : 0x18000 < 2 ^ 32) by (vm_compute; reflexivity).
  assert (H3 : 0 <= 16 < 2 ^ 16) by (vm_compute; split; [discriminate|reflexivity]).
  split; [exact H1|].
  pose proof (ShortDuration_rounds 0x8000 0x18000 16 H1 H2 H3)
    as (E & _ & _ & W).
  split; [exact E|exact W].
Defined.

(** ** Timestamp arithmetic *)

(** X3.  [minError] is the larger of the two causality violations
    org - rec and xmt - dst, each counted only when it is not negative,
    turned into a duration; it is never negative, and it is zero when
    neither pair is out of order.  The comparisons are on the raw
    unsigned values. *)
Theorem minError_characterization (org rec xmt dst : Z) :
  is_u64 org -> is_u64 rec -> is_u64 xmt -> is_u64 dst ->
  minError org rec xmt dst
    = round_ns (Z.max (Z.max 0 (org - rec)) (Z.max 0 (xmt - dst)))
  /\ 0 <= minError org rec xmt dst <= 2 ^ 32 * Second
  /\ (org <= rec -> xmt <= dst -> minError org rec xmt dst = 0).
Proof.
  unfold is_u64. intros Ho Hr Hx Hd.
  assert (E : minError org rec xmt dst
              = round_ns (Z.max (Z.max 0 (org - rec)) (Z.max 0 (xmt - dst)))).
  { unfold minError.
    destruct (Z.leb_spec rec org) as [C0|C0];
      destruct (Z.leb_spec dst xmt) as [C1|C1];
      rewrite ?(u64_small (org - rec)), ?(u64_small (xmt - dst)) by lia;
      match goal with
      | |- context [?a <? ?b] => destruct (Z.ltb_spec a b)
      end;
      rewrite Duration_round by lia; f_equal; lia. }
  split; [exact E|]. split.
  - rewrite E. unfold Second. apply round_ns_bounds. lia.
  - intros H0 H1. rewrite E.
    replace (Z.max (Z.max 0 (org - rec)) (Z.max 0 (xmt - dst))) with 0 by lia.
    reflexivity.
Qed.

Lemma minError_characterization_witness :
  is_u64 (5 * 2 ^ 32) /\ is_u64 (3 * 2 ^ 32)
  /\ minError (5 * 2 ^ 32) (3 * 2 ^ 32) (3 * 2 ^ 32) (5 * 2 ^ 32)
     = round_ns (Z.max (Z.max 0 (5 * 2 ^ 32 - 3 * 2 ^ 32))
                       (Z.max 0 (3 * 2 ^ 32 - 5 * 2 ^ 32))).
Proof.
  assert (H5 : is_u64 (5 * 2 ^ 32))
    by (vm_compute; split; [discriminate|reflexivity]).
  assert (H3 : is_u64 (3 * 2 ^ 32))
    by (vm_compute; split; [discriminate|reflexivity]).
  split; [exact H5|]. split; [exact H3|].
  exact (proj1 (minError_characterization _ _ _ _ H5 H3 H3 H5)).
Defined.

Lemma sdiff64_shift k x y : sdiff64 (u64 (x + k)) (u64 (y + k)) = sdiff64 x y.
Proof.
  unfold sdiff64. rewrite !s64_u64.
  rewrite <- (s64_u64 (u64 (x + k) - u64 (y + k))), <- (s64_u64 (x - y)).
  f_equal. unfold u64, wrap. rewrite <- Zminus_mod. f_equal. lia.
Qed.

(** X4.  [offset] and [rtt] depend only on differences modulo 2^64:
    moving all four timestamps by the same amount, across any number of
    era boundaries, changes neither.  [minError], which compares raw
    values, is not of that kind: moving org = 2^64 - 1, rec = xmt = dst = 0
    forward by one tick changes its answer. *)
Theorem offset_rtt_era_independent (k org rec xmt dst : Z) :
  offset (u64 (org + k)) (u64 (rec + k)) (u64 (xmt + k)) (u64 (dst + k))
    = offset org rec xmt dst
  /\ rtt (u64 (org + k)) (u64 (rec + k)) (u64 (xmt + k)) (u64 (dst + k))
     = rtt org rec xmt dst
  /\ minError (u64 (2 ^ 64 - 1 + 1)) (u64 (0 + 1)) (u64 (0 + 1)) (u64 (0 + 1))
     <> minError (2 ^ 64 - 1) 0 0 0.
Proof.
  split; [|split].
  - unfold offset.
    fold (sdiff64 (u64 (rec + k)) (u64 (org + k)))
         (sdiff64 (u64 (xmt + k)) (u64 (dst + k)))
         (sdiff64 rec org) (sdiff64 xmt dst).
    now rewrite !sdiff64_shift.
  - unfold rtt.
    fold (sdiff64 (u64 (dst + k)) (u64 (org + k)))
         (sdiff64 (u64 (xmt + k)) (u64 (rec + k)))
         (sdiff64 dst org) (sdiff64 xmt rec).
    now rewrite !sdiff64_shift.
  - vm_compute. discriminate.
Qed.

(** X5.  When the two network delays are equal, [offset] is exactly the
    amount the server clock is ahead of the client clock: with the reply
    received [delay + theta] after the query was sent and the reply sent
    [delay - theta] before it arrived (all in 2^-32 s), [offset] is
    [theta] rounded to the nanosecond, with its sign. *)
Theorem offset_symmetric_delay (org rec xmt dst theta delay : Z) :
  sdiff64 rec org = delay + theta ->
  sdiff64 dst xmt = delay - theta ->
  - 2 ^ 62 < delay <= 2 ^ 62 ->
  - 2 ^ 62 < theta < 2 ^ 62 ->
  offset org rec xmt dst = Z.sgn theta * round_ns (Z.abs theta).
Proof.
  intros Ha Hb Hd Ht.
  assert (Hb' : sdiff64 xmt dst = theta - delay).
  { unfold sdiff64 in *. rewrite s64_u64 in *.
    rewrite <- (s64_small (theta - delay)) by lia.
    rewrite <- (s64_u64 (xmt - dst)), <- (s64_u64 (theta - delay)).
    f_equal.
    assert (E : u64 (dst - xmt) = u64 (delay - theta)).
    { rewrite <- (u64_s64 (dst - xmt)), Hb. reflexivity. }
    unfold u64, wrap in *.
    replace (xmt - dst) with (0 - (dst - xmt)) by lia.
    replace (theta - delay) with (0 - (delay - theta)) by lia.
    rewrite Zminus_mod, E, <- Zminus_mod. reflexivity. }
  unfold offset.
  fold (sdiff64 rec org) (sdiff64 xmt dst). rewrite Ha, Hb'.
  replace (theta - delay - (delay + theta)) with (- (2 * delay)) by lia.
  rewrite (s64_small (- (2 * delay))) by lia.
  rewrite Z.quot_opp_l by lia.
  replace (Z.quot (2 * delay) 2) with delay
    by (symmetry; rewrite Z.mul_comm; apply Z.quot_mul; lia).
  replace (delay + theta + - delay) with theta by lia.
  rewrite (s64_small theta) by lia.
  pose proof (round_ns_bounds (Z.abs theta) ltac:(lia)) as Hr.
  unfold nanoPerSec in Hr.
  destruct (Z.ltb_spec theta 0) as [Hn|Hp].
  - rewrite u64_neg_s64 by lia. rewrite Duration_round by lia.
    rewrite (Z.abs_neq theta) in * by lia. rewrite Z.sgn_neg by lia.
    rewrite s64_small by lia. lia.
  - rewrite u64_small by lia. rewrite Duration_round by lia.
    rewrite (Z.abs_eq theta) by lia.
    destruct (Z.eq_dec theta 0) as [->|Hne]; [reflexivity|].
    rewrite Z.sgn_pos by lia. lia.
Qed.

Lemma offset_symmetric_delay_witness :
  sdiff64 (3 * 2 ^ 32) 0 = 2 ^ 32 + 2 * 2 ^ 32
  /\ offset 0 (3 * 2 ^ 32) (4 * 2 ^ 32) (3 * 2 ^ 32)
     = Z.sgn (2 * 2 ^ 32) * round_ns (Z.abs (2 * 2 ^ 32)).
Proof.
  assert (Ha : sdiff64 (3 * 2 ^ 32) 0 = 2 ^ 32 + 2 * 2 ^ 32) by reflexivity.
  split; [exact Ha|].
  apply (offset_symmetric_delay 0 (3 * 2 ^ 32) (4 * 2 ^ 32) (3 * 2 ^ 32)
           (2 * 2 ^ 32) (2 ^ 32)).
  - exact Ha.
  - reflexivity.
  - vm_compute. split; [reflexivity|discriminate].
  - vm_compute. split; reflexivity.
Defined.

(** X6.  [toInterval] on a signed byte: for a negative exponent it is a
    second divided by 2^(-t), truncated, which is zero from -30 down (and
    at -128, where the negation overflows the byte); for 0..33 it is
    exactly 2^t seconds; for 34..63 the 64-bit product wraps and the
    answer is not 2^t seconds; from 64 up every bit is shifted out and the
    answer is zero. *)
Theorem toInterval_values (t : Z) :
  is_s8 t ->
  (t < 0 -> toInterval t = Second / 2 ^ (- t))
  /\ (t <= -30 -> toInterval t = 0)
  /\ (0 <= t <= 33 -> toInterval t = Second * 2 ^ t)
  /\ (34 <= t <= 63 ->
      toInterval t = s64 (Second * 2 ^ t) /\ toInterval t <> Second * 2 ^ t)
  /\ (64 <= t -> toInterval t = 0).
Proof.
  unfold is_s8. intros Ht.
  assert (E : toInterval t = interval_value t).
  { assert (A : all_below 256 interval_ok = true) by (vm_compute; reflexivity).
    pose proof (all_below_spec 256 interval_ok A (t + 128) ltac:(lia)) as B.
    unfold interval_ok in B. apply Z.eqb_eq in B.
    replace (t + 128 - 128) with t in B by lia. exact B. }
  rewrite E. unfold interval_value.
  split; [|split; [|split; [|split]]].
  - intros H. destruct (Z.ltb_spec t 0); [reflexivity|lia].
  - intros H. destruct (Z.ltb_spec t 0); [|lia].
    apply Z.div_small. unfold Second.
    assert (2 ^ 30 <= 2 ^ (- t)) by (apply Z.pow_le_mono_r; lia). lia.
  - intros H. destruct (Z.ltb_spec t 0); [lia|].
    destruct (Z.leb_spec t 33); [reflexivity|lia].
  - intros H. destruct (Z.ltb_spec t 0); [lia|].
    destruct (Z.leb_spec t 33); [lia|].
    destruct (Z.leb_spec t 63); [|lia].
    split; [reflexivity|].
    pose proof (s64_range (Second * 2 ^ t)) as R.
    assert (2 ^ 34 <= 2 ^ t) by (apply Z.pow_le_mono_r; lia).
    unfold Second in *. lia.
  - intros H. destruct (Z.ltb_spec t 0); [lia|].
    destruct (Z.leb_spec t 33); [lia|].
    destruct (Z.leb_spec t 63); [lia|reflexivity].
Qed.

Lemma toInterval_values_witness :
  is_s8 (-6) /\ toInterval (-6) = Second / 2 ^ 6
  /\ toInterval 10 = Second * 2 ^ 10.
Proof.
  assert (H6 : is_s8 (-6)) by (vm_compute; split; [discriminate|reflexivity]).
  assert (H10 : is_s8 10) by (vm_compute; split; [discriminate|reflexivity]).
  split; [exact H6|]. split.
  - apply (proj1 (toInterval_values (-6) H6)). reflexivity.
  - apply (proj1 (proj2 (proj2 (toInterval_values 10 H10)))).
    split; discriminate.
Defined.

Lemma PutUint32_bytes a b c d :
  is_u8 a -> is_u8 b -> is_u8 c -> is_u8 d ->
  Reference.PutUint32 (a * 2 ^ 24 + b * 2 ^ 16 + c * 2 ^ 8 + d) = [a; b; c; d].
Proof.
  unfold is_u8, Reference.PutUint32, u8, wrap. intros Ha Hb Hc Hd.
  rewrite !Z.shiftr_div_pow2 by lia.
  repeat f_equal; Z.to_euclidean_division_equations; lia.
Qed.

(** X7.  [kissCode] reads the identifier as four big-endian bytes: when
    all four are printable ASCII (32..126) it is the four-character string
    they spell, and when any is not it is the empty string. *)
Theorem kissCode_printable (a b c d : Z) :
  is_u8 a -> is_u8 b -> is_u8 c -> is_u8 d ->
  (forallb isPrintable [a; b; c; d] = true ->
   kissCode (a * 2 ^ 24 + b * 2 ^ 16 + c * 2 ^ 8 + d)
   = String (ascii_of_N (Z.to_N a)) (String (ascii_of_N (Z.to_N b))
       (String (ascii_of_N (Z.to_N c)) (String (ascii_of_N (Z.to_N d))
          EmptyString))))
  /\ (forallb isPrintable [a; b; c; d] = false ->
      kissCode (a * 2 ^ 24 + b * 2 ^ 16 + c * 2 ^ 8 + d) = EmptyString).
Proof.
  intros Ha Hb Hc Hd.
  pose proof (PutUint32_bytes a b c d Ha Hb Hc Hd) as E.
  unfold Reference.PutUint32 in E. unfold kissCode. rewrite E.
  split; intros ->; reflexivity.
Qed.

Lemma kissCode_printable_witness :
  is_u8 0x52 /\ is_u8 0x41 /\ is_u8 0x54 /\ is_u8 0x45
  /\ kissCode (0x52 * 2 ^ 24 + 0x41 * 2 ^ 16 + 0x54 * 2 ^ 8 + 0x45)
     = "RATE"%string.
Proof.
  assert (H1 : is_u8 0x52) by (vm_compute; split; [discriminate|reflexivity]).
  assert (H2 : is_u8 0x41) by (vm_compute; split; [discriminate|reflexivity]).
  assert (H3 : is_u8 0x54) by (vm_compute; split; [discriminate|reflexivity]).
  assert (H4 : is_u8 0x45) by (vm_compute; split; [discriminate|reflexivity]).
  repeat (split; [assumption|]).
  exact (proj1 (kissCode_printable _ _ _ _ H1 H2 H3 H4) eq_refl).
Defined.

(** ** The era heuristic outside its window *)

(** [Time] after [toNtpTime], for any instant from 1900 up to 2^63 ns
    later: the seconds come back modulo 2^32, on the era the heuristic
    picks. *)
Lemma Time_toNtpTime t :
  0 <= t - ntpEra0 < 2 ^ 63 ->
  ntpTime.Time (toNtpTime t)
  = (if ((t - ntpEra0) / nanoPerSec) mod 2 ^ 32 <? 2208988800
     then ntpEra1 else ntpEra0)
    + ((t - ntpEra0) / nanoPerSec) mod 2 ^ 32 * nanoPerSec
    + (t - ntpEra0) mod nanoPerSec.
Proof.
  intros Hd. pose proof (toNtpTime_closed t Hd) as Ets.
  set (d := t - ntpEra0) in *. unfold nanoPerSec in *.
  set (s := (d / 1000000000) mod 2 ^ 32) in *.
  set (ns := d mod 1000000000) in *.
  assert (Hns : 0 <= ns < 1000000000)
    by (subst ns; apply Z.mod_pos_bound; lia).
  assert (Hs : 0 <= s < 2 ^ 32) by (subst s; apply Z.mod_pos_bound; lia).
  pose proof (round_frac_bounds ns Hns) as Hf.
  assert (Hu : 0 <= toNtpTime t < 2 ^ 64) by (rewrite Ets; nia).
  unfold ntpTime.Time, time.Add.
  change ntpTime.t1970 with (2208988800 * 2 ^ 32).
  rewrite Duration_round by exact Hu. rewrite Ets.
  pose proof (round_ns_round_frac s ns) as R. unfold nanoPerSec in R.
  rewrite R by lia.
  destruct (Z.ltb_spec (s * 2 ^ 32 + round_frac ns) (2208988800 * 2 ^ 32));
    destruct (Z.ltb_spec s 2208988800); nia.
Qed.

(** X8.  Outside the window the round trip is off by exactly one era of
    2^32 seconds: an instant from 1900 up to 1970 comes back 2^32 seconds
    later, and one from 2106-02-07 06:28:16 up to 2172-03-15 12:56:32
    comes back 2^32 seconds earlier. *)
Theorem round_trip_outside_window (t : Z) :
  (time.Date 1900 1 1 0 0 0 0 <= t < time.Date 1970 1 1 0 0 0 0 ->
   ntpTime.Time (toNtpTime t) = t + 2 ^ 32 * Second)
  /\ (time.Date 2106 2 7 6 28 16 0 <= t < time.Date 2172 3 15 12 56 32 0 ->
      ntpTime.Time (toNtpTime t) = t - 2 ^ 32 * Second).
Proof.
  change (time.Date 1900 1 1 0 0 0 0) with (- 2208988800000000000).
  change (time.Date 1970 1 1 0 0 0 0) with 0.
  change (time.Date 2106 2 7 6 28 16 0) with 4294967296000000000.
  change (time.Date 2172 3 15 12 56 32 0) with 6380945792000000000.
  split; intros Ht.
  - rewrite Time_toNtpTime by (rewrite ntpEra0_value; unfold nanoPerSec; lia).
    rewrite ntpEra1_value, ntpEra0_value. unfold nanoPerSec, Second.
    set (d := t - -2208988800 * 1000000000).
    assert (Hd : 0 <= d < 2208988800 * 1000000000) by (subst d; lia).
    assert (Hq : 0 <= d / 1000000000 < 2208988800)
      by (split; [apply Z.div_pos|apply Z.div_lt_upper_bound]; lia).
    rewrite (Z.mod_small (d / 1000000000)) by lia.
    destruct (Z.ltb_spec (d / 1000000000) 2208988800); [|lia].
    pose proof (Z.div_mod d 1000000000 ltac:(lia)). subst d. lia.
  - rewrite Time_toNtpTime by (rewrite ntpEra0_value; unfold nanoPerSec; lia).
    rewrite ntpEra0_value. unfold nanoPerSec, Second.
    set (d := t - -2208988800 * 1000000000).
    assert (Hd : (2 ^ 32 + 2208988800) * 1000000000 <= d
                 < 2 * 2 ^ 32 * 1000000000) by (subst d; lia).
    assert (Hq : 2 ^ 32 + 2208988800 <= d / 1000000000 < 2 * 2 ^ 32)
      by (split; [apply Z.div_le_lower_bound|apply Z.div_lt_upper_bound]; lia).
    assert (Em : (d / 1000000000) mod 2 ^ 32 = d / 1000000000 - 2 ^ 32).
    { symmetry. apply Z.mod_unique with (q := 1); lia. }
    rewrite Em.
    destruct (Z.ltb_spec (d / 1000000000 - 2 ^ 32) 2208988800); [lia|].
    pose proof (Z.div_mod d 1000000000 ltac:(lia)). subst d. lia.
Qed.

Lemma round_trip_outside_window_witness :
  time.Date 1900 1 1 0 0 0 0 <= time.Date 1969 7 20 20 17 40 0
    < time.Date 1970 1 1 0 0 0 0
  /\ ntpTime.Time (toNtpTime (time.Date 1969 7 20 20 17 40 0))
     = time.Date 1969 7 20 20 17 40 0 + 2 ^ 32 * Second.
Proof.
  assert (H : time.Date 1900 1 1 0 0 0 0 <= time.Date 1969 7 20 20 17 40 0
              < time.Date 1970 1 1 0 0 0 0)
    by (vm_compute; split; [discriminate|reflexivity]).
  split; [exact H|].
  exact (proj1 (round_trip_outside_window _) H).
Defined.

(** ** The validator, the packed byte, the wire *)

(** X9.  [Validate] accepts a response exactly when it carries no stored
    authentication failure, its stratum is neither 0 nor 16 or more, its
    reported time is at or after the reference time and at most 2^17 s
    after it, root delay / 2 + root dispersion (as the 64-bit duration sum)
    is at most 16 s, and the leap indicator is not 3. *)
Theorem Validate_accepts_iff (r : Response) :
  Resp.Validate r = None <->
  Resp.authErr r = None
  /\ Resp.Stratum r <> 0 /\ Resp.Stratum r < 16
  /\ 0 <= Resp.Time r - Resp.ReferenceTime r <= 2 ^ 17 * Second
  /\ s64 (Z.quot (Resp.RootDelay r) 2 + Resp.RootDispersion r) <= 16 * Second
  /\ Resp.Leap r <> 3.
Proof.
  rewrite Validate_rules. unfold validate_rules, first_error.
  destruct (Resp.authErr r) as [e|].
  { split; [discriminate|]. intros [K _]. discriminate. }
  destruct (Z.eqb_spec (Resp.Stratum r) 0).
  { split; [discriminate|]. intros (_ & K & _). contradiction. }
  destruct (Z.leb_spec 16 (Resp.Stratum r)).
  { split; [discriminate|]. intros (_ & _ & K & _). lia. }
  destruct (Z.ltb_spec (2 ^ 17 * Second)
              (Resp.Time r - Resp.ReferenceTime r)).
  { split; [discriminate|]. intros (_ & _ & _ & K & _). lia. }
  destruct (Z.ltb_spec (16 * Second)
              (s64 (Z.quot (Resp.RootDelay r) 2 + Resp.RootDispersion r))).
  { split; [discriminate|]. intros (_ & _ & _ & _ & K & _). lia. }
  destruct (Z.ltb_spec (Resp.Time r) (Resp.ReferenceTime r)).
  { split; [discriminate|]. intros (_ & _ & _ & K & _). lia. }
  destruct (Z.eqb_spec (Resp.Leap r) 3).
  { split; [discriminate|]. intros (_ & _ & _ & _ & _ & K). contradiction. }
  split; [|reflexivity]. intros _. repeat split; trivial; lia.
Qed.

Lemma Validate_accepts_iff_witness :
  Resp.authErr Sample.boundary_response = None
  /\ Resp.Validate Sample.boundary_response = None.
Proof.
  split; [reflexivity|].
  apply (proj2 (Validate_accepts_iff Sample.boundary_response)).
  vm_compute. repeat split; discriminate.
Defined.

(** X10.  Storing a mode, a version and a leap indicator one after the
    other, each in range, overwrites the whole byte: whatever it held, it
    becomes leap * 64 + version * 8 + mode, and the three getters return
    the three values.  The query header of version [v] therefore starts
    with the byte v * 8 + 3. *)
Theorem setters_compose (h : header) (md v li sent : Z) :
  is_u8 (Header.LiVnMode h) ->
  0 <= md <= 7 -> 0 <= v <= 7 -> 0 <= li <= 3 ->
  Header.LiVnMode
    (Header.setLeap (Header.setVersion (Header.setMode h md) v) li)
    = li * 64 + v * 8 + md
  /\ Header.getMode
       (Header.setLeap (Header.setVersion (Header.setMode h md) v) li) = md
  /\ Header.getVersion
       (Header.setLeap (Header.setVersion (Header.setMode h md) v) li) = v
  /\ Header.getLeap
       (Header.setLeap (Header.setVersion (Header.setMode h md) v) li) = li
  /\ Header.LiVnMode (query_header v sent) = v * 8 + 3.
Proof.
  intros Hx Hmd Hv Hli.
  assert (A : all_below 256 (fun x =>
                all_below 8 (fun md =>
                  all_below 8 (fun v =>
                    all_below 4 (fun li => packing_ok md v li x)))) = true)
    by (vm_compute; reflexivity).
  assert (P : forall x md v li, is_u8 x -> 0 <= md <= 7 -> 0 <= v <= 7 ->
                0 <= li <= 3 -> packing_ok md v li x = true).
  { intros x0 md0 v0 li0 H0 H1 H2 H3.
    pose proof (all_below_spec 256 _ A x0 H0) as A1. cbv beta in A1.
    pose proof (all_below_spec 8 _ A1 md0 ltac:(lia)) as A2. cbv beta in A2.
    pose proof (all_below_spec 8 _ A2 v0 ltac:(lia)) as A3. cbv beta in A3.
    exact (all_below_spec 4 _ A3 li0 ltac:(lia)). }
  destruct h as [x st po pr rd rdi ri rt ot rct tt].
  cbn [Header.LiVnMode] in Hx.
  pose proof (P x md v li Hx Hmd Hv Hli) as Q.
  unfold packing_ok in Q. cbv zeta in Q.
  rewrite !andb_true_iff, !Z.eqb_eq in Q.
  destruct Q as [[[Q1 Q2] Q3] Q4].
  split; [exact Q1|]. split; [exact Q2|]. split; [exact Q3|].
  split; [exact Q4|].
  pose proof (P 0 3 v 0 ltac:(unfold is_u8; lia) ltac:(lia) Hv ltac:(lia))
    as Q0.
  unfold packing_ok in Q0. cbv zeta in Q0.
  rewrite !andb_true_iff, !Z.eqb_eq in Q0.
  destruct Q0 as [[[Q0 _] _] _].
  unfold query_header. change client with 3. change LeapNoWarning with 0.
  cbn [Header.LiVnMode Header.with_TransmitTime Header.with_Precision].
  etransitivity; [exact Q0|]. lia.
Qed.

Lemma setters_compose_witness :
  is_u8 (Header.LiVnMode Sample.reply_header)
  /\ Header.LiVnMode
       (Header.setLeap
          (Header.setVersion (Header.setMode Sample.reply_header 3) 4) 0)
     = 0 * 64 + 4 * 8 + 3.
Proof.
  assert (H : is_u8 (Header.LiVnMode Sample.reply_header))
    by (vm_compute; split; [discriminate|reflexivity]).
  split; [exact H|].
  refine (proj1 (setters_compose Sample.reply_header 3 4 0 0 H _ _ _));
    split; discriminate.
Defined.

Lemma length_be_bytes n z : List.length (binary.be_bytes n z) = n.
Proof.
  revert z. induction n as [|n IH]; intros z; [reflexivity|].
  cbn [binary.be_bytes]. rewrite length_app, IH. cbn. lia.
Qed.

Lemma Z_of_byte_range b : 0 <= binary.Z_of_byte b < 256.
Proof.
  unfold binary.Z_of_byte. pose proof (Byte.to_N_bounded b). lia.
Qed.

Lemma be_uint_range bs :
  0 <= binary.be_uint bs < 256 ^ Z.of_nat (List.length bs).
Proof.
  induction bs as [|b bs IH] using rev_ind.
  - cbn. lia.
  - rewrite be_uint_snoc, length_app. cbn [List.length].
    replace (Z.of_nat (List.length bs + 1)) with (Z.succ (Z.of_nat (List.length bs)))
      by lia.
    rewrite Z.pow_succ_r by lia.
    pose proof (Z_of_byte_range b). nia.
Qed.

Lemma be_uint_slice_range bs off n :
  0 <= binary.be_uint (binary.slice bs off n) < 256 ^ Z.of_nat n.
Proof.
  pose proof (be_uint_range (binary.slice bs off n)) as R.
  assert (L : (List.length (binary.slice bs off n) <= n)%nat)
    by (unfold binary.slice; rewrite length_firstn; lia).
  assert (256 ^ Z.of_nat (List.length (binary.slice bs off n))
          <= 256 ^ Z.of_nat n) by (apply Z.pow_le_mono_r; lia).
  lia.
Qed.

Lemma Write_length h : List.length (binary.Write h) = 48%nat.
Proof.
  unfold binary.Write. rewrite !length_app, !length_be_bytes. reflexivity.
Qed.

(** What [binary.Read] decodes has every field inside the range of its
    type. *)
Lemma Read_wf buf h : binary.Read buf = inr h -> Header.wf h.
Proof.
  unfold binary.Read.
  destruct (List.length buf =? 0)%nat; [discriminate|].
  destruct (List.length buf <? binary.headerSize)%nat; [discriminate|].
  intros [= <-]. unfold binary.decode, Header.wf.
  cbn [Header.LiVnMode Header.Stratum Header.Poll Header.Precision
       Header.RootDelay Header.RootDispersion Header.ReferenceID
       Header.ReferenceTime Header.OriginTime Header.ReceiveTime
       Header.TransmitTime].
  unfold is_u8, is_s8, is_u32, is_u64.
  change (2 ^ 8) with (256 ^ Z.of_nat 1).
  change (2 ^ 32) with (256 ^ Z.of_nat 4).
  change (2 ^ 64) with (256 ^ Z.of_nat 8).
  repeat split; try apply be_uint_slice_range;
    unfold s8, swrap; change (8 - 1) with 7;
    match goal with
    | |- context [?a mod 2 ^ 8] =>
        pose proof (Z.mod_pos_bound a (2 ^ 8) ltac:(lia))
    end; lia.
Qed.

(** X11.  The header codec: [binary.Write] always produces 48 bytes; a
    header whose fields fit their Go types is read back unchanged, also
    when further bytes (extension fields, a MAC) follow it; and whatever
    [binary.Read] decodes has every field inside the range of its type. *)
Theorem header_wire_round_trip (h : header) (trailer buf : list byte) :
  List.length (binary.Write h) = 48%nat
  /\ (Header.wf h -> binary.Read (binary.Write h ++ trailer) = inr h)
  /\ (forall h', binary.Read buf = inr h' -> Header.wf h').
Proof.
  split; [apply Write_length|]. split.
  - intros Hwf.
    pose proof (Read_Write h Hwf) as E.
    unfold binary.Read, binary.headerSize in *.
    rewrite length_app, Write_length in *.
    cbn [Nat.eqb Nat.add Nat.ltb Nat.leb] in *.
    rewrite firstn_app, Write_length, Nat.sub_diag, firstn_O, app_nil_r.
    exact E.
  - intros h'. apply Read_wf.
Qed.

Lemma header_wire_round_trip_witness :
  Header.wf Sample.reply_header
  /\ binary.Read (binary.Write Sample.reply_header ++ [x00; x00; x00; x2a])
     = inr Sample.reply_header.
Proof.
  assert (H : Header.wf Sample.reply_header)
    by (vm_compute; repeat split; discriminate).
  split; [exact H|].
  exact (proj1 (proj2 (header_wire_round_trip Sample.reply_header
                         [x00; x00; x00; x2a] [])) H).
Defined.

(** ** The exchange as a whole *)

Lemma lor_u64 a b : is_u64 a -> is_u64 b -> is_u64 (Z.lor a b).
Proof.
  unfold is_u64. intros Ha Hb.
  assert (N : 0 <= Z.lor a b) by (apply Z.lor_nonneg; lia).
  split; [exact N|].
  destruct (Z.eq_dec (Z.lor a b) 0) as [->|Hne]; [lia|].
  apply Z.log2_lt_pow2; [lia|].
  rewrite Z.log2_lor by lia.
  assert (La : Z.log2 a < 64).
  { destruct (Z.eq_dec a 0) as [->|]; [cbn; lia|].
    apply Z.log2_lt_pow2; lia. }
  assert (Lb : Z.log2 b < 64).
  { destruct (Z.eq_dec b 0) as [->|]; [cbn; lia|].
    apply Z.log2_lt_pow2; lia. }
  lia.
Qed.

(** [toNtpTime] yields a 64-bit value on every instant. *)
Lemma toNtpTime_range t : is_u64 (toNtpTime t).
Proof.
  unfold toNtpTime. cbv zeta.
  set (n := u64 (Z.shiftl (u64 (u64 (time.Sub t ntpEra0)
              - u64 (u64 (time.Sub t ntpEra0) / nanoPerSec * nanoPerSec))) 32)).
  apply lor_u64; [apply u64_range|].
  pose proof (u64_range (Z.shiftl (u64 (u64 (time.Sub t ntpEra0)
              - u64 (u64 (time.Sub t ntpEra0) / nanoPerSec * nanoPerSec))) 32))
    as Hn. fold n in Hn.
  destruct (nanoPerSec / 2 <=? n mod nanoPerSec); [apply u64_range|].
  unfold is_u64, nanoPerSec. split.
  - apply Z.div_pos; lia.
  - apply Z.div_lt_upper_bound; lia.
Qed.

Lemma Duration_range t : is_u64 t -> 0 <= ntpTime.Duration t <= 2 ^ 32 * Second.
Proof.
  intros H. rewrite Duration_round by exact H. apply round_ns_bounds. exact H.
Qed.

Lemma getters_range (h : header) :
  is_u8 (Header.LiVnMode h) ->
  0 <= Header.getLeap h <= 3 /\ 0 <= Header.getVersion h <= 7
  /\ 0 <= Header.getMode h <= 7.
Proof.
  intros Hx. destruct h as [x st po pr rd rdi ri rt ot rct tt].
  cbn [Header.LiVnMode] in Hx.
  assert (L : layout_ok x = true).
  { apply (all_below_spec 256 layout_ok); [vm_compute; reflexivity|].
    exact Hx. }
  unfold layout_ok in L. cbv zeta in L.
  rewrite !andb_true_iff, Z.eqb_eq, !Z.ltb_lt in L.
  destruct L as [[[L1 L2] L3] L4].
  unfold Header.getLeap, Header.getVersion, Header.getMode in *.
  cbn [Header.LiVnMode Header.with_LiVnMode Header.new] in *.
  pose proof (Z.land_nonneg (Z.shiftr x 6) 3).
  pose proof (Z.land_nonneg (Z.shiftr x 3) 7).
  pose proof (Z.land_nonneg x 7).
  repeat split; lia.
Qed.

Section ExchangeOutcomes.

Context `{Auth_ : AuthSubsystem}.

Variables (w : World) (address : string) (opt : QueryOptions).

(** A nil header comes with an error and a zero timestamp. *)
Lemma getTime_nil_header now err :
  getTime w address opt = (None, now, err) -> now = 0 /\ err <> None.
Proof.
  unfold getTime. cbv zeta.
  match goal with
  | |- match ?run with inl _ => _ | inr _ => _ end = _ -> _ =>
      destruct run as [e|[[h n] a]]
  end; intros [= <- <-]; split; [reflexivity|discriminate].
Qed.

(** A header comes only out of a complete exchange. *)
Lemma getTime_success h now err :
  getTime w address opt = (Some h, now, err) ->
  exists sent key recvBuf reply,
    reply_decoded w address opt sent key recvBuf reply
    /\ first_error (structural_rules sent reply) = None
    /\ h = Header.with_OriginTime reply (toNtpTime (time_Now w))
    /\ now = toNtpTime (recvTime_of w)
    /\ err = verifyMAC recvBuf (Auth opt) key.
Proof.
  unfold getTime. cbv zeta.
  set (v := if Version opt =? 0 then defaultNtpVersion else Version opt).
  destruct ((v <? 2) || (4 <? v)) eqn:Ev; [discriminate|].
  apply orb_false_iff in Ev. destruct Ev as [Ev1 Ev2].
  apply Z.ltb_ge in Ev1, Ev2.
  destruct (fixHostPort address
              (if Port opt =? 0 then defaultNtpPort else Port opt))
    as [e|remoteAddress] eqn:Hfix; [discriminate|]. cbn [bind].
  match goal with
  | |- context [bind (?d (LocalAddress opt) remoteAddress) _] =>
      destruct (d (LocalAddress opt) remoteAddress) as [e|con] eqn:Hdial;
      [discriminate|]
  end. cbn [bind].
  assert (Httl : forall k : unit -> result (header * Z * option error),
             (exists e, bind (if TTL opt =? 0 then inr tt
                              else check (SetTTL con (TTL opt))) k = inl e)
             \/ ((TTL opt = 0 \/ SetTTL con (TTL opt) = None)
                 /\ bind (if TTL opt =? 0 then inr tt
                          else check (SetTTL con (TTL opt))) k = k tt)).
  { intros k. destruct (Z.eqb_spec (TTL opt) 0) as [E0|E0].
    - right. split; [left; exact E0|reflexivity].
    - destruct (SetTTL con (TTL opt)) as [e|] eqn:Es.
      + left. exists e. reflexivity.
      + right. split; [right; reflexivity|reflexivity]. }
  match goal with
  | |- context [bind (if TTL opt =? 0 then _ else _) ?k] =>
      destruct (Httl k) as [[e ->]|[Ht ->]]; [discriminate|]
  end.
  destruct (rand_Read w 8) as [e|bits] eqn:Hrand; [discriminate|]. cbn [bind].
  match goal with
  | |- context [bind (processQueries ?es ?b) _] =>
      destruct (processQueries es b) as [e|xmitBuf] eqn:Hq; [discriminate|]
  end. cbn [bind].
  destruct (decodeAuthKey (Auth opt)) as [e|key] eqn:Hkey; [discriminate|].
  cbn [bind].
  destruct (Write con (appendMAC xmitBuf (Auth opt) key)) as [e|] eqn:Hw;
    [discriminate|]. cbn [bind check].
  destruct (Read con) as [e|raw] eqn:Hr; [discriminate|]. cbn [bind].
  destruct (binary.Read (firstn (Z.to_nat 8192) raw)) as [e|reply] eqn:Hdec;
    [discriminate|]. cbn [bind].
  destruct (processResponses (rev (Extensions opt))
              (firstn (Z.to_nat 8192) raw)) as [e|[]] eqn:Hext;
    [discriminate|]. cbn [bind].
  cbn [Header.TransmitTime Header.with_TransmitTime].
  destruct (negb (Header.getMode reply =? server)) eqn:C1; [discriminate|].
  destruct (Header.TransmitTime reply =? 0) eqn:C2; [discriminate|].
  destruct (negb (Header.OriginTime reply
                  =? binary.BigEndian_Uint64 bits)) eqn:C3; [discriminate|].
  destruct (Header.TransmitTime reply <? Header.ReceiveTime reply) eqn:C4;
    [discriminate|].
  intros [= <- <- <-].
  exists (binary.BigEndian_Uint64 bits), key, (firstn (Z.to_nat 8192) raw),
    reply.
  split; [|split; [|split; [|split]]]; try reflexivity.
  - split; [|split; [exact Hdec|exact Hext]].
    split; [unfold version_of; fold v; lia|].
    exists remoteAddress, con, bits, xmitBuf, raw.
    unfold port_of, dialer_of, query_header.
    repeat split; try assumption; try reflexivity.
  - unfold structural_rules, first_error. change server with 4 in C1.
    now rewrite C1, C2, C3, C4.
Qed.

(** X12.  A protocol version other than 0, 2, 3 or 4 is refused with
    [ErrInvalidProtocolVersion] whatever the world would answer, so before
    any address is examined or connection made; version 0 stands for 4 and
    port 0 for 123. *)
Theorem getTime_version_and_defaults :
  (Version opt <> 0 -> Version opt < 2 \/ 4 < Version opt ->
   getTime w address opt = (None, 0, Some ErrInvalidProtocolVersion)
   /\ QueryWithOptions w address opt
      = Returned None (Some ErrInvalidProtocolVersion))
  /\ (Version opt = 0 ->
      getTime w address opt
      = getTime w address
          {| Timeout := Timeout opt; Version := 4;
             LocalAddress := LocalAddress opt; TTL := TTL opt;
             Auth := Auth opt; Extensions := Extensions opt;
             Dialer := Dialer opt; Dial := Dial opt; Port := Port opt |})
  /\ (Port opt = 0 ->
      getTime w address opt
      = getTime w address
          {| Timeout := Timeout opt; Version := Version opt;
             LocalAddress := LocalAddress opt; TTL := TTL opt;
             Auth := Auth opt; Extensions := Extensions opt;
             Dialer := Dialer opt; Dial := Dial opt; Port := 123 |}).
Proof.
  split; [|split].
  - intros H0 Hv.
    assert (E : getTime w address opt
                = (None, 0, Some ErrInvalidProtocolVersion)).
    { unfold getTime. cbv zeta.
      destruct (Z.eqb_spec (Version opt) 0); [contradiction|].
      destruct (Z.ltb_spec (Version opt) 2), (Z.ltb_spec 4 (Version opt));
        try reflexivity; lia. }
    split; [exact E|].
    eapply QueryWithOptions_error; [exact E|discriminate].
  - intros H0. unfold getTime. cbn [Version Port Dial Dialer LocalAddress TTL
                                    Extensions Auth].
    rewrite H0. reflexivity.
  - intros H0. unfold getTime. cbn [Version Port Dial Dialer LocalAddress TTL
                                    Extensions Auth].
    rewrite H0. reflexivity.
Qed.

(** X14.  [QueryWithOptions] returns either a response and no error, or no
    response and an error, never both and never neither.  A returned
    response is the one generated from the header and timestamp of
    [getTime], and what it stores as authentication failure is nothing or
    [ErrAuthFailed]; a returned error is the error of [getTime] and is
    never [ErrAuthFailed]; and the call panics only when [getTime] hands
    back [ErrAuthFailed] without a header. *)
Theorem QueryWithOptions_outcomes :
  match QueryWithOptions w address opt with
  | Returned (Some r) None =>
      (Resp.authErr r = None \/ Resp.authErr r = Some ErrAuthFailed)
      /\ exists h now,
           getTime w address opt = (Some h, now, Resp.authErr r)
           /\ r = generateResponse h now (Resp.authErr r)
  | Returned None (Some e) =>
      e <> ErrAuthFailed
      /\ exists h now, getTime w address opt = (h, now, Some e)
  | Returned (Some _) (Some _) => False
  | Returned None None => False
  | Panicked => getTime w address opt = (None, 0, Some ErrAuthFailed)
  end.
Proof.
  unfold QueryWithOptions.
  destruct (getTime w address opt) as [[h now] err] eqn:E.
  destruct err as [e|].
  - destruct (error_eqb e ErrAuthFailed) eqn:Ee; cbn [negb].
    + apply error_eqb_eq in Ee. subst e.
      destruct h as [h|].
      * split; [right; reflexivity|]. exists h, now. split; reflexivity.
      * apply getTime_nil_header in E. destruct E as [-> _]. reflexivity.
    + split.
      * intros ->. cbn in Ee. discriminate.
      * exists h, now. reflexivity.
  - cbn [negb]. destruct h as [h|].
    + split; [left; reflexivity|]. exists h, now. split; reflexivity.
    + apply getTime_nil_header in E. destruct E as [_ C]. now contradiction C.
Qed.

End ExchangeOutcomes.

Lemma Time_range t :
  is_u64 t ->
  time.Date 1970 1 1 0 0 0 0 <= ntpTime.Time t
    <= time.Date 2106 2 7 6 28 16 0.
Proof.
  unfold is_u64. intros Ht.
  change (time.Date 1970 1 1 0 0 0 0) with 0.
  change (time.Date 2106 2 7 6 28 16 0) with 4294967296000000000.
  unfold ntpTime.Time, time.Add.
  change ntpTime.t1970 with (2208988800 * 2 ^ 32).
  rewrite Duration_round by exact Ht.
  pose proof (round_ns_bounds t Ht) as B.
  rewrite ntpEra1_value, ntpEra0_value. unfold nanoPerSec in *.
  destruct (Z.ltb_spec t (2208988800 * 2 ^ 32)).
  - pose proof (round_ns_monotone t (2208988800 * 2 ^ 32) ltac:(lia)) as M.
    change (round_ns (2208988800 * 2 ^ 32)) with 2208988800000000000 in M.
    lia.
  - pose proof (round_ns_monotone (2208988800 * 2 ^ 32) t ltac:(lia)) as M.
    change (round_ns (2208988800 * 2 ^ 32)) with 2208988800000000000 in M.
    lia.
Qed.

Lemma offset_range org rec xmt dst :
  - (2 ^ 31 * Second) <= offset org rec xmt dst <= 2 ^ 31 * Second.
Proof.
  unfold offset.
  set (o := s64 (s64 (u64 (rec - org))
                 + Z.quot (s64 (s64 (u64 (xmt - dst))
                                - s64 (u64 (rec - org)))) 2)).
  pose proof (s64_range (s64 (u64 (rec - org))
                 + Z.quot (s64 (s64 (u64 (xmt - dst))
                                - s64 (u64 (rec - org)))) 2)) as Ho.
  fold o in Ho.
  assert (R : forall m, 0 <= m <= 2 ^ 63 ->
                0 <= round_ns m <= 2 ^ 31 * Second).
  { intros m Hm. pose proof (round_ns_bounds m ltac:(lia)).
    pose proof (round_ns_monotone m (2 ^ 63) ltac:(lia)) as M.
    change (round_ns (2 ^ 63)) with (2 ^ 31 * Second) in M. lia. }
  destruct (Z.ltb_spec o 0).
  - rewrite u64_neg_s64 by lia. rewrite Duration_round by lia.
    pose proof (R (- o) ltac:(lia)) as B. unfold Second in *.
    rewrite s64_small by lia. lia.
  - rewrite u64_small by lia. rewrite Duration_round by lia.
    pose proof (R o ltac:(lia)). lia.
Qed.

(** The fields [generateResponse] computes from a header whose fields fit
    their types. *)
Lemma generateResponse_invariants (h : header) (now : Z) (e : option error) :
  Header.wf h ->
  let r := generateResponse h now e in
  0 <= Resp.RTT r <= 2 ^ 32 * Second
  /\ 0 <= Resp.MinError r <= 2 ^ 32 * Second
  /\ - (2 ^ 31 * Second) <= Resp.ClockOffset r <= 2 ^ 31 * Second
  /\ 0 <= Resp.RootDelay r <= 2 ^ 16 * Second
  /\ 0 <= Resp.RootDispersion r <= 2 ^ 16 * Second
  /\ Resp.RootDistance r
     = Z.quot (Resp.RTT r + Resp.RootDelay r) 2 + Resp.RootDispersion r
  /\ Resp.RootDispersion r <= Resp.RootDistance r
  /\ is_s64 (Z.quot (Resp.RootDelay r) 2 + Resp.RootDispersion r)
  /\ time.Date 1970 1 1 0 0 0 0 <= Resp.Time r
       <= time.Date 2106 2 7 6 28 16 0
  /\ time.Date 1970 1 1 0 0 0 0 <= Resp.ReferenceTime r
       <= time.Date 2106 2 7 6 28 16 0
  /\ 0 <= Resp.Stratum r <= 255
  /\ 0 <= Resp.Version r <= 7
  /\ 0 <= Resp.Leap r <= 3
  /\ Resp.KissCode r
     = (if Resp.Stratum r =? 0 then kissCode (Resp.ReferenceID r)
        else EmptyString)
  /\ Resp.authErr r = e.
Proof.
  intros (H1 & H2 & H3 & H4 & H5 & H6 & H7 & H8 & H9 & H10 & H11) r.
  subst r. unfold generateResponse.
  cbn [Resp.RTT Resp.MinError Resp.ClockOffset Resp.RootDelay
       Resp.RootDispersion Resp.RootDistance Resp.Time Resp.ReferenceTime
       Resp.Stratum Resp.Version Resp.Leap Resp.KissCode Resp.ReferenceID
       Resp.authErr].
  assert (Brtt : 0 <= rtt (Header.OriginTime h) (Header.ReceiveTime h)
                        (Header.TransmitTime h) now <= 2 ^ 32 * Second).
  { unfold rtt. apply Duration_range. apply u64_range. }
  assert (Bmin : 0 <= minError (Header.OriginTime h) (Header.ReceiveTime h)
                        (Header.TransmitTime h) now <= 2 ^ 32 * Second).
  { unfold minError.
    destruct (_ <? _); apply Duration_range;
      match goal with
      | |- is_u64 (if ?c then _ else _) =>
          destruct c; [apply u64_range|unfold is_u64; lia]
      end. }
  pose proof (ShortDuration_bounds _ H5) as Bd.
  pose proof (ShortDuration_bounds _ H6) as Bp.
  pose proof (getters_range h H1) as (Gl & Gv & Gm).
  unfold Second, nanoPerSec in *.
  assert (Erd : rootDistance
                  (rtt (Header.OriginTime h) (Header.ReceiveTime h)
                       (Header.TransmitTime h) now)
                  (ntpTimeShort.Duration (Header.RootDelay h))
                  (ntpTimeShort.Duration (Header.RootDispersion h))
                = Z.quot (rtt (Header.OriginTime h) (Header.ReceiveTime h)
                              (Header.TransmitTime h) now
                          + ntpTimeShort.Duration (Header.RootDelay h)) 2
                  + ntpTimeShort.Duration (Header.RootDispersion h)).
  { unfold rootDistance.
    rewrite (s64_small (rtt (Header.OriginTime h) (Header.ReceiveTime h)
                            (Header.TransmitTime h) now
                        + ntpTimeShort.Duration (Header.RootDelay h)))
      by lia.
    apply s64_small. Z.to_euclidean_division_equations. lia. }
  split; [exact Brtt|]. split; [exact Bmin|].
  split; [apply offset_range|].
  split; [exact Bd|]. split; [exact Bp|].
  split; [exact Erd|].
  split; [rewrite Erd; Z.to_euclidean_division_equations; lia|].
  split; [unfold is_s64; Z.to_euclidean_division_equations; lia|].
  split; [apply Time_range; exact H11|].
  split; [apply Time_range; exact H8|].
  unfold is_u8 in H2.
  split; [lia|]. split; [exact Gv|]. split; [exact Gl|].
  split; reflexivity.
Qed.

Section ExchangeResults.

Context `{Auth_ : AuthSubsystem}.

Variables (w : World) (address : string) (opt : QueryOptions).

Lemma QueryWithOptions_response r :
  QueryWithOptions w address opt = Returned (Some r) None ->
  exists reply,
    Header.wf reply
    /\ Header.getMode reply = server
    /\ Header.TransmitTime reply <> 0
    /\ Header.ReceiveTime reply <= Header.TransmitTime reply
    /\ r = generateResponse
             (Header.with_OriginTime reply (toNtpTime (time_Now w)))
             (toNtpTime (recvTime_of w)) (Resp.authErr r).
Proof.
  unfold QueryWithOptions.
  destruct (getTime w address opt) as [[h now] err] eqn:E.
  destruct (negb _); [discriminate|].
  destruct h as [h|]; [|discriminate].
  intros [= <-].
  apply getTime_success in E.
  destruct E as (sent & key & buf & reply & (_ & Hdec & _) & Hrules
                 & -> & -> & ->).
  exists reply. split; [eapply Read_wf; exact Hdec|].
  unfold structural_rules, first_error in Hrules. change server with 4.
  destruct (Header.getMode reply =? 4) eqn:C1; cbn [negb] in Hrules;
    [|discriminate].
  destruct (Header.TransmitTime reply =? 0) eqn:C2; [discriminate|].
  destruct (negb (Header.OriginTime reply =? sent)); [discriminate|].
  destruct (Header.TransmitTime reply <? Header.ReceiveTime reply) eqn:C4;
    [discriminate|].
  apply Z.eqb_eq in C1. apply Z.eqb_neq in C2. apply Z.ltb_ge in C4.
  repeat split; trivial.
Qed.

(** X15.  Every response [QueryWithOptions] returns is generated from a
    reply in server mode with a nonzero transmit timestamp not before its
    receive timestamp, with the true send instant in place of the random
    origin.  Its round-trip time and minimum error lie between 0 and 2^32
    s, its clock offset within 2^31 s, root delay and dispersion between
    0 and 2^16 s; its root distance is (RTT + root delay) / 2 + root
    dispersion with nothing wrapping; the validator's dispersion sum
    cannot overflow; its two instants lie between 1970-01-01 and
    2106-02-07 06:28:16 UTC; version is 0..7 and leap 0..3; and the kiss
    code is set only at stratum 0. *)
Theorem returned_response_invariants (r : Response) :
  QueryWithOptions w address opt = Returned (Some r) None ->
  (exists reply,
     Header.getMode reply = server
     /\ Header.TransmitTime reply <> 0
     /\ Header.ReceiveTime reply <= Header.TransmitTime reply
     /\ r = generateResponse
              (Header.with_OriginTime reply (toNtpTime (time_Now w)))
              (toNtpTime (recvTime_of w)) (Resp.authErr r))
  /\ 0 <= Resp.RTT r <= 2 ^ 32 * Second
  /\ 0 <= Resp.MinError r <= 2 ^ 32 * Second
  /\ - (2 ^ 31 * Second) <= Resp.ClockOffset r <= 2 ^ 31 * Second
  /\ 0 <= Resp.RootDelay r <= 2 ^ 16 * Second
  /\ 0 <= Resp.RootDispersion r <= 2 ^ 16 * Second
  /\ Resp.RootDistance r
     = Z.quot (Resp.RTT r + Resp.RootDelay r) 2 + Resp.RootDispersion r
  /\ Resp.RootDispersion r <= Resp.RootDistance r
  /\ is_s64 (Z.quot (Resp.RootDelay r) 2 + Resp.RootDispersion r)
  /\ time.Date 1970 1 1 0 0 0 0 <= Resp.Time r
       <= time.Date 2106 2 7 6 28 16 0
  /\ time.Date 1970 1 1 0 0 0 0 <= Resp.ReferenceTime r
       <= time.Date 2106 2 7 6 28 16 0
  /\ 0 <= Resp.Stratum r <= 255
  /\ 0 <= Resp.Version r <= 7
  /\ 0 <= Resp.Leap r <= 3
  /\ Resp.KissCode r
     = (if Resp.Stratum r =? 0 then kissCode (Resp.ReferenceID r)
        else EmptyString).
Proof.
  intros Hq.
  destruct (QueryWithOptions_response r Hq) as (reply & Hwf & Hm & Ht & Ho & Er).
  split; [exists reply; repeat split; assumption|].
  assert (Hwf' : Header.wf
                   (Header.with_OriginTime reply (toNtpTime (time_Now w)))).
  { destruct Hwf as (H1 & H2 & H3 & H4 & H5 & H6 & H7 & H8 & H9 & H10 & H11).
    unfold Header.wf. cbn.
    repeat split; try apply H1; try apply H2; try apply H3; try apply H4;
      try apply H5; try apply H6; try apply H7; try apply H8;
      try apply H10; try apply H11; apply toNtpTime_range. }
  pose proof (generateResponse_invariants _ (toNtpTime (recvTime_of w))
                (Resp.authErr r) Hwf') as I.
  cbv zeta in I. rewrite <- Er in I.
  destruct I as (I1 & I2 & I3 & I4 & I5 & I6 & I7 & I8 & I9 & I10 & I11
                 & I12 & I13 & I14 & _).
  repeat (split; [assumption|]). assumption.
Qed.

(** X13.  Extensions process the query in the order they are listed, each
    on the buffer its predecessors left, and process the response in the
    reverse order: a response hook that refuses, with every extension
    listed after it accepting, decides the outcome of the exchange,
    whatever the extensions listed before it and the header checks would
    say. *)
Theorem extension_hook_order :
  (forall es1 es2 buf,
      processQueries (es1 ++ es2) buf
      = bind (processQueries es1 buf) (processQueries es2))
  /\ (forall es1 e es2 buf err,
      Forall (fun x => ProcessResponse x buf = None) es2 ->
      ProcessResponse e buf = Some err ->
      processResponses (rev (es1 ++ e :: es2)) buf = inl err)
  /\ (forall sent key buf reply es1 e es2 err,
      reply_received w address opt sent key buf ->
      binary.Read buf = inr reply ->
      Extensions opt = es1 ++ e :: es2 ->
      Forall (fun x => ProcessResponse x buf = None) es2 ->
      ProcessResponse e buf = Some err ->
      getTime w address opt = (None, 0, Some err)).
Proof.
  assert (A : forall es1 es2 buf,
             processQueries (es1 ++ es2) buf
             = bind (processQueries es1 buf) (processQueries es2)).
  { induction es1 as [|x es1 IH]; intros es2 buf; [reflexivity|].
    cbn [app processQueries].
    destruct (ProcessQuery x buf) as [e|b]; [reflexivity|]. cbn [bind].
    apply IH. }
  assert (R : forall es buf rest,
             Forall (fun x => ProcessResponse x buf = None) es ->
             processResponses (rev es ++ rest) buf
             = processResponses rest buf).
  { induction es as [|x es IH]; intros buf rest F; [reflexivity|].
    inversion F as [|? ? Hx Hes]; subst.
    cbn [rev]. rewrite <- app_assoc. rewrite IH by exact Hes.
    cbn [app processResponses]. rewrite Hx. reflexivity. }
  assert (B : forall es1 e es2 buf err,
             Forall (fun x => ProcessResponse x buf = None) es2 ->
             ProcessResponse e buf = Some err ->
             processResponses (rev (es1 ++ e :: es2)) buf = inl err).
  { intros es1 e es2 buf err F He.
    rewrite rev_app_distr. cbn [rev]. rewrite <- !app_assoc.
    rewrite R by exact F. cbn [app processResponses]. rewrite He.
    reflexivity. }
  split; [exact A|]. split; [exact B|].
  intros sent key buf reply es1 e es2 err Hrecv Hdec Hes F He.
  rewrite (getTime_after_read w address opt _ _ _ Hrecv).
  unfold after_read. rewrite Hdec. cbn [bind].
  rewrite Hes, (B es1 e es2 buf err F He). reflexivity.
Qed.

End ExchangeResults.

Lemma getTime_version_and_defaults_witness :
  Version (sample_options_version 5) <> 0
  /\ (Version (sample_options_version 5) < 2
      \/ 4 < Version (sample_options_version 5))
  /\ @getTime Sample.rejecting (Sample.world []) Sample.address
       (sample_options_version 5)
     = (None, 0, Some ErrInvalidProtocolVersion).
Proof.
  assert (H0 : Version (sample_options_version 5) <> 0) by discriminate.
  assert (H1 : Version (sample_options_version 5) < 2
               \/ 4 < Version (sample_options_version 5))
    by (right; reflexivity).
  split; [exact H0|]. split; [exact H1|].
  exact (proj1 (proj1 (@getTime_version_and_defaults Sample.rejecting
                         (Sample.world []) Sample.address
                         (sample_options_version 5)) H0 H1)).
Defined.

Lemma returned_response_invariants_witness :
  @QueryWithOptions Sample.rejecting
    (Sample.world (binary.Write Sample.reply_header))
    Sample.address Sample.options
  = Returned
      (Some (generateResponse
               (Header.with_OriginTime Sample.reply_header
                  (toNtpTime (time.Date 2024 1 1 0 0 0 0)))
               (toNtpTime (time.Date 2024 1 1 0 0 0 20000000))
               (Some ErrAuthFailed)))
      None
  /\ 0 <= Resp.RTT
            (generateResponse
               (Header.with_OriginTime Sample.reply_header
                  (toNtpTime (time.Date 2024 1 1 0 0 0 0)))
               (toNtpTime (time.Date 2024 1 1 0 0 0 20000000))
               (Some ErrAuthFailed))
       <= 2 ^ 32 * Second.
Proof.
  assert (H : @QueryWithOptions Sample.rejecting
                (Sample.world (binary.Write Sample.reply_header))
                Sample.address Sample.options
              = Returned
                  (Some (generateResponse
                           (Header.with_OriginTime Sample.reply_header
                              (toNtpTime (time.Date 2024 1 1 0 0 0 0)))
                           (toNtpTime (time.Date 2024 1 1 0 0 0 20000000))
                           (Some ErrAuthFailed)))
                  None) by (vm_compute; reflexivity).
  split; [exact H|].
  exact (proj1 (proj2 (@returned_response_invariants Sample.rejecting
                         _ _ _ _ H))).
Defined.

Lemma hooks_reply_received (datagram : list byte) :
  (List.length datagram <= 48)%nat ->
  @reply_received Sample.rejecting (Sample.world datagram) Sample.address
    SampleHooks.options Sample.sent tt datagram.
Proof.
  intros Hlen. split; [vm_compute; split; discriminate|].
  exists "time.example.org:123"%string, (Sample.conn datagram), Sample.bits,
    (binary.Write (query_header 3 Sample.sent) ++ [xff]), datagram.
  repeat split; try reflexivity.
  - left. reflexivity.
  - cbn [Read Sample.conn]. symmetry. apply firstn_all2. lia.
Defined.

Lemma extension_hook_order_witness :
  Extensions SampleHooks.options
  = [] ++ SampleHooks.refusing :: [SampleHooks.tagging]
  /\ @getTime Sample.rejecting
       (Sample.world (binary.Write Sample.reply_header)) Sample.address
       SampleHooks.options
     = (None, 0, Some (ExternalError "refused"%string)).
Proof.
  split; [reflexivity|].
  refine (proj2 (proj2 (@extension_hook_order Sample.rejecting
                          (Sample.world (binary.Write Sample.reply_header))
                          Sample.address SampleHooks.options))
            Sample.sent tt (binary.Write Sample.reply_header)
            Sample.reply_header [] SampleHooks.refusing
            [SampleHooks.tagging] (ExternalError "refused"%string)
            _ _ _ _ _).
  - apply hooks_reply_received. reflexivity.
  - reflexivity.
  - reflexivity.
  - repeat constructor.
  - reflexivity.
Defined.

(** ** Reference identifiers *)

(** X16.  [ReferenceString] by stratum, for the identifier whose four
    big-endian bytes are a, b, c, d: at stratum 0 it is the kiss code; at
    stratum 1 it is the clock name between two dots, ending at the first
    zero byte, so a three-letter name padded with a zero reads as its
    three letters and four printable bytes read as themselves; at any
    other stratum it is the dotted decimal a.b.c.d. *)
Theorem ReferenceString_by_stratum (r : Response) (a b c d : Z) :
  is_u8 a -> is_u8 b -> is_u8 c -> is_u8 d ->
  Resp.ReferenceID r = a * 2 ^ 24 + b * 2 ^ 16 + c * 2 ^ 8 + d ->
  (Resp.Stratum r = 0 ->
   Reference.ReferenceString r = kissCode (Resp.ReferenceID r))
  /\ (Resp.Stratum r = 1 ->
      forallb isPrintable [a; b; c; d] = true ->
      Reference.ReferenceString r
      = String "." (String (ascii_of_N (Z.to_N a))
          (String (ascii_of_N (Z.to_N b)) (String (ascii_of_N (Z.to_N c))
             (String (ascii_of_N (Z.to_N d)) (String "." EmptyString))))))
  /\ (Resp.Stratum r = 1 ->
      forallb isPrintable [a; b; c] = true -> d = 0 ->
      Reference.ReferenceString r
      = String "." (String (ascii_of_N (Z.to_N a))
          (String (ascii_of_N (Z.to_N b)) (String (ascii_of_N (Z.to_N c))
             (String "." EmptyString)))))
  /\ (Resp.Stratum r = 1 -> a = 0 ->
      Reference.ReferenceString r = ".."%string)
  /\ (Resp.Stratum r <> 0 -> Resp.Stratum r <> 1 ->
      Reference.ReferenceString r
      = (strings.itoa a ++ "." ++ strings.itoa b ++ "."
         ++ strings.itoa c ++ "." ++ strings.itoa d)%string).
Proof.
  intros Ha Hb Hc Hd Hid.
  pose proof (PutUint32_bytes a b c d Ha Hb Hc Hd) as E. rewrite <- Hid in E.
  unfold Reference.ReferenceString.
  split; [|split; [|split; [|split]]].
  - intros ->. reflexivity.
  - intros -> Hp. cbn [Z.eqb]. rewrite E.
    cbn [forallb] in Hp. rewrite !andb_true_iff in Hp.
    destruct Hp as (Pa & Pb & Pc & Pd & _).
    unfold isPrintable in *. cbn [Reference.clockName].
    rewrite Pa, Pb, Pc, Pd.
    assert (Z : forall x, (32 <=? x) && (x <=? 126) = true -> (x =? 0) = false).
    { intros x Hx. apply andb_true_iff in Hx. destruct Hx as [Hx _].
      apply Z.leb_le in Hx. apply Z.eqb_neq. lia. }
    rewrite (Z a Pa), (Z b Pb), (Z c Pc), (Z d Pd). reflexivity.
  - intros -> Hp ->. cbn [Z.eqb]. rewrite E.
    cbn [forallb] in Hp. rewrite !andb_true_iff in Hp.
    destruct Hp as (Pa & Pb & Pc & _).
    unfold isPrintable in *. cbn [Reference.clockName].
    rewrite Pa, Pb, Pc.
    assert (Z : forall x, (32 <=? x) && (x <=? 126) = true -> (x =? 0) = false).
    { intros x Hx. apply andb_true_iff in Hx. destruct Hx as [Hx _].
      apply Z.leb_le in Hx. apply Z.eqb_neq. lia. }
    rewrite (Z a Pa), (Z b Pb), (Z c Pc). reflexivity.
  - intros -> ->. cbn [Z.eqb]. rewrite E. reflexivity.
  - intros H0 H1.
    destruct (Z.eqb_spec (Resp.Stratum r) 0); [contradiction|].
    destruct (Z.eqb_spec (Resp.Stratum r) 1); [contradiction|].
    rewrite E. reflexivity.
Qed.

Lemma ReferenceString_by_stratum_witness :
  Reference.ReferenceString
    (sample_reference 1 (0x47 * 2 ^ 24 + 0x50 * 2 ^ 16 + 0x53 * 2 ^ 8 + 0))
  = ".GPS."%string
  /\ Reference.ReferenceString
       (sample_reference 2 (192 * 2 ^ 24 + 168 * 2 ^ 16 + 0 * 2 ^ 8 + 1))
     = "192.168.0.1"%string.
Proof.
  assert (U : forall x, 0 <= x -> x < 256 -> is_u8 x)
    by (intros x H0 H1; split; [exact H0|exact H1]).
  split.
  - refine (proj1 (proj2 (proj2
              (ReferenceString_by_stratum
                 (sample_reference 1
                    (0x47 * 2 ^ 24 + 0x50 * 2 ^ 16 + 0x53 * 2 ^ 8 + 0))
                 0x47 0x50 0x53 0 _ _ _ _ eq_refl))) eq_refl eq_refl eq_refl);
      apply U; (discriminate || reflexivity).
  - refine (proj2 (proj2 (proj2 (proj2
              (ReferenceString_by_stratum
                 (sample_reference 2
                    (192 * 2 ^ 24 + 168 * 2 ^ 16 + 0 * 2 ^ 8 + 1))
                 192 168 0 1 _ _ _ _ eq_refl)))) _ _);
      try (apply U; (discriminate || reflexivity)); discriminate.
Defined.

(** ** [Query] and [Time] *)

Section TopLevelFacts.

Context `{Auth_ : AuthSubsystem}.

Variables (noAuth : AuthOptions) (w : World) (now : Z) (address : string).

(** X17.  [Time] returns a corrected clock reading, the local time plus
    the clock offset, exactly when [Query] returned a response that
    [Validate] accepts; every error, from the exchange or from the
    validator, comes back with the uncorrected local time; and a response
    that stores an authentication failure is never used to correct the
    clock. *)
Theorem Time_corrects_only_valid (t : Z) :
  (Time noAuth w now address = Returned (Some t) None <->
   exists r, Query noAuth w address = Returned (Some r) None
             /\ Resp.Validate r = None
             /\ t = now + Resp.ClockOffset r)
  /\ (forall e, Time noAuth w now address = Returned (Some t) (Some e) ->
      t = now)
  /\ (forall r e, Query noAuth w address = Returned (Some r) None ->
      Resp.authErr r = Some e ->
      Time noAuth w now address = Returned (Some now) (Some e)).
Proof.
  unfold Time. split; [|split].
  - split.
    + destruct (Query noAuth w address) as [[r|] [e|]|]; try discriminate.
      destruct (Resp.Validate r) eqn:V; [discriminate|].
      intros [= <-]. exists r. repeat split; trivial.
    + intros (r & -> & -> & ->). reflexivity.
  - intros e.
    destruct (Query noAuth w address) as [[r|] [e'|]|]; try discriminate;
      try (intros [= <- _]; reflexivity).
    destruct (Resp.Validate r); [|discriminate].
    intros [= <- _]. reflexivity.
  - intros r e -> Ha. unfold Resp.Validate. rewrite Ha. reflexivity.
Qed.

End TopLevelFacts.

Lemma Time_corrects_only_valid_witness :
  exists r,
    @Query Sample.rejecting tt
      (Sample.world (binary.Write Sample.reply_header)) Sample.address
    = Returned (Some r) None
    /\ Resp.authErr r = Some ErrAuthFailed
    /\ @Time Sample.rejecting tt
         (Sample.world (binary.Write Sample.reply_header))
         (time.Date 2024 1 1 0 0 1 0) Sample.address
       = Returned (Some (time.Date 2024 1 1 0 0 1 0)) (Some ErrAuthFailed).
Proof.
  exists (generateResponse
            (Header.with_OriginTime Sample.reply_header
               (toNtpTime (time.Date 2024 1 1 0 0 0 0)))
            (toNtpTime (time.Date 2024 1 1 0 0 0 20000000))
            (Some ErrAuthFailed)).
  assert (Hq : @Query Sample.rejecting tt
                 (Sample.world (binary.Write Sample.reply_header))
                 Sample.address
               = Returned
                   (Some (generateResponse
                            (Header.with_OriginTime Sample.reply_header
                               (toNtpTime (time.Date 2024 1 1 0 0 0 0)))
                            (toNtpTime (time.Date 2024 1 1 0 0 0 20000000))
                            (Some ErrAuthFailed)))
                   None) by (vm_compute; reflexivity).
  split; [exact Hq|]. split; [reflexivity|].
  exact (proj2 (proj2 (@Time_corrects_only_valid Sample.rejecting tt
                         (Sample.world (binary.Write Sample.reply_header))
                         (time.Date 2024 1 1 0 0 1 0) Sample.address 0))
           _ _ Hq eq_refl).
Defined.

(** ** Address strings *)

Lemma len_append s1 s2 :
  strings.len (s1 ++ s2) = strings.len s1 + strings.len s2.
Proof.
  unfold strings.len. induction s1 as [|a s1 IH]; cbn [String.append String.length].
  - lia.
  - rewrite !Nat2Z.inj_succ. lia.
Qed.

Lemma len_nonneg s : 0 <= strings.len s.
Proof. unfold strings.len. lia. Qed.

Lemma count_byte_append c s1 s2 :
  count_byte c (s1 ++ s2) = (count_byte c s1 + count_byte c s2)%nat.
Proof.
  induction s1 as [|a s1 IH]; cbn [String.append count_byte]; [reflexivity|].
  rewrite IH. lia.
Qed.

Lemma IndexByte_from_none c s i :
  count_byte c s = O -> strings.IndexByte_from s c i = -1.
Proof.
  revert i. induction s as [|a s IH]; intros i H; [reflexivity|].
  cbn [count_byte strings.IndexByte_from] in *.
  destruct (Ascii.eqb a c); [discriminate|]. apply IH. exact H.
Qed.

Lemma IndexByte_from_first c pre post i :
  count_byte c pre = O ->
  strings.IndexByte_from (pre ++ String c post) c i = i + strings.len pre.
Proof.
  revert i. induction pre as [|a pre IH]; intros i H.
  - cbn. rewrite Ascii.eqb_refl. unfold strings.len. cbn. lia.
  - cbn [count_byte String.append strings.IndexByte_from] in *.
    destruct (Ascii.eqb a c); [discriminate|].
    rewrite IH by exact H. unfold strings.len. cbn [String.length].
    rewrite Nat2Z.inj_succ. lia.
Qed.

Lemma LastIndexByte_from_none c s i l :
  count_byte c s = O -> strings.LastIndexByte_from s c i l = l.
Proof.
  revert i l. induction s as [|a s IH]; intros i l H; [reflexivity|].
  cbn [count_byte strings.LastIndexByte_from] in *.
  destruct (Ascii.eqb a c); [discriminate|]. apply IH. exact H.
Qed.

Lemma LastIndexByte_from_last c pre post i l :
  count_byte c post = O ->
  strings.LastIndexByte_from (pre ++ String c post) c i l
  = i + strings.len pre.
Proof.
  revert i l. induction pre as [|a pre IH]; intros i l H.
  - cbn [String.append strings.LastIndexByte_from].
    rewrite Ascii.eqb_refl, LastIndexByte_from_none by exact H.
    unfold strings.len. cbn. lia.
  - cbn [String.append strings.LastIndexByte_from].
    rewrite IH by exact H. unfold strings.len. cbn [String.length].
    rewrite Nat2Z.inj_succ. lia.
Qed.

(** A string in which [c] occurs splits at the last occurrence. *)
Lemma split_last c s :
  count_byte c s <> O ->
  exists pre post,
    s = (pre ++ String c post)%string /\ count_byte c post = O
    /\ S (count_byte c pre) = count_byte c s.
Proof.
  induction s as [|a s IH]; intros H; [contradiction|].
  cbn [count_byte] in *.
  destruct (Nat.eq_dec (count_byte c s) 0) as [E|E].
  - destruct (Ascii.eqb_spec a c) as [->|Hne]; [|lia].
    exists EmptyString, s. repeat split; [exact E|cbn; lia].
  - destruct (IH E) as (pre & post & -> & Hp & Hc).
    exists (String a pre), post. cbn [String.append count_byte].
    repeat split; [exact Hp|]. rewrite <- Hc. lia.
Qed.

(** A string in which [c] occurs splits at the first occurrence. *)
Lemma split_first c s :
  count_byte c s <> O ->
  exists pre post,
    s = (pre ++ String c post)%string /\ count_byte c pre = O.
Proof.
  induction s as [|a s IH]; intros H; [contradiction|].
  cbn [count_byte] in *.
  destruct (Ascii.eqb_spec a c) as [->|Hne].
  - exists EmptyString, s. split; reflexivity.
  - destruct (IH ltac:(lia)) as (pre & post & -> & Hp).
    exists (String a pre), post. cbn [String.append count_byte].
    destruct (Ascii.eqb_spec a c); [contradiction|]. split; [reflexivity|].
    exact Hp.
Qed.

Lemma prefix_append pre rest :
  strings.prefix (pre ++ rest) (strings.len pre) = pre.
Proof.
  unfold strings.prefix, strings.len. rewrite Nat2Z.id.
  induction pre as [|a pre IH]; cbn [String.append String.length].
  - destruct rest; reflexivity.
  - cbn [String.substring]. now rewrite IH.
Qed.

Lemma at_append pre t tail :
  strings.at_ (pre ++ String t tail) (strings.len pre) = Some t.
Proof.
  unfold strings.at_, strings.len.
  destruct (Z.ltb_spec (Z.of_nat (String.length pre)) 0) as [C|_]; [lia|].
  rewrite Nat2Z.id.
  induction pre as [|a pre IH]; cbn [String.append String.length String.get];
    [reflexivity|exact IH].
Qed.

Lemma append_assoc (s1 s2 s3 : string) :
  ((s1 ++ s2) ++ s3)%string = (s1 ++ (s2 ++ s3))%string.
Proof.
  induction s1 as [|a s1 IH]; cbn [String.append]; [reflexivity|].
  now rewrite IH.
Qed.

Lemma append_nil_r (s : string) : (s ++ "")%string = s.
Proof.
  induction s as [|a s IH]; cbn [String.append]; [reflexivity|].
  now rewrite IH.
Qed.

(** The decimal digits of a number hold neither a colon nor a bracket. *)
Lemma count_byte_digits c u :
  (forall d, In d ["0"; "1"; "2"; "3"; "4"; "5"; "6"; "7"; "8"; "9"]%char ->
             Ascii.eqb d c = false) ->
  count_byte c (NilEmpty.string_of_uint u) = O.
Proof.
  intros H. induction u; cbn [NilEmpty.string_of_uint count_byte];
    try reflexivity; rewrite IHu, H; try reflexivity; cbn; tauto.
Qed.

Lemma count_byte_itoa c z :
  (forall d,
      In d ["-"; "0"; "1"; "2"; "3"; "4"; "5"; "6"; "7"; "8"; "9"]%char ->
      Ascii.eqb d c = false) ->
  count_byte c (strings.itoa z) = O.
Proof.
  intros H.
  assert (Hd : forall d,
             In d ["0"; "1"; "2"; "3"; "4"; "5"; "6"; "7"; "8"; "9"]%char ->
             Ascii.eqb d c = false) by (intros d Hd; apply H; right; exact Hd).
  assert (U : forall u, count_byte c (NilZero.string_of_uint u) = O).
  { intros u. unfold NilZero.string_of_uint. destruct u;
      try (apply (count_byte_digits c _ Hd)).
    cbn [count_byte]. rewrite Hd by (cbn; tauto). reflexivity. }
  unfold strings.itoa, NilZero.string_of_int.
  destruct (Z.to_int z) as [u|u]; [apply U|].
  cbn [count_byte]. rewrite U, H by (cbn; tauto). reflexivity.
Qed.

Lemma itoa_no_colon z : count_byte ":" (strings.itoa z) = O.
Proof. apply count_byte_itoa. intros d Hd. cbn in Hd.
  repeat (destruct Hd as [<-|Hd]; [reflexivity|]). contradiction. Qed.

(** [fixHostPort] on an address that opens with a bracket. *)
Lemma fixHostPort_open_bracket rest p :
  fixHostPort (String "[" rest) p =
  (let address := String "[" rest in
   let end_ := strings.IndexByte address "]"%char in
   if end_ <? 0 then inl (errors_New "missing ']' in address"%string)
   else if end_ + 1 =? strings.len address
   then inr (address ++ ":" ++ strings.itoa p)%string
   else
     match strings.at_ address (end_ + 1) with
     | Some ":"%char => inr address
     | _ =>
         inl (errors_New
                "unexpected character following ']' in address"%string)
     end).
Proof.
  unfold fixHostPort.
  assert (L : (strings.len (String "[" rest) =? 0) = false).
  { apply Z.eqb_neq. unfold strings.len. cbn [String.length]. lia. }
  rewrite L. reflexivity.
Qed.

(** [fixHostPort] on a non-empty address that does not. *)
Lemma fixHostPort_no_bracket a rest p :
  a <> "["%char ->
  fixHostPort (String a rest) p =
  (let address := String a rest in
   let last := strings.LastIndexByte address ":"%char in
   if last <? 0
   then inr (address ++ ":" ++ strings.itoa p)%string
   else
     let prev :=
       strings.LastIndexByte (strings.prefix address last) ":"%char in
     if prev <? 0 then inr address
     else inr ("[" ++ address ++ "]:" ++ strings.itoa p)%string).
Proof.
  intros Ha. unfold fixHostPort.
  assert (L : (strings.len (String a rest) =? 0) = false).
  { apply Z.eqb_neq. unfold strings.len. cbn [String.length]. lia. }
  rewrite L. cbn [strings.at_ Z.ltb Z.compare Z.to_nat String.get].
  destruct a as [b0 b1 b2 b3 b4 b5 b6 b7].
  destruct b0, b1, b2, b3, b4, b5, b6, b7; try reflexivity.
  contradiction Ha. reflexivity.
Qed.

(** [fixHostPort] on an unbracketed address goes by its colons. *)
Lemma fixHostPort_colons (a : ascii) (rest : string) (p : Z) :
  a <> "["%char ->
  fixHostPort (String a rest) p =
    inr (match count_byte ":" (String a rest) with
         | O => String a rest ++ ":" ++ strings.itoa p
         | S O => String a rest
         | S (S _) => "[" ++ String a rest ++ "]:" ++ strings.itoa p
         end)%string.
Proof.
  intros Ha.
  rewrite (fixHostPort_no_bracket a rest p Ha). cbv zeta.
  set (address := String a rest).
  unfold strings.LastIndexByte.
  destruct (count_byte ":" address) as [|n] eqn:Ec.
  - rewrite LastIndexByte_from_none by exact Ec. reflexivity.
  - destruct (split_last ":" address ltac:(lia)) as (pre & post & E & Hp & Hc).
    assert (L1 : strings.LastIndexByte_from address ":" 0 (-1)
                 = strings.len pre).
    { rewrite E, LastIndexByte_from_last by exact Hp. lia. }
    assert (P1 : strings.prefix address (strings.len pre) = pre).
    { rewrite E. apply prefix_append. }
    rewrite L1, P1.
    pose proof (len_nonneg pre) as Hl.
    destruct (Z.ltb_spec (strings.len pre) 0); [lia|].
    rewrite Ec in Hc. injection Hc as Hc.
    destruct n as [|n].
    + rewrite LastIndexByte_from_none by exact Hc. reflexivity.
    + destruct (split_last ":" pre ltac:(lia)) as (pre' & post' & E' & Hp' & _).
      rewrite E'. rewrite LastIndexByte_from_last by exact Hp'.
      pose proof (len_nonneg pre').
      destruct (Z.ltb_spec (0 + strings.len pre') 0); [lia|]. reflexivity.
Qed.

(** X18.  [fixHostPort] on a non-empty address that does not open with a
    bracket never fails and goes by the number of colons: with none the
    default port is appended after a colon; with exactly one the address
    is returned as it is; with two or more (an IPv6 literal) the address
    is put in brackets and the default port appended.  The empty address
    is an error. *)
Theorem fixHostPort_by_colons (a : ascii) (rest : string) (p : Z) :
  a <> "["%char ->
  (count_byte ":" (String a rest) = 0%nat ->
   fixHostPort (String a rest) p
   = inr (String a rest ++ ":" ++ strings.itoa p)%string)
  /\ (count_byte ":" (String a rest) = 1%nat ->
      fixHostPort (String a rest) p = inr (String a rest))
  /\ ((2 <= count_byte ":" (String a rest))%nat ->
      fixHostPort (String a rest) p
      = inr ("[" ++ String a rest ++ "]:" ++ strings.itoa p)%string)
  /\ fixHostPort EmptyString p = inl (errors_New "address string is empty").
Proof.
  intros Ha. pose proof (fixHostPort_colons a rest p Ha) as E.
  split; [|split; [|split]].
  - intros C. rewrite C in E. exact E.
  - intros C. rewrite C in E. exact E.
  - intros C.
    destruct (count_byte ":" (String a rest)) as [|[|n]]; [lia|lia|exact E].
  - reflexivity.
Qed.

Lemma fixHostPort_by_colons_witness :
  "t"%char <> "["%char
  /\ fixHostPort "time.example.org" 123 = inr "time.example.org:123"%string
  /\ fixHostPort "2001:db8::1" 123 = inr "[2001:db8::1]:123"%string.
Proof.
  assert (H1 : "t"%char <> "["%char) by discriminate.
  assert (H2 : "2"%char <> "["%char) by discriminate.
  split; [exact H1|]. split.
  - exact (proj1 (fixHostPort_by_colons "t" "ime.example.org" 123 H1)
             eq_refl).
  - apply (proj1 (proj2 (proj2
             (fixHostPort_by_colons "2" "001:db8::1" 123 H2)))).
    cbn. lia.
Defined.

(** [fixHostPort] on a bracketed host followed by [post]. *)
Lemma fixHostPort_after_bracket host post p :
  count_byte "]" host = O ->
  fixHostPort (String "[" (host ++ String "]" post)) p =
  match post with
  | EmptyString =>
      inr (String "[" (host ++ String "]" (String ":" (strings.itoa p))))
  | String t _ =>
      if Ascii.eqb t ":" then inr (String "[" (host ++ String "]" post))
      else inl (errors_New "unexpected character following ']' in address")
  end.
Proof.
  intros Hh.
  assert (Hpre : count_byte "]" (String "[" host) = O) by exact Hh.
  rewrite fixHostPort_open_bracket. cbv zeta.
  pose proof (len_nonneg (String "[" host)) as Hl.
  assert (I : strings.IndexByte (String "[" (host ++ String "]" post)) "]"
              = strings.len (String "[" host)).
  { unfold strings.IndexByte.
    change (String "[" (host ++ String "]" post))
      with (String "[" host ++ String "]" post)%string.
    rewrite IndexByte_from_first by exact Hpre. lia. }
  assert (Ln : strings.len (String "[" (host ++ String "]" post))
               = strings.len (String "[" host) + 1 + strings.len post).
  { change (String "[" (host ++ String "]" post))
      with (String "[" host ++ String "]" post)%string.
    rewrite len_append. unfold strings.len. cbn [String.length].
    rewrite !Nat2Z.inj_succ. lia. }
  rewrite I, Ln.
  destruct (Z.ltb_spec (strings.len (String "[" host)) 0); [lia|].
  destruct post as [|t tail].
  - change (strings.len EmptyString) with 0.
    rewrite Z.add_0_r, Z.eqb_refl. f_equal.
    cbn [String.append]. f_equal.
    rewrite append_assoc. reflexivity.
  - assert (Hne : strings.len (String t tail) <> 0).
    { unfold strings.len. cbn [String.length]. lia. }
    destruct (Z.eqb_spec (strings.len (String "[" host) + 1)
                (strings.len (String "[" host) + 1
                 + strings.len (String t tail))); [lia|].
    assert (At : strings.at_ (String "[" (host ++ String "]" (String t tail)))
                   (strings.len (String "[" host) + 1) = Some t).
    { replace (String "[" (host ++ String "]" (String t tail)))
        with ((String "[" host ++ String "]" EmptyString)
              ++ String t tail)%string
        by (rewrite append_assoc; reflexivity).
      replace (strings.len (String "[" host) + 1)
        with (strings.len (String "[" host ++ String "]" EmptyString)).
      - apply at_append.
      - rewrite len_append. unfold strings.len. cbn [String.length]. lia. }
    rewrite At.
    destruct t as [b0 b1 b2 b3 b4 b5 b6 b7].
    destruct b0, b1, b2, b3, b4, b5, b6, b7; reflexivity.
Qed.

(** X19.  [fixHostPort] on an address that opens with a bracket goes by
    what follows the first closing bracket: without any closing bracket
    it is an error; when the bracket ends the address the default port is
    appended after a colon; when a colon follows the address is returned
    as it is; any other character following is an error. *)
Theorem fixHostPort_bracketed (host tail : string) (t : ascii) (p : Z) :
  count_byte "]" host = O ->
  fixHostPort ("[" ++ host) p = inl (errors_New "missing ']' in address")
  /\ fixHostPort ("[" ++ host ++ "]") p
     = inr ("[" ++ host ++ "]:" ++ strings.itoa p)%string
  /\ fixHostPort ("[" ++ host ++ "]:" ++ tail) p
     = inr ("[" ++ host ++ "]:" ++ tail)%string
  /\ (t <> ":"%char ->
      fixHostPort ("[" ++ host ++ "]" ++ String t tail) p
      = inl (errors_New "unexpected character following ']' in address")).
Proof.
  intros Hh. split; [|split; [|split]].
  - change ("[" ++ host)%string with (String "[" host).
    rewrite fixHostPort_open_bracket. cbv zeta.
    unfold strings.IndexByte.
    rewrite IndexByte_from_none by exact Hh. reflexivity.
  - exact (fixHostPort_after_bracket host EmptyString p Hh).
  - exact (fixHostPort_after_bracket host (String ":" tail) p Hh).
  - intros Ht.
    change ("[" ++ host ++ "]" ++ String t tail)%string
      with (String "[" (host ++ String "]" (String t tail))).
    rewrite (fixHostPort_after_bracket host (String t tail) p Hh).
    destruct (Ascii.eqb_spec t ":"); [contradiction|reflexivity].
Qed.

Lemma fixHostPort_bracketed_witness :
  count_byte "]" "::1" = O
  /\ fixHostPort "[::1]" 123 = inr "[::1]:123"%string
  /\ fixHostPort "[::1]:4460" 123 = inr "[::1]:4460"%string.
Proof.
  assert (H : count_byte "]" "::1" = O) by reflexivity.
  split; [exact H|].
  pose proof (fixHostPort_bracketed "::1" "4460" "x" 123 H) as (_ & A & B & _).
  split; [exact A|exact B].
Defined.

(** X20.  A fixed address stays fixed: when [fixHostPort] succeeds on an
    address that opens with a bracket, or that holds no closing bracket,
    applying it again to the result, with any default port, returns the
    result unchanged, so a port is never added twice.  An unbracketed
    address with a closing bracket inside can break this: the result for
    "a:b]c:d" is refused on the second pass. *)
Theorem fixHostPort_fixed_point (address r : string) (p p' : Z) :
  fixHostPort address p = inr r ->
  strings.at_ address 0 = Some "["%char \/ count_byte "]" address = O ->
  fixHostPort r p' = inr r
  /\ count_byte ":" r <> O
  /\ (exists r', fixHostPort "a:b]c:d" 123 = inr r'
                 /\ fixHostPort r' 123
                    = inl (errors_New
                             "unexpected character following ']' in address")).
Proof.
  intros Hfix Hform.
  assert (Ex : exists r', fixHostPort "a:b]c:d" 123 = inr r'
                 /\ fixHostPort r' 123
                    = inl (errors_New
                             "unexpected character following ']' in address")).
  { eexists. split; reflexivity. }
  enough (G : fixHostPort r p' = inr r /\ count_byte ":" r <> O)
    by (destruct G; repeat split; assumption).
  destruct address as [|a rest]; [discriminate|].
  destruct (Ascii.eqb_spec a "[") as [->|Ha].
  - (* bracketed *)
    destruct (Nat.eq_dec (count_byte "]" rest) 0) as [E0|E0].
    + rewrite fixHostPort_open_bracket in Hfix. cbv zeta in Hfix.
      unfold strings.IndexByte in Hfix.
      rewrite IndexByte_from_none in Hfix by exact E0. discriminate.
    + destruct (split_first "]" rest E0) as (host & post & -> & Hh).
      rewrite (fixHostPort_after_bracket host post p Hh) in Hfix.
      destruct post as [|t tail].
      * assert (Er : r = String "[" (host ++ String "]"
                                        (String ":" (strings.itoa p))))
          by congruence.
        subst r. clear Hfix.
        split.
        -- exact (fixHostPort_after_bracket host
                    (String ":" (strings.itoa p)) p' Hh).
        -- cbn [count_byte]. rewrite count_byte_append. cbn [count_byte].
           cbn [Ascii.eqb Bool.eqb]. lia.
      * destruct (Ascii.eqb_spec t ":") as [->|]; [|discriminate].
        assert (Er : r = String "[" (host ++ String "]" (String ":" tail)))
          by congruence.
        subst r. clear Hfix.
        split.
        -- exact (fixHostPort_after_bracket host (String ":" tail) p' Hh).
        -- cbn [count_byte]. rewrite count_byte_append. cbn [count_byte].
           cbn [Ascii.eqb Bool.eqb]. lia.
  - (* plain *)
    destruct Hform as [Hb|Hnb].
    { cbn in Hb. injection Hb as ->. contradiction. }
    pose proof (fixHostPort_colons a rest p Ha) as Hp.
    rewrite Hp in Hfix. clear Hp.
    destruct (count_byte ":" (String a rest)) as [|[|n]] eqn:Ec;
      match type of Hfix with
      | inr ?x = inr r => assert (Er : r = x) by congruence
      end; subst r; clear Hfix.
    + (* no colon: the port was appended, leaving exactly one colon *)
      assert (C1 : count_byte ":" (String a rest ++ ":" ++ strings.itoa p)
                   = 1%nat).
      { rewrite count_byte_append, Ec. cbn [String.append count_byte].
        rewrite itoa_no_colon. reflexivity. }
      split; [|rewrite C1; discriminate].
      pose proof (fixHostPort_colons a
                    (rest ++ ":" ++ strings.itoa p) p' Ha) as Hp'.
      change (String a (rest ++ ":" ++ strings.itoa p))
        with (String a rest ++ ":" ++ strings.itoa p)%string in Hp'.
      rewrite C1 in Hp'. exact Hp'.
    + split; [|rewrite Ec; discriminate].
      pose proof (fixHostPort_colons a rest p' Ha) as Hp'.
      rewrite Ec in Hp'. exact Hp'.
    + split.
      * exact (fixHostPort_after_bracket (String a rest)
                 (String ":" (strings.itoa p)) p' Hnb).
      * cbn [String.append count_byte]. rewrite count_byte_append.
        cbn [count_byte]. cbn [Ascii.eqb Bool.eqb]. lia.
Qed.

Lemma fixHostPort_fixed_point_witness :
  fixHostPort "time.example.org" 123 = inr "time.example.org:123"%string
  /\ fixHostPort "time.example.org:123" 4460
     = inr "time.example.org:123"%string.
Proof.
  assert (H : fixHostPort "time.example.org" 123
              = inr "time.example.org:123"%string) by reflexivity.
  split; [exact H|].
  exact (proj1 (fixHostPort_fixed_point "time.example.org"
                  "time.example.org:123" 123 4460 H (or_intror eq_refl))).
Defined.

(** ** Elapsed time across the rollover *)

Lemma s64_add_mul z k : s64 (z + k * 2 ^ 64) = s64 z.
Proof.
  unfold s64, swrap. change (64 - 1) with 63.
  replace (z + k * 2 ^ 64 + 2 ^ 63) with (z + 2 ^ 63 + k * 2 ^ 64) by lia.
  rewrite Z.mod_add by lia. reflexivity.
Qed.

Lemma round_frac_error ns :
  0 <= ns < nanoPerSec ->
  - 500000000 < round_frac ns * nanoPerSec - ns * 2 ^ 32 <= 500000000.
Proof.
  unfold round_frac, nanoPerSec. intros H.
  Z.to_euclidean_division_equations. lia.
Qed.

(** The signed difference of two [toNtpTime] values, exactly: the whole
    seconds apart in the upper half plus the difference of the rounded
    fractions, whatever multiples of 2^32 seconds were dropped. *)
Lemma toNtpTime_sdiff (t t' : Z) :
  0 <= t - ntpEra0 < 2 ^ 63 ->
  0 <= t' - ntpEra0 < 2 ^ 63 ->
  Z.abs (t' - t) <= (2 ^ 31 - 1) * Second ->
  sdiff64 (toNtpTime t') (toNtpTime t)
  = ((t' - ntpEra0) / nanoPerSec - (t - ntpEra0) / nanoPerSec) * 2 ^ 32
    + (round_frac ((t' - ntpEra0) mod nanoPerSec)
       - round_frac ((t - ntpEra0) mod nanoPerSec)).
Proof.
  intros Ht Ht' Hd. unfold Second in *.
  rewrite (toNtpTime_closed t Ht), (toNtpTime_closed t' Ht').
  unfold nanoPerSec in *.
  set (d := t - ntpEra0) in *. set (d' := t' - ntpEra0) in *.
  assert (Ed : t' - t = d' - d) by (subst d d'; lia).
  rewrite Ed in *. clear Ed.
  set (s := d / 1000000000). set (ns := d mod 1000000000).
  set (s' := d' / 1000000000). set (ns' := d' mod 1000000000).
  assert (Hns : 0 <= ns < 1000000000)
    by (subst ns; apply Z.mod_pos_bound; lia).
  assert (Hns' : 0 <= ns' < 1000000000)
    by (subst ns'; apply Z.mod_pos_bound; lia).
  assert (Dd : d = 1000000000 * s + ns)
    by (subst s ns; apply Z.div_mod; lia).
  assert (Dd' : d' = 1000000000 * s' + ns')
    by (subst s' ns'; apply Z.div_mod; lia).
  pose proof (round_frac_bounds ns Hns) as Bf.
  pose proof (round_frac_bounds ns' Hns') as Bf'.
  unfold nanoPerSec in *.
  set (f := round_frac ns) in *. set (f' := round_frac ns') in *.
  pose proof (Z.div_mod s (2 ^ 32) ltac:(lia)) as Ms.
  pose proof (Z.div_mod s' (2 ^ 32) ltac:(lia)) as Ms'.
  set (exact := (s' - s) * 2 ^ 32 + (f' - f)).
  assert (Ex : s' mod 2 ^ 32 * 2 ^ 32 + f' - (s mod 2 ^ 32 * 2 ^ 32 + f)
               = exact + (s / 2 ^ 32 - s' / 2 ^ 32) * 2 ^ 64).
  { subst exact. change (2 ^ 64) with (2 ^ 32 * 2 ^ 32). lia. }
  unfold sdiff64. rewrite s64_u64, Ex, s64_add_mul.
  apply s64_small. subst exact. lia.
Qed.

(** X21.  The difference of the timestamps of two instants is their
    elapsed time, to within one unit of 2^-32 s, also when the era
    rollover of 2036 lies between them: for instants after 1900, within
    the reach of a duration from it and less than 2^31 - 1 seconds apart,
    the signed difference of their [toNtpTime] values times 10^9 differs
    from the elapsed nanoseconds times 2^32 by at most 10^9. *)
Theorem toNtpTime_difference (t t' : Z) :
  0 <= t - ntpEra0 < 2 ^ 63 ->
  0 <= t' - ntpEra0 < 2 ^ 63 ->
  Z.abs (t' - t) <= (2 ^ 31 - 1) * Second ->
  - Second <= sdiff64 (toNtpTime t') (toNtpTime t) * Second
              - (t' - t) * 2 ^ 32 <= Second.
Proof.
  intros Ht Ht' Hd. rewrite (toNtpTime_sdiff t t' Ht Ht' Hd).
  unfold Second, nanoPerSec in *.
  set (d := t - ntpEra0) in *. set (d' := t' - ntpEra0) in *.
  assert (Hns : 0 <= d mod 1000000000 < 1000000000)
    by (apply Z.mod_pos_bound; lia).
  assert (Hns' : 0 <= d' mod 1000000000 < 1000000000)
    by (apply Z.mod_pos_bound; lia).
  pose proof (round_frac_error _ Hns) as Ef.
  pose proof (round_frac_error _ Hns') as Ef'.
  pose proof (Z.div_mod d 1000000000 ltac:(lia)) as Dd.
  pose proof (Z.div_mod d' 1000000000 ltac:(lia)) as Dd'.
  unfold nanoPerSec in *.
  replace (t' - t) with (d' - d) by (subst d d'; lia).
  lia.
Qed.

Lemma toNtpTime_difference_witness :
  0 <= time.Date 2036 2 7 6 28 15 0 - ntpEra0 < 2 ^ 63
  /\ - Second <= sdiff64 (toNtpTime (time.Date 2036 2 7 6 28 17 0))
                   (toNtpTime (time.Date 2036 2 7 6 28 15 0)) * Second
                 - (time.Date 2036 2 7 6 28 17 0
                    - time.Date 2036 2 7 6 28 15 0) * 2 ^ 32 <= Second.
Proof.
  assert (H1 : 0 <= time.Date 2036 2 7 6 28 15 0 - ntpEra0 < 2 ^ 63)
    by (vm_compute; split; [discriminate|reflexivity]).
  assert (H2 : 0 <= time.Date 2036 2 7 6 28 17 0 - ntpEra0 < 2 ^ 63)
    by (vm_compute; split; [discriminate|reflexivity]).
  split; [exact H1|].
  apply (toNtpTime_difference _ _ H1 H2).
  vm_compute. discriminate.
Defined.

(** ** The query on the wire *)





(** ** Round-trip time against the local clock *)

Lemma rtt_round org rec xmt dst :
  rtt org rec xmt dst
  = round_ns (Z.max 0 (s64 (sdiff64 dst org - sdiff64 xmt rec))).
Proof.
  unfold rtt. fold (sdiff64 dst org) (sdiff64 xmt rec).
  pose proof (s64_range (sdiff64 dst org - sdiff64 xmt rec)) as R.
  destruct (Z.ltb_spec (s64 (sdiff64 dst org - sdiff64 xmt rec)) 0).
  - rewrite Z.max_l by lia. reflexivity.
  - rewrite Z.max_r by lia. rewrite u64_small by lia.
    apply Duration_round. lia.
Qed.

(** X23.  With the origin and destination timestamps taken from the local
    clock at an instant [T] and [elapsed] nanoseconds later, and a server
    whose transmit timestamp is not before its receive timestamp (by less
    than 2^63 units), [rtt] never exceeds the locally measured elapsed
    time, and equals it exactly when the server spent no time at all. *)
Theorem rtt_at_most_elapsed (T elapsed rec xmt : Z) :
  0 <= T - ntpEra0 -> T + elapsed - ntpEra0 < 2 ^ 63 ->
  0 <= elapsed <= (2 ^ 31 - 1) * Second ->
  is_u64 rec -> is_u64 xmt -> rec <= xmt -> xmt - rec < 2 ^ 63 ->
  rtt (toNtpTime T) rec xmt (toNtpTime (T + elapsed)) <= elapsed
  /\ (rec = xmt ->
      rtt (toNtpTime T) rec xmt (toNtpTime (T + elapsed)) = elapsed).
Proof.
  unfold is_u64. intros HT HT' He Hr Hx Hle Hlt.
  assert (D : - Second
               <= sdiff64 (toNtpTime (T + elapsed)) (toNtpTime T) * Second
                  - elapsed * 2 ^ 32 <= Second).
  { assert (Ha : Z.abs (T + elapsed - T) <= (2 ^ 31 - 1) * Second)
      by (replace (T + elapsed - T) with elapsed by lia;
          rewrite Z.abs_eq by lia; lia).
    rewrite (toNtpTime_sdiff T (T + elapsed) ltac:(lia) ltac:(lia) Ha).
    unfold Second, nanoPerSec in *.
    set (d := T - ntpEra0) in *. set (d' := T + elapsed - ntpEra0) in *.
    assert (Hns : 0 <= d mod 1000000000 < 1000000000)
      by (apply Z.mod_pos_bound; lia).
    assert (Hns' : 0 <= d' mod 1000000000 < 1000000000)
      by (apply Z.mod_pos_bound; lia).
    pose proof (round_frac_error _ Hns) as Ef.
    pose proof (round_frac_error _ Hns') as Ef'.
    pose proof (Z.div_mod d 1000000000 ltac:(lia)) as Dd.
    pose proof (Z.div_mod d' 1000000000 ltac:(lia)) as Dd'.
    unfold nanoPerSec in *.
    replace elapsed with (d' - d) by (subst d d'; lia).
    lia. }
  rewrite rtt_round.
  set (a := sdiff64 (toNtpTime (T + elapsed)) (toNtpTime T)) in *.
  assert (Eb : sdiff64 xmt rec = xmt - rec).
  { unfold sdiff64. rewrite u64_small by lia. apply s64_small. lia. }
  rewrite Eb.
  pose proof (sdiff64_range (toNtpTime (T + elapsed)) (toNtpTime T)) as Ra.
  fold a in Ra. unfold is_s64, Second in *.
  assert (Ha : - 1 <= a) by lia.
  split.
  - rewrite (s64_small (a - (xmt - rec))) by lia.
    unfold round_ns, nanoPerSec.
    apply Z.lt_succ_r. apply Z.div_lt_upper_bound; lia.
  - intros ->. replace (a - (xmt - xmt)) with a by lia.
    rewrite (s64_small a) by lia.
    unfold round_ns, nanoPerSec.
    destruct (Z.le_gt_cases 0 a).
    + rewrite Z.max_r by lia.
      symmetry. apply Z.div_unique with
        (r := a * 1000000000 + 2 ^ 31 - 2 ^ 32 * elapsed); lia.
    + assert (a = -1) by lia. subst a.
      rewrite Z.max_l by lia.
      assert (elapsed = 0) by lia. subst elapsed. reflexivity.
Qed.

Lemma rtt_at_most_elapsed_witness :
  0 <= time.Date 2024 1 1 0 0 0 0 - ntpEra0
  /\ rtt (toNtpTime (time.Date 2024 1 1 0 0 0 0)) 7 7
         (toNtpTime (time.Date 2024 1 1 0 0 0 0 + 20000000)) = 20000000.
Proof.
  assert (H1 : 0 <= time.Date 2024 1 1 0 0 0 0 - ntpEra0)
    by (vm_compute; discriminate).
  split; [exact H1|].
  refine (proj2 (rtt_at_most_elapsed (time.Date 2024 1 1 0 0 0 0) 20000000
                   7 7 H1 _ _ _ _ _ _) eq_refl);
    vm_compute; try split; try reflexivity; discriminate.
Defined.
